(** * Telesto geological grid tool: grid generation, compatibility and merge

    A shallow embedding of the numeric core of the Geological3DGridTool
    component (horizon interpolation, fault influence, layer stack
    builder, compatibility checker, merge engine, the grid-list handlers
    and the sample-horizon generator), of the stand-alone interpolation,
    fault, bounds and validation utilities, and of the uploader that
    calls the validator, followed by the properties of the specification
    and further properties of the code stated against that embedding.

    Numbers.  A JavaScript number is modelled by [num]: a real number, or
    one of the three special values NaN, +Infinity, -Infinity.  Arithmetic
    on finite values is exact real arithmetic (binary64 rounding and
    overflow are not modelled, and the two zeros are identified); the
    special values follow the IEEE rules the source relies on
    ([0/0 = NaN], [Math.min() = Infinity], comparisons with NaN are
    false).

    Effects.  [Math.random] reads a stream [rnd : nat -> R] at a position
    kept in the state; [alert] appends to a log kept in the state;
    [Date.now] is a parameter of the two operations that create a grid.
    The cooperative [await] inside the sampling loop is not modelled: a
    build runs atomically on the state it was started in.

    Exceptions.  A call ends by returning or by throwing.  Two kinds of
    throw occur in the modelled code: a property read on [undefined]
    (TypeError) and a spread call [f(...array)] with more elements than
    the engine takes as arguments (RangeError).  The engine's limit is
    part of the state the handlers run in. *)

From Stdlib Require Import Reals Lra Lia List ZArith Bool Arith String Ascii
  DecimalString Permutation.
From Stdlib Require Import Sorted.
Import ListNotations.

Open Scope R_scope.

(* ================================================================== *)
(** * JavaScript numbers *)
(* ================================================================== *)

Module Js.

Inductive num : Type :=
| NaN
| NInf
| Fin (r : R)
| PInf.

Definition Rltb (a b : R) : bool := if Rlt_dec a b then true else false.
Definition Rleb (a b : R) : bool := if Rle_dec a b then true else false.
Definition Reqb (a b : R) : bool := if Req_dec_T a b then true else false.

Definition finite (a : num) : Prop :=
  match a with Fin _ => True | _ => False end.

Definition add (a b : num) : num :=
  match a, b with
  | NaN, _ | _, NaN => NaN
  | PInf, NInf | NInf, PInf => NaN
  | PInf, _ | _, PInf => PInf
  | NInf, _ | _, NInf => NInf
  | Fin x, Fin y => Fin (x + y)
  end.

Definition sub (a b : num) : num :=
  match a, b with
  | NaN, _ | _, NaN => NaN
  | PInf, PInf | NInf, NInf => NaN
  | PInf, _ | _, NInf => PInf
  | NInf, _ | _, PInf => NInf
  | Fin x, Fin y => Fin (x - y)
  end.

(** Sign of an infinite operand times the sign of a real. *)
Definition scaled_inf (positive : bool) (r : R) : num :=
  if Rltb 0 r then (if positive then PInf else NInf)
  else if Rltb r 0 then (if positive then NInf else PInf)
  else NaN.

Definition mul (a b : num) : num :=
  match a, b with
  | NaN, _ | _, NaN => NaN
  | Fin x, Fin y => Fin (x * y)
  | Fin x, PInf | PInf, Fin x => scaled_inf true x
  | Fin x, NInf | NInf, Fin x => scaled_inf false x
  | PInf, PInf | NInf, NInf => PInf
  | PInf, NInf | NInf, PInf => NInf
  end.

Definition div (a b : num) : num :=
  match a, b with
  | NaN, _ | _, NaN => NaN
  | Fin x, Fin y =>
      if Reqb y 0 then scaled_inf true x else Fin (x / y)
  | Fin _, _ => Fin 0
  | PInf, Fin y => if Rltb y 0 then NInf else PInf
  | NInf, Fin y => if Rltb y 0 then PInf else NInf
  | _, _ => NaN
  end.

Definition ltb (a b : num) : bool :=
  match a, b with
  | NaN, _ | _, NaN => false
  | Fin x, Fin y => Rltb x y
  | NInf, NInf | PInf, _ | _, NInf => false
  | NInf, _ | _, PInf => true
  end.

Definition leb (a b : num) : bool :=
  match a, b with
  | NaN, _ | _, NaN => false
  | Fin x, Fin y => Rleb x y
  | NInf, _ | _, PInf => true
  | PInf, _ | _, NInf => false
  end.

Definition neg (a : num) : num :=
  match a with
  | NaN => NaN
  | NInf => PInf
  | Fin x => Fin (- x)
  | PInf => NInf
  end.

Definition gtb (a b : num) : bool := ltb b a.
Definition geb (a b : num) : bool := leb b a.

(** [Math.min(a, b)], [Math.max(a, b)], [Math.abs], [Math.sqrt]. *)
Definition min (a b : num) : num :=
  match a, b with
  | NaN, _ | _, NaN => NaN
  | NInf, _ | _, NInf => NInf
  | PInf, c | c, PInf => c
  | Fin x, Fin y => Fin (Rmin x y)
  end.

Definition max (a b : num) : num :=
  match a, b with
  | NaN, _ | _, NaN => NaN
  | PInf, _ | _, PInf => PInf
  | NInf, c | c, NInf => c
  | Fin x, Fin y => Fin (Rmax x y)
  end.

Definition abs (a : num) : num :=
  match a with
  | NaN => NaN
  | Fin x => Fin (Rabs x)
  | _ => PInf
  end.

Definition sqrt (a : num) : num :=
  match a with
  | Fin x => if Rltb x 0 then NaN else Fin (R_sqrt.sqrt x)
  | PInf => PInf
  | _ => NaN
  end.

(** [a ** 2] and [Math.pow(a, 2)]. *)
Definition sq (a : num) : num :=
  match a with
  | NaN => NaN
  | Fin x => Fin (x * x)
  | _ => PInf
  end.

(** [Math.pow(10, a)]. *)
Definition pow10 (a : num) : num :=
  match a with
  | NaN => NaN
  | NInf => Fin 0
  | Fin x => Fin (Rpower 10 x)
  | PInf => PInf
  end.

Definition exp (a : num) : num :=
  match a with
  | NaN => NaN
  | NInf => Fin 0
  | Fin x => Fin (Rtrigo_def.exp x)
  | PInf => PInf
  end.

Definition sin (a : num) : num :=
  match a with Fin x => Fin (Rtrigo_def.sin x) | _ => NaN end.

Definition cos (a : num) : num :=
  match a with Fin x => Fin (Rtrigo_def.cos x) | _ => NaN end.

(** [Math.round]: the nearest integer, halves rounded up. *)
Definition Rround (r : R) : R := IZR (Zfloor (r + / 2)).

Definition round (a : num) : num :=
  match a with Fin x => Fin (Rround x) | other => other end.

(** A number is falsy when it is [0] or [NaN]; [a || d]. *)
Definition falsy (a : num) : bool :=
  match a with
  | NaN => true
  | Fin x => Reqb x 0
  | _ => false
  end.

Definition or_else (a d : num) : num := if falsy a then d else a.

Definition of_nat (n : nat) : num := Fin (INR n).

(** [Math.min(...l)] and [Math.max(...l)]: the spread call folds from
    the identity of the operation, so an empty array gives an infinity. *)
Definition min_list (l : list num) : num := fold_left min l PInf.
Definition max_list (l : list num) : num := fold_left max l NInf.

(** [l.reduce((a, b) => a + b, 0)]. *)
Definition sum_list (l : list num) : num := fold_left add l (Fin 0).

End Js.

Import Js.

Declare Scope js_scope.
Delimit Scope js_scope with js.
Bind Scope js_scope with num.
Infix "+" := Js.add : js_scope.
Infix "-" := Js.sub : js_scope.
Infix "*" := Js.mul : js_scope.
Infix "/" := Js.div : js_scope.
Infix "<?" := Js.ltb : js_scope.
Infix "<=?" := Js.leb : js_scope.
Infix ">?" := Js.gtb : js_scope.
Coercion Fin : R >-> num.

(* ================================================================== *)
(** * Data model *)
(* ================================================================== *)

(** A surface or fault-trace sample.  The CSV reader sets [segId] only
    when a segment / fault column is present. *)
Record Point : Type := mkPoint {
  px : num;
  py : num;
  pz : num;
  segId : option num
}.

(** [{ name, points, color }]: one loaded horizon or fault system. *)
Record DataSet : Type := mkDataSet {
  ds_name : string;
  ds_points : list Point
}.

Record Bounds : Type := mkBounds {
  xMin : num; xMax : num;
  yMin : num; yMax : num;
  zMin : num; zMax : num
}.

Inductive Direction : Type := Vertical | Horizontal.

(** Fields a cell receives when it is copied into a merged grid. *)
Record MergeInfo : Type := mkMergeInfo {
  originalGrid : string;
  combinedLayer : nat;
  gridIndex : nat;
  sourceHue : nat;              (* hsl(sourceHue, 70%, 60%) *)
  combinedPorosity : num;
  combinedPermeability : num;
  mergeWeight : num
}.

Record Cell : Type := mkCell {
  cx : num;
  cy : num;
  cz : num;
  layer : nat;
  bulkVolume : num;
  faultFlag : num;
  wellPath : nat;
  porosity : num;
  permeability : num;
  structuralDip : num;
  merge_info : option MergeInfo
}.

Record MergeStats : Type := mkMergeStats {
  avgPorosity : num;
  avgPermeability : num;
  faultDensity : num;
  wellDensity : num
}.

Record Grid : Type := mkGrid {
  id : nat;                      (* Date.now().toString() *)
  name : string;
  points : list Cell;
  totalVolume : num;
  layerCount : nat;
  pointCount : nat;
  bounds : Bounds;
  timestamp : nat;
  horizons : string;
  faults : string;
  isCombined : bool;
  sourceGrids : list string;
  mergeType : option Direction;
  mergeStats : option MergeStats
}.

(** The envelope [{ xMin: Math.min(...pts.map(p => p.x)), ... }] written
    three times in the source (horizon points, merged cells,
    [calculateBounds]). *)
Definition envelope {A : Type} (x y z : A -> num) (l : list A) : Bounds :=
  {| xMin := min_list (map x l); xMax := max_list (map x l);
     yMin := min_list (map y l); yMax := max_list (map y l);
     zMin := min_list (map z l); zMax := max_list (map z l) |}.

(* ================================================================== *)
(** * Array helpers *)
(* ================================================================== *)

Section Sorting.
Context {A : Type} (key : A -> num).

(** [arr.sort((a, b) => key(a) - key(b))].  The sort of the language
    is stable, and for a comparator that is a consistent ordering every
    stable sort returns the same array, so insertion is used: [a] moves
    behind [b] exactly when the comparator is positive. *)
Fixpoint insert_by (a : A) (l : list A) : list A :=
  match l with
  | [] => [a]
  | b :: l' =>
      if gtb (key a - key b)%js (Fin 0) then b :: insert_by a l'
      else a :: b :: l'
  end.

Fixpoint sort_by (l : list A) : list A :=
  match l with
  | [] => []
  | a :: l' => insert_by a (sort_by l')
  end.
End Sorting.

(* ================================================================== *)
(** * Horizon interpolator *)
(* ================================================================== *)

(** [{ ...p, distance }] *)
Record Ranked : Type := mkRanked {
  rk_point : Point;
  distance : num
}.

Definition planar_distance (x y : num) (p : Point) : num :=
  Js.sqrt (Js.sq (x - px p) + Js.sq (y - py p))%js.

Definition nearest (k : nat) (x y : num) (pts : list Point) : list Ranked :=
  firstn (Nat.min k (List.length pts))
    (sort_by distance
       (map (fun p => {| rk_point := p; distance := planar_distance x y p |}) pts)).

(** The [forEach] that accumulates [weightSum] and [valueSum]; [clamp]
    is the floored distance of the variant. *)
Definition idw_step (clamp : num -> num) (acc : num * num) (q : Ranked)
  : num * num :=
  let weight := (Fin 1 / Js.sq (clamp (distance q)))%js in
  (fst acc + weight, snd acc + pz (rk_point q) * weight)%js.

Definition idw (clamp : num -> num) (l : list Ranked) : num * num :=
  fold_left (idw_step clamp) l (Fin 0, Fin 0).

Definition head_z (l : list Ranked) : num :=
  match l with
  | [] => Fin 0
  | q :: _ => pz (rk_point q)
  end.

(** Geological3DGridTool: six neighbours, exact-match short-circuit,
    distance floored at 0.1. *)
Module Tool.
Definition geologicalInterpolation (x y : num) (pts : list Point) : num :=
  match pts with
  | [] => Fin 0
  | _ =>
      let nearestPoints := nearest 6 x y pts in
      match nearestPoints with
      | [] => Fin 0
      | q0 :: _ =>
          if (distance q0 <? Fin 1)%js then pz (rk_point q0)
          else
            let '(weightSum, valueSum) :=
              idw (fun d => Js.max d (Fin (1 / 10))) nearestPoints in
            if (weightSum >? Fin 0)%js then (valueSum / weightSum)%js
            else pz (rk_point q0)
      end
  end.
End Tool.

(** geological utilities (and the first version of the component):
    eight neighbours, no short-circuit, distance floored at 1. *)
Module Utils.
Definition geologicalInterpolation (x y : num) (pts : list Point) : num :=
  match pts with
  | [] => Fin 0
  | _ =>
      let nearestPoints := nearest 8 x y pts in
      match nearestPoints with
      | [] => Fin 0
      | q0 :: _ =>
          let '(weightSum, valueSum) :=
            idw (fun d => Js.max d (Fin 1)) nearestPoints in
          if (weightSum >? Fin 0)%js then (valueSum / weightSum)%js
          else pz (rk_point q0)
      end
  end.
End Utils.

(* ================================================================== *)
(** * Fault influence estimator *)
(* ================================================================== *)

(** The constants in which the two copies of the estimator differ. *)
Record FaultConsts : Type := mkFaultConsts {
  decay : R;            (* influenceRadius * decay *)
  threshold : R;        (* maxInfluence > threshold *)
  throw : R;            (* totalInfluence * throw * (Math.random() - 0.5) *)
  defaultRadius : R
}.

Record FaultScan : Type := mkFaultScan {
  totalInfluence : num;
  dominantFault : num;
  maxInfluence : num
}.

Record FaultInfo : Type := mkFaultInfo {
  influence : num;
  fi_faultFlag : num;
  displacement : num
}.

Definition spatial_distance (x y z : num) (p : Point) : num :=
  Js.sqrt (Js.sq (x - px p) + Js.sq (y - py p) + Js.sq (z - pz p))%js.

(** [point.segId || 1] *)
Definition segId_or_1 (p : Point) : num :=
  match segId p with
  | None => Fin 1
  | Some s => or_else s (Fin 1)
  end.

Definition fault_point_step (c : FaultConsts) (x y z influenceRadius : num)
    (s : FaultScan) (p : Point) : FaultScan :=
  let distance := spatial_distance x y z p in
  if (distance <? influenceRadius)%js then
    let influence :=
      Js.exp (Js.neg distance / (influenceRadius * Fin (decay c)))%js in
    let total := (totalInfluence s + influence)%js in
    if (influence >? maxInfluence s)%js then
      {| totalInfluence := total;
         dominantFault := segId_or_1 p;
         maxInfluence := influence |}
    else
      {| totalInfluence := total;
         dominantFault := dominantFault s;
         maxInfluence := maxInfluence s |}
  else s.

Definition fault_scan (c : FaultConsts) (x y z influenceRadius : num)
    (fs : list DataSet) : FaultScan :=
  fold_left
    (fun s fault =>
       fold_left (fault_point_step c x y z influenceRadius) (ds_points fault) s)
    fs
    {| totalInfluence := Fin 0; dominantFault := Fin 0; maxInfluence := Fin 0 |}.

(** [u] is the value returned by the single call of [Math.random()]. *)
Definition calculateAdvancedFaultInfluence (c : FaultConsts)
    (x y z : num) (fs : list DataSet) (influenceRadius : num) (u : R)
  : FaultInfo :=
  let s := fault_scan c x y z influenceRadius fs in
  {| influence := Js.min (totalInfluence s) (Fin 1);
     fi_faultFlag :=
       if (maxInfluence s >? Fin (threshold c))%js then dominantFault s
       else Fin 0;
     displacement :=
       (totalInfluence s * Fin (throw c) * (Fin u - Fin (1 / 2)))%js |}.

Definition tool_fault_consts : FaultConsts :=
  {| decay := 25 / 100; threshold := 8 / 100; throw := 60;
     defaultRadius := 120 |}.

Definition utils_fault_consts : FaultConsts :=
  {| decay := 3 / 10; threshold := 1 / 10; throw := 50;
     defaultRadius := 100 |}.

(* ================================================================== *)
(** * Component state and effects *)
(* ================================================================== *)

(** One itemised mismatch of the compatibility checker.  The source
    renders each as a sentence (numbers through [toFixed(0)]); the model
    keeps the data the sentence is rendered from. *)
Inductive Detail : Type :=
| BoundsMismatch (gridName : string) (xDiff xTol yDiff yTol zDiff zTol : num)
| LayerVariation (maxLayerDiff : num)
| PointVariance (pointVariance : num).

(** The messages passed to [alert]. *)
Inductive Alert : Type :=
| NeedTwoHorizons
    (* 'Please provide at least two horizon surfaces (top and bottom)' *)
| GenerationFailed
    (* 'Grid generation failed. Please check your input data.' *)
| CannotCombine (reason : string) (details : list Detail)
| MergedOk (count : nat) (direction : Direction) (gridName : string)
    (cells : nat).

(** What a thrown value can be in the modelled code. *)
Inductive JsError : Type :=
| TypeError          (* property read on [undefined] *)
| RangeError         (* too many arguments in one call *)
| Error (message : string).

(** How a call ends: it returns, or it throws. *)
Inductive Completion (A : Type) : Type :=
| Returned (a : A)
| Thrown (e : JsError).
Arguments Returned {A} a.
Arguments Thrown {A} e.

Definition bind {A B : Type} (c : Completion A) (k : A -> Completion B)
  : Completion B :=
  match c with
  | Returned a => k a
  | Thrown e => Thrown e
  end.

(** ** Spread calls

    [f(...l)] passes one argument per element of [l].  An engine takes
    only so many arguments in one call; with more, the call throws a
    RangeError before [f] runs.  [limit] is the number the engine at
    hand accepts. *)
Definition spread {A : Type} (limit : N) (f : list num -> A) (l : list num)
  : Completion A :=
  if (limit <? N.of_nat (List.length l))%N then Thrown RangeError
  else Returned (f l).

(** The object literal
    [{ xMin: Math.min(...l.map(x)), xMax: Math.max(...l.map(x)), ... }],
    its six calls evaluated in order. *)
Definition spread_envelope {A : Type} (limit : N) (x y z : A -> num)
    (l : list A) : Completion Bounds :=
  bind (spread limit min_list (map x l)) (fun x0 =>
  bind (spread limit max_list (map x l)) (fun x1 =>
  bind (spread limit min_list (map y l)) (fun y0 =>
  bind (spread limit max_list (map y l)) (fun y1 =>
  bind (spread limit min_list (map z l)) (fun z0 =>
  bind (spread limit max_list (map z l)) (fun z1 =>
  Returned {| xMin := x0; xMax := x1; yMin := y0; yMax := y1;
              zMin := z0; zMax := z1 |})))))).

(** Every engine the component runs in takes at least this many
    arguments; how many more is a property of the engine, kept with the
    state the handlers run in. *)
Definition min_argument_limit : N := 65535.

Record AppState : Type := mkAppState {
  grids : list Grid;
  activeGridId : option nat;
  horizonData : list DataSet;
  faultData : list DataSet;
  numLayers : nat;
  isGenerating : bool;
  selectedGrids : list nat;       (* Array.from(selectedGrids) *)
  mergeDirection : Direction;
  seed : nat;                     (* draws of Math.random() so far *)
  alerts : list Alert;
  argumentHeadroom : N            (* arguments the engine takes beyond
                                     [min_argument_limit] *)
}.

Definition argument_limit (st : AppState) : N :=
  (min_argument_limit + argumentHeadroom st)%N.

Definition with_alert (a : Alert) (st : AppState) : AppState :=
  {| grids := grids st; activeGridId := activeGridId st;
     horizonData := horizonData st; faultData := faultData st;
     numLayers := numLayers st; isGenerating := isGenerating st;
     selectedGrids := selectedGrids st; mergeDirection := mergeDirection st;
     seed := seed st; alerts := alerts st ++ [a];
     argumentHeadroom := argumentHeadroom st |}.

(** [setGrids(prev => [...prev, g]); setActiveGridId(g.id)] *)
Definition register_grid (g : Grid) (st : AppState) : AppState :=
  {| grids := grids st ++ [g]; activeGridId := Some (id g);
     horizonData := horizonData st; faultData := faultData st;
     numLayers := numLayers st; isGenerating := isGenerating st;
     selectedGrids := selectedGrids st; mergeDirection := mergeDirection st;
     seed := seed st; alerts := alerts st;
     argumentHeadroom := argumentHeadroom st |}.

Definition with_seed (n : nat) (st : AppState) : AppState :=
  {| grids := grids st; activeGridId := activeGridId st;
     horizonData := horizonData st; faultData := faultData st;
     numLayers := numLayers st; isGenerating := isGenerating st;
     selectedGrids := selectedGrids st; mergeDirection := mergeDirection st;
     seed := n; alerts := alerts st;
     argumentHeadroom := argumentHeadroom st |}.

Definition with_generating (b : bool) (st : AppState) : AppState :=
  {| grids := grids st; activeGridId := activeGridId st;
     horizonData := horizonData st; faultData := faultData st;
     numLayers := numLayers st; isGenerating := b;
     selectedGrids := selectedGrids st; mergeDirection := mergeDirection st;
     seed := seed st; alerts := alerts st;
     argumentHeadroom := argumentHeadroom st |}.

Definition clear_selection (st : AppState) : AppState :=
  {| grids := grids st; activeGridId := activeGridId st;
     horizonData := horizonData st; faultData := faultData st;
     numLayers := numLayers st; isGenerating := isGenerating st;
     selectedGrids := []; mergeDirection := mergeDirection st;
     seed := seed st; alerts := alerts st;
     argumentHeadroom := argumentHeadroom st |}.

Definition decimal (n : nat) : string :=
  DecimalString.NilEmpty.string_of_uint (Nat.to_uint n).

(** [Math.round(v * 100) / 100] and its siblings. *)
Definition round_to (scale : R) (v : num) : num :=
  (Js.round (v * Fin scale) / Fin scale)%js.

(* ================================================================== *)
(** * Layer stack builder *)
(* ================================================================== *)

Section Build.
Variable rnd : nat -> R.

(** The mutable locals of one run: [grid], [totalVolume],
    [pointCount], and the position in the random stream.  The step
    counter only drives the progress [await] and is left out. *)
Record Acc : Type := mkAcc {
  acc_grid : list Cell;
  acc_totalVolume : num;
  acc_pointCount : nat;
  acc_seed : nat
}.

Section Sampling.
Variables (topHorizon bottomHorizon : list Point).
Variable faults_in : list DataSet.
Variable layers : nat.
Variable box : Bounds.
Variable gridSpacing : num.

(** Body of the [layerIdx] loop. *)
Definition layer_step (x y bottomZ thickness layerThickness : num)
    (acc : Acc) (layerIdx : nat) : Acc :=
  let layerRatio := (of_nat layerIdx / of_nat (layers + 1))%js in
  let z := (bottomZ + layerRatio * thickness)%js in
  let structuralDip :=
    (Js.sin (x * Fin (8 / 10000)) * Js.cos (y * Fin (6 / 10000))
     * Fin 12)%js in
  let z := (z + structuralDip * layerRatio)%js in
  let faultInfo :=
    calculateAdvancedFaultInfluence tool_fault_consts x y z faults_in
      (Fin (defaultRadius tool_fault_consts)) (rnd (acc_seed acc)) in
  let z := (z + displacement faultInfo)%js in
  let cellVolume := (gridSpacing * gridSpacing * layerThickness)%js in
  let porosity :=
    (Fin (12 / 100) + Fin (rnd (acc_seed acc + 1)) * Fin (18 / 100))%js in
  let permeability :=
    Js.pow10 (Fin (rnd (acc_seed acc + 2)) * Fin (35 / 10) - Fin (1 / 2))%js in
  let isWellLocation :=
    if (Fin (rnd (acc_seed acc + 3)) <? Fin (15 / 1000))%js
       && (z >? bottomZ + thickness * Fin (75 / 100))%js
    then 1%nat else 0%nat in
  {| acc_grid :=
       acc_grid acc ++
       [ {| cx := round_to 100 x;
            cy := round_to 100 y;
            cz := round_to 100 z;
            layer := layerIdx;
            bulkVolume := round_to 100 cellVolume;
            faultFlag := fi_faultFlag faultInfo;
            wellPath := isWellLocation;
            porosity := round_to 1000 porosity;
            permeability := round_to 100 permeability;
            structuralDip := round_to 10 structuralDip;
            merge_info := None |} ];
     acc_totalVolume := (acc_totalVolume acc + cellVolume)%js;
     acc_pointCount := S (acc_pointCount acc);
     acc_seed := (acc_seed acc + 4)%nat |}.

(** Body of the [y] loop: one sampling position. *)
Definition sample_position (x y : num) (acc : Acc) : Acc :=
  let topZ := Tool.geologicalInterpolation x y topHorizon in
  let bottomZ := Tool.geologicalInterpolation x y bottomHorizon in
  if (topZ <=? bottomZ)%js then acc
  else
    let thickness := (topZ - bottomZ)%js in
    let layerThickness := (thickness / of_nat (layers + 1))%js in
    fold_left (layer_step x y bottomZ thickness layerThickness)
      (seq 0 (layers + 2)) acc.

(** [for (let y = ...; y <= bounds.yMax; y += gridSpacing)]; [None]
    when the loop is still running after [fuel] tests. *)
Fixpoint loop_y (fuel : nat) (x y : num) (acc : Acc) : option Acc :=
  match fuel with
  | O => None
  | S fuel' =>
      if (y <=? yMax box)%js
      then loop_y fuel' x (y + gridSpacing)%js (sample_position x y acc)
      else Some acc
  end.

(** [for (let x = ...; x <= bounds.xMax; x += gridSpacing)] *)
Fixpoint loop_x (inner fuel : nat) (x : num) (acc : Acc) : option Acc :=
  match fuel with
  | O => None
  | S fuel' =>
      if (x <=? xMax box)%js
      then match loop_y inner x (yMin box) acc with
           | None => None
           | Some acc' => loop_x inner fuel' (x + gridSpacing)%js acc'
           end
      else Some acc
  end.
End Sampling.

(** The bounds object of a build, when none of its six spread calls
    throws. *)
Definition horizon_bounds (topHorizon bottomHorizon : list Point) : Bounds :=
  envelope px py pz (topHorizon ++ bottomHorizon).

Definition grid_spacing (b : Bounds) : num :=
  Js.min ((xMax b - xMin b) / Fin 45)%js ((yMax b - yMin b) / Fin 45)%js.

(** The [try] block of [generateGeologicalGrid] from the spacing on, the
    bounds object [b] being built: the sampling loops, the new grid and
    its registration.  [None]: the loops did not finish within [fuel]
    tests each. *)
Definition sample_and_register (now fuel : nat) (st : AppState)
    (topHorizon bottomHorizon : list Point) (b : Bounds)
  : option (Completion unit * AppState) :=
  let gridSpacing := grid_spacing b in
  match
    loop_x topHorizon bottomHorizon (faultData st) (numLayers st) b
      gridSpacing fuel fuel (xMin b)
      {| acc_grid := []; acc_totalVolume := Fin 0;
         acc_pointCount := 0; acc_seed := seed st |}
  with
  | None => None
  | Some acc =>
      let newGrid :=
        {| id := now;
           name := ("Grid_" ++ decimal (List.length (grids st) + 1))%string;
           points := acc_grid acc;
           totalVolume := Js.round (acc_totalVolume acc);
           layerCount := numLayers st + 2;
           pointCount := acc_pointCount acc;
           bounds := b;
           timestamp := now;
           horizons :=
             String.concat ", "%string (map ds_name (horizonData st));
           faults :=
             String.concat ", "%string (map ds_name (faultData st));
           isCombined := false;
           sourceGrids := [];
           mergeType := None;
           mergeStats := None |} in
      Some (Returned tt,
            with_generating false
              (with_seed (acc_seed acc) (register_grid newGrid st)))
  end.

(** [generateGeologicalGrid], started at time [now] in state [st].
    The bounds are built first, by six spread calls over the samples of
    both horizons; when one throws, the [catch] block alerts, nothing is
    stored, and [finally] clears the generating flag. *)
Definition generateGeologicalGrid (now fuel : nat) (st : AppState)
  : option (Completion unit * AppState) :=
  match horizonData st with
  | top :: bottom :: _ =>
      let topHorizon := ds_points top in
      let bottomHorizon := ds_points bottom in
      let allPoints := topHorizon ++ bottomHorizon in
      match spread_envelope (argument_limit st) px py pz allPoints with
      | Thrown _ =>
          Some (Returned tt,
                with_generating false (with_alert GenerationFailed st))
      | Returned b =>
          sample_and_register now fuel st topHorizon bottomHorizon b
      end
  | _ => Some (Returned tt, with_alert NeedTwoHorizons st)
  end.
End Build.

(* ================================================================== *)
(** * Grid compatibility checker *)
(* ================================================================== *)

Record CheckResult : Type := mkCheckResult {
  canCombine : bool;
  reason : string;
  details : list Detail;
  compatibilityScore : option num     (* absent on the early return *)
}.

(** [grids.find(g => g.id === id)] *)
Definition find_grid (gs : list Grid) (i : nat) : option Grid :=
  find (fun g => Nat.eqb (id g) i) gs.

Fixpoint all_defined {A : Type} (l : list (option A)) : option (list A) :=
  match l with
  | [] => Some []
  | None :: _ => None
  | Some a :: l' =>
      match all_defined l' with
      | None => None
      | Some r => Some (a :: r)
      end
  end.

Definition tolerancePercent : num := Fin (1 / 10).

(** Body of the loop over the grids after the first. *)
Definition bounds_step (firstBounds : Bounds)
    (acc : bool * list Detail) (g : Grid) : bool * list Detail :=
  let b := bounds g in
  let xTolerance := ((xMax firstBounds - xMin firstBounds) * tolerancePercent)%js in
  let yTolerance := ((yMax firstBounds - yMin firstBounds) * tolerancePercent)%js in
  let zTolerance := ((zMax firstBounds - zMin firstBounds) * tolerancePercent)%js in
  let xDiff := Js.max (Js.abs (xMin b - xMin firstBounds))
                      (Js.abs (xMax b - xMax firstBounds))%js in
  let yDiff := Js.max (Js.abs (yMin b - yMin firstBounds))
                      (Js.abs (yMax b - yMax firstBounds))%js in
  let zDiff := Js.max (Js.abs (zMin b - zMin firstBounds))
                      (Js.abs (zMax b - zMax firstBounds))%js in
  if (xDiff >? xTolerance)%js || (yDiff >? yTolerance)%js
     || (zDiff >? zTolerance)%js
  then (false,
        snd acc ++
        [BoundsMismatch (name g) xDiff xTolerance yDiff yTolerance
           zDiff zTolerance])
  else acc.

(** The two spread calls here take one argument per selected grid, far
    fewer than any engine's limit. *)
Definition max_layer_diff (data : list Grid) : num :=
  let layerCounts := map (fun g => of_nat (layerCount g)) data in
  (max_list layerCounts - min_list layerCounts)%js.

Definition point_variance (data : list Grid) : num :=
  let pointCounts := map (fun g => of_nat (pointCount g)) data in
  let avgPoints := (sum_list pointCounts / of_nat (List.length pointCounts))%js in
  (fold_left (fun sum p => sum + Js.abs (p - avgPoints) / avgPoints)%js
     pointCounts (Fin 0)
   / of_nat (List.length pointCounts))%js.

(** The checker on the grids the ids resolved to ([first] is
    [selectedGridData[0]]). *)
Definition check_grids (first : Grid) (rest : list Grid) : CheckResult :=
  let data := first :: rest in
  let '(boundsCompatible, details1) :=
    fold_left (bounds_step (bounds first)) rest (true, []) in
  let maxLayerDiff := max_layer_diff data in
  let details2 :=
    if (maxLayerDiff >? Fin 5)%js
    then details1 ++ [LayerVariation maxLayerDiff] else details1 in
  let pointVariance := point_variance data in
  let details3 :=
    if (pointVariance >? Fin (3 / 10))%js
    then details2 ++ [PointVariance pointVariance] else details2 in
  let ok :=
    boundsCompatible && (maxLayerDiff <=? Fin 5)%js
    && (pointVariance <=? Fin (3 / 10))%js in
  {| canCombine := ok;
     reason := if ok then "Compatible grids"%string
               else "Incompatible grids - see details"%string;
     details := details3;
     compatibilityScore :=
       Some (Js.round (Fin 100 - of_nat (List.length details3) * Fin 20)%js) |}.

(** [canCombineGrids(gridIds)] against the grid collection [gs].  An id
    that resolves to no grid leaves [undefined] in [selectedGridData],
    and reading [.bounds] or [.layerCount] of it throws. *)
Definition canCombineGrids (gs : list Grid) (gridIds : list nat)
  : Completion CheckResult :=
  if (List.length gridIds <? 2)%nat then
    Returned {| canCombine := false;
                reason := "Need at least 2 grids"%string;
                details := [];
                compatibilityScore := None |}
  else
    match all_defined (map (find_grid gs) gridIds) with
    | Some (first :: rest) => Returned (check_grids first rest)
    | _ => Thrown TypeError
    end.

(* ================================================================== *)
(** * Grid merge engine *)
(* ================================================================== *)

Record Offset : Type := mkOffset { off_x : num; off_y : num; off_z : num }.

Definition separation : num := Fin 50.

Definition calculateOffset (dir : Direction) (index : nat)
    (allBounds : list Bounds) : Offset :=
  match dir with
  | Vertical =>
      {| off_x := Fin 0; off_y := Fin 0;
         off_z := (of_nat index * separation)%js |}
  | Horizontal =>
      {| off_x :=
           fold_left (fun xOffset prevBounds =>
                        xOffset + (xMax prevBounds - xMin prevBounds))%js
             (firstn index allBounds) (Fin 0);
         off_y := Fin 0; off_z := Fin 0 |}
  end.

(** [{ ...point, x: ..., originalGrid: ..., ... }] *)
Definition blend (g : Grid) (index : nat) (offset : Offset) (point : Cell)
  : Cell :=
  {| cx := (cx point + off_x offset)%js;
     cy := (cy point + off_y offset)%js;
     cz := (cz point + off_z offset)%js;
     layer := layer point;
     bulkVolume := bulkVolume point;
     faultFlag := faultFlag point;
     wellPath := wellPath point;
     porosity := porosity point;
     permeability := permeability point;
     structuralDip := structuralDip point;
     merge_info :=
       Some {| originalGrid := name g;
               combinedLayer := layer point + index * (layerCount g + 1);
               gridIndex := index;
               sourceHue := (index * 120 + layer point * 30) mod 360;
               combinedPorosity :=
                 (porosity point * (Fin 1 + of_nat index * Fin (1 / 10)))%js;
               combinedPermeability :=
                 (permeability point
                  * (Fin 1 + of_nat index * Fin (15 / 100)))%js;
               mergeWeight := (Fin 1 / of_nat (index + 1))%js |} |}.

(** The cells one source grid contributes. *)
Definition blended_cells (dir : Direction) (allBounds : list Bounds)
    (ig : nat * Grid) : list Cell :=
  let '(index, g) := ig in
  map (blend g index (calculateOffset dir index allBounds)) (points g).

Definition indexed {A : Type} (l : list A) : list (nat * A) :=
  combine (seq 0 (List.length l)) l.

Fixpoint split_on (sep : ascii) (s : string) : list string :=
  match s with
  | EmptyString => [EmptyString]
  | String c s' =>
      if Ascii.eqb c sep then EmptyString :: split_on sep s'
      else match split_on sep s' with
           | [] => [String c EmptyString]
           | h :: t => String c h :: t
           end
  end.

(** [g.name.split('_')[1] || g.name] *)
Definition short_name (g : Grid) : string :=
  match split_on "_"%char (name g) with
  | _ :: EmptyString :: _ => name g
  | _ :: part :: _ => part
  | _ => name g
  end.

Definition mean_of (f : Cell -> num) (l : list Cell) : num :=
  (fold_left (fun sum p => sum + or_else (f p) (Fin 0))%js l (Fin 0)
   / of_nat (List.length l))%js.

Definition fraction_of (f : Cell -> bool) (l : list Cell) : num :=
  (of_nat (List.length (filter f l)) / of_nat (List.length l))%js.

(** The grid [combineGrids] builds from the resolved source grids.  Its
    [bounds] are what the six spread calls over the merged cells return;
    [combineGrids] gets to this object only when none of them throws. *)
Definition merged_grid (now : nat) (dir : Direction) (data : list Grid) : Grid :=
  let allGridBounds := map bounds data in
  let combined := flat_map (blended_cells dir allGridBounds) (indexed data) in
  let combinedPoints :=
    match dir with
    | Vertical => sort_by cz combined
    | Horizontal => sort_by cx combined
    end in
  let directionLabel :=
    match dir with Vertical => "V"%string | Horizontal => "H"%string end in
  {| id := now;
     name :=
       (directionLabel ++ "-Merged_"
        ++ String.concat "+" (map short_name data))%string;
     points := combinedPoints;
     totalVolume := fold_left (fun t g => t + totalVolume g)%js data (Fin 0);
     layerCount := list_max (map layerCount data) * List.length data;
     pointCount := fold_left (fun n g => n + pointCount g)%nat data 0%nat;
     bounds := envelope cx cy cz combinedPoints;
     timestamp := now;
     horizons := EmptyString;           (* not set on a merged grid *)
     faults := EmptyString;
     isCombined := true;
     sourceGrids := map name data;
     mergeType := Some dir;
     mergeStats :=
       Some {| avgPorosity := mean_of porosity combinedPoints;
               avgPermeability := mean_of permeability combinedPoints;
               faultDensity :=
                 fraction_of (fun p => (faultFlag p >? Fin 0)%js) combinedPoints;
               wellDensity :=
                 fraction_of (fun p => (0 <? wellPath p)%nat) combinedPoints |} |}.

(** [combineGrids], called at time [now]. *)
Definition combineGrids (now : nat) (st : AppState)
  : Completion unit * AppState :=
  let gridIds := selectedGrids st in
  match canCombineGrids (grids st) gridIds with
  | Thrown e => (Thrown e, st)
  | Returned compatibility =>
      if negb (canCombine compatibility) then
        (Returned tt,
         with_alert (CannotCombine (reason compatibility)
                       (details compatibility)) st)
      else
        match all_defined (map (find_grid (grids st)) gridIds) with
        | None => (Thrown TypeError, st)
        | Some data =>
            let combinedGrid := merged_grid now (mergeDirection st) data in
            (* the six spread calls over the merged cells, outside
               any [try] *)
            match
              spread_envelope (argument_limit st) cx cy cz
                (points combinedGrid)
            with
            | Thrown e => (Thrown e, st)
            | Returned _ =>
                (Returned tt,
                 with_alert
                   (MergedOk (List.length data) (mergeDirection st)
                      (name combinedGrid) (pointCount combinedGrid))
                   (clear_selection (register_grid combinedGrid st)))
            end
        end
  end.

(* ================================================================== *)
(** * Vocabulary of the properties *)
(* ================================================================== *)

(** No trace point of any fault system is strictly within the radius. *)
Definition out_of_range (x y z radius : num) (fs : list DataSet) : Prop :=
  forall f, In f fs ->
  forall p, In p (ds_points f) ->
    (spatial_distance x y z p <? radius)%js = false.

(** The sum of a list of numbers. *)
Definition total (l : list num) : num := fold_right Js.add (Fin 0) l.

(** How many arguments the spread calls of a build take: the samples of
    the two horizons it reads. *)
Definition horizon_samples (st : AppState) : N :=
  match horizonData st with
  | top :: bottom :: _ =>
      N.of_nat (List.length (ds_points top ++ ds_points bottom))
  | _ => 0%N
  end.

(** How many arguments the spread calls of a merge take: the cells of
    the selected grids. *)
Definition selected_cells (st : AppState) : N :=
  N.of_nat
    (list_sum
       (map (fun i => match find_grid (grids st) i with
                      | Some g => List.length (points g)
                      | None => 0%nat
                      end)
          (selectedGrids st))).

(** ** Sample inputs *)

Definition sample_cell (x y z : R) (l : nat) : Cell :=
  {| cx := Fin x; cy := Fin y; cz := Fin z; layer := l;
     bulkVolume := Fin 1; faultFlag := Fin 0; wellPath := 0;
     porosity := Fin (2 / 10); permeability := Fin 10;
     structuralDip := Fin 0; merge_info := None |}.

Definition sample_grid (i : nat) (nm : string) (cells : list Cell)
    (x0 x1 : R) : Grid :=
  {| id := i; name := nm; points := cells;
     totalVolume := Fin 2; layerCount := 2; pointCount := List.length cells;
     bounds := {| xMin := Fin x0; xMax := Fin x1;
                  yMin := Fin 0; yMax := Fin 100;
                  zMin := Fin 0; zMax := Fin 100 |};
     timestamp := i; horizons := "Top, Base"; faults := "";
     isCombined := false; sourceGrids := []; mergeType := None;
     mergeStats := None |}.

(** Grid A spans x from 0 to 1000, grid B from 50 to 1050. *)
Definition gridA : Grid :=
  sample_grid 1 "Grid_1"
    [sample_cell 0 0 0 0; sample_cell 1000 100 100 1] 0 1000.

Definition gridB : Grid :=
  sample_grid 2 "Grid_2"
    [sample_cell 50 0 0 0; sample_cell 1050 100 100 1] 50 1050.

Definition state_of (gs : list Grid) (sel : list nat) (dir : Direction)
  : AppState :=
  {| grids := gs; activeGridId := None; horizonData := []; faultData := [];
     numLayers := 5; isGenerating := false; selectedGrids := sel;
     mergeDirection := dir; seed := 0; alerts := [];
     argumentHeadroom := 0 |}.

(** A grid far to the east of A, with [layers] layers and [count] cells
    counted. *)
Definition far_grid (i layers count : nat) : Grid :=
  {| id := i; name := "Far"; points := [];
     totalVolume := Fin 2; layerCount := layers; pointCount := count;
     bounds := {| xMin := Fin 5000; xMax := Fin 6000;
                  yMin := Fin 0; yMax := Fin 100;
                  zMin := Fin 0; zMax := Fin 100 |};
     timestamp := i; horizons := "Top, Base"; faults := "";
     isCombined := false; sourceGrids := []; mergeType := None;
     mergeStats := None |}.

(** A state with a single loaded horizon and one registered grid. *)
Definition one_horizon_state : AppState :=
  {| grids := [gridA]; activeGridId := Some 1%nat;
     horizonData :=
       [ {| ds_name := "Top";
            ds_points := [mkPoint (Fin 0) (Fin 0) (Fin 1000) None] |} ];
     faultData := []; numLayers := 5; isGenerating := false;
     selectedGrids := []; mergeDirection := Vertical; seed := 0;
     alerts := []; argumentHeadroom := 0 |}.

(** A constant stream for [Math.random]. *)
Definition half_stream : nat -> R := fun _ => 1 / 2.

(** The Clone button: [{ ...activeGrid, id: Date.now().toString(),
    name: `${activeGrid.name}_Copy` }]. *)
Definition clone_grid (now : nat) (g : Grid) : Grid :=
  {| id := now; name := (name g ++ "_Copy")%string; points := points g;
     totalVolume := totalVolume g; layerCount := layerCount g;
     pointCount := pointCount g; bounds := bounds g;
     timestamp := timestamp g; horizons := horizons g; faults := faults g;
     isCombined := isCombined g; sourceGrids := sourceGrids g;
     mergeType := mergeType g; mergeStats := mergeStats g |}.

(** Both ends of an axis are finite and in order. *)
Definition finite_ordered (lo hi : num) : Prop :=
  match lo, hi with
  | Fin a, Fin b => a <= b
  | _, _ => False
  end.

Definition well_formed_bounds (b : Bounds) : Prop :=
  finite_ordered (xMin b) (xMax b) /\
  finite_ordered (yMin b) (yMax b) /\
  finite_ordered (zMin b) (zMax b).

(** Two boxes have the same extent on every axis. *)
Definition same_extents (a b : Bounds) : Prop :=
  (xMax a - xMin a)%js = (xMax b - xMin b)%js /\
  (yMax a - yMin a)%js = (yMax b - yMin b)%js /\
  (zMax a - zMin a)%js = (zMax b - zMin b)%js.

(** Grid C spans x from 0 to 905; grid E is what a build leaves when
    every sampling position is skipped. *)
Definition gridC : Grid :=
  sample_grid 3 "Grid_3"
    [sample_cell 0 0 0 0; sample_cell 905 100 100 1] 0 905.

Definition gridE : Grid := sample_grid 4 "Grid_4" [] 0 1000.

(** Two samples of a horizon: one at the origin, one two units east. *)
Definition near_point : Point := mkPoint (Fin 0) (Fin 0) (Fin 10) None.
Definition east_point : Point := mkPoint (Fin 2) (Fin 0) (Fin 20) None.

(** Width of a box, and the merged cells that came from grid [i]. *)
Definition width (b : Bounds) : num := (xMax b - xMin b)%js.

Definition from_grid (i : nat) (c : Cell) : bool :=
  match merge_info c with
  | Some m => Nat.eqb (gridIndex m) i
  | None => false
  end.

(** ** The sampling lattice *)

(** The values a loop counter [for (v = start; v <= stop; v += step)]
    takes; [None] when the loop is still running after [fuel] tests. *)
Fixpoint counter_values (fuel : nat) (v step stop : num) : option (list num) :=
  match fuel with
  | O => None
  | S fuel' =>
      if (v <=? stop)%js
      then option_map (cons v) (counter_values fuel' (v + step)%js step stop)
      else Some []
  end.

(** The sampling loop body applied along a list of positions. *)
Definition run_positions (rnd : nat -> R) (topHorizon bottomHorizon : list Point)
    (fs : list DataSet) (layers : nat) (gridSpacing : num)
    (ps : list (num * num)) (acc : Acc) : Acc :=
  fold_left
    (fun a p =>
       sample_position rnd topHorizon bottomHorizon fs layers gridSpacing
         (fst p) (snd p) a)
    ps acc.

(** The position is kept by the builder: its top is above its base. *)
Definition retained (topHorizon bottomHorizon : list Point) (p : num * num)
  : bool :=
  negb (Tool.geologicalInterpolation (fst p) (snd p) topHorizon
        <=? Tool.geologicalInterpolation (fst p) (snd p) bottomHorizon)%js.

(** Strict equality of numbers, and the cells stored at (0, 0). *)
Definition num_eqb (a b : num) : bool :=
  match a, b with
  | Fin x, Fin y => Reqb x y
  | PInf, PInf | NInf, NInf => true
  | _, _ => false
  end.

Definition at_origin (c : Cell) : bool :=
  num_eqb (cx c) (Fin 0) && num_eqb (cy c) (Fin 0).

(** ** Envelopes *)

Definition is_min (m : num) (l : list num) : Prop :=
  In m l /\ forall v, In v l -> (m <=? v)%js = true.

Definition is_max (m : num) (l : list num) : Prop :=
  In m l /\ forall v, In v l -> (v <=? m)%js = true.

(** [b] is the axis-aligned envelope of the items of [l]: on each axis
    its two ends are the least and the greatest coordinate that occur. *)
Definition is_envelope {A : Type} (x y z : A -> num) (b : Bounds)
    (l : list A) : Prop :=
  is_min (xMin b) (map x l) /\ is_max (xMax b) (map x l) /\
  is_min (yMin b) (map y l) /\ is_max (yMax b) (map y l) /\
  is_min (zMin b) (map z l) /\ is_max (zMax b) (map z l).

Definition finite_point (p : Point) : Prop :=
  finite (px p) /\ finite (py p) /\ finite (pz p).

Definition finite_cell (c : Cell) : Prop :=
  finite (cx c) /\ finite (cy c) /\ finite (cz c).

(** ** The flat slab and a horizon pair off the lattice *)

(** A flat horizon at elevation [z] on a 10 x 10 lattice of spacing 100. *)
Definition flat_horizon (z : R) : list Point :=
  flat_map
    (fun i =>
       map (fun j => mkPoint (Fin (100 * INR i)) (Fin (100 * INR j)) (Fin z) None)
         (seq 0 10))
    (seq 0 10).

Definition build_state (top bottom : list Point) (layers : nat) : AppState :=
  {| grids := []; activeGridId := None;
     horizonData := [ {| ds_name := "Top"; ds_points := top |};
                      {| ds_name := "Base"; ds_points := bottom |} ];
     faultData := []; numLayers := layers; isGenerating := false;
     selectedGrids := []; mergeDirection := Vertical; seed := 0;
     alerts := []; argumentHeadroom := 0 |}.

Definition slab_state : AppState :=
  build_state (flat_horizon 1000) (flat_horizon 900) 3.

(** Two flat horizons sampled at (0, 0) and (45.5, 45). *)
Definition offgrid_horizon (z : R) : list Point :=
  [ mkPoint (Fin 0) (Fin 0) (Fin z) None;
    mkPoint (Fin (455 / 10)) (Fin 45) (Fin z) None ].

Definition offgrid_state : AppState :=
  build_state (offgrid_horizon 1000) (offgrid_horizon 900) 3.

(** A horizon pair whose base lies above its top at the origin. *)
Definition inverted_top : list Point :=
  [ mkPoint (Fin 0) (Fin 0) (Fin 900) None ].
Definition inverted_base : list Point :=
  [ mkPoint (Fin 0) (Fin 0) (Fin 1000) None ].


(** ** Grid list handlers of the component *)

Definition set_grids (gs : list Grid) (active : option nat) (st : AppState)
  : AppState :=
  {| grids := gs; activeGridId := active;
     horizonData := horizonData st; faultData := faultData st;
     numLayers := numLayers st; isGenerating := isGenerating st;
     selectedGrids := selectedGrids st; mergeDirection := mergeDirection st;
     seed := seed st; alerts := alerts st;
     argumentHeadroom := argumentHeadroom st |}.

(** The Delete button of a grid row:
    [setGrids(prev => prev.filter(g => g.id !== grid.id));
     if (activeGridId === grid.id) setActiveGridId(null)]. *)
Definition deleteGrid (i : nat) (st : AppState) : AppState :=
  set_grids (filter (fun g => negb (Nat.eqb (id g) i)) (grids st))
    (match activeGridId st with
     | Some a => if Nat.eqb a i then None else Some a
     | None => None
     end)
    st.

(** [activeGrid = grids.find(g => g.id === activeGridId)] and the Clone
    button, which is shown only while there is an active grid. *)
Definition activeGrid (st : AppState) : option Grid :=
  match activeGridId st with
  | Some a => find_grid (grids st) a
  | None => None
  end.

Definition cloneActiveGrid (now : nat) (st : AppState) : AppState :=
  match activeGrid st with
  | Some g => set_grids (grids st ++ [clone_grid now g]) (activeGridId st) st
  | None => st
  end.

(** A grid counts as many points as it holds cells. *)
Definition consistent (g : Grid) : Prop :=
  pointCount g = List.length (points g).
(** The coordinate a merge sorts its cells by. *)
Definition merge_axis (dir : Direction) : Cell -> num :=
  match dir with
  | Vertical => cz
  | Horizontal => cx
  end.

(** Ascending order of a list under a numeric key. *)
Definition ascending {A : Type} (key : A -> num) (l : list A) : Prop :=
  StronglySorted (fun a b => (key a <=? key b)%js = true) l.

(** All trace points of a list of fault systems. *)
Definition trace_points (fs : list DataSet) : list Point :=
  flat_map ds_points fs.

(** What holds of the accumulators of the fault scan after [n] trace
    points, all of them satisfying [Q]. *)
Definition scan_ok (Q : Point -> Prop) (x y z radius : num) (n : nat)
    (s : FaultScan) : Prop :=
  exists t m : R,
    totalInfluence s = Fin t /\ maxInfluence s = Fin m /\
    0 <= m <= 1 /\ 0 <= t <= INR n /\
    (dominantFault s = Fin 0 \/
     exists p, Q p /\ (spatial_distance x y z p <? radius)%js = true /\
               dominantFault s = segId_or_1 p).

(** The layer indices of [k] complete columns of a build with [layers]
    inner layers: 0, 1, ..., layers + 1, [k] times over. *)
Definition column_layers (layers k : nat) : list nat :=
  List.concat (repeat (seq 0 (layers + 2)) k).

(** Every draw of the random stream lies in [0, 1), as [Math.random]
    promises. *)
Definition unit_stream (rnd : nat -> R) : Prop :=
  forall n, 0 <= rnd n < 1.

(** The horizons of a state: present, non-empty, with finite samples. *)
Definition finite_horizons (top bottom : DataSet) : Prop :=
  ds_points top ++ ds_points bottom <> [] /\
  forall p, In p (ds_points top ++ ds_points bottom) -> finite_point p.

(** Two horizons sampled along one north-south line: every sample has
    the same x. *)
Definition line_horizon (z : R) : list Point :=
  [ mkPoint (Fin 0) (Fin 0) (Fin z) None;
    mkPoint (Fin 0) (Fin 100) (Fin z) None ].

Definition line_state : AppState :=
  build_state (line_horizon 1000) (line_horizon 900) 3.


(** ** The grid store and the handlers that change it *)

(** Clicking a grid row: [onClick={() => setActiveGridId(grid.id)}]. *)
Definition selectGrid (g : Grid) (st : AppState) : AppState :=
  set_grids (grids st) (Some (id g)) st.

(** One user action on the component, as far as the grid list and the
    active id go.  Rows, and so the row buttons, exist only for stored
    grids.  [step_other] stands for the handlers that touch neither
    (uploads, selection boxes, sliders, view settings). *)
Inductive handler_step : AppState -> AppState -> Prop :=
| step_generate (rnd : nat -> R) (now fuel : nat) (st st' : AppState)
    (c : Completion unit) :
    generateGeologicalGrid rnd now fuel st = Some (c, st') ->
    handler_step st st'
| step_combine (now : nat) (st : AppState) :
    handler_step st (snd (combineGrids now st))
| step_clone (now : nat) (st : AppState) :
    handler_step st (cloneActiveGrid now st)
| step_delete (g : Grid) (st : AppState) :
    In g (grids st) -> handler_step st (deleteGrid (id g) st)
| step_select (g : Grid) (st : AppState) :
    In g (grids st) -> handler_step st (selectGrid g st)
| step_other (st st' : AppState) :
    grids st' = grids st -> activeGridId st' = activeGridId st ->
    handler_step st st'.

(** The states the component can be in: it starts with no grid and no
    active id. *)
Inductive reachable : AppState -> Prop :=
| reach_start (st : AppState) :
    grids st = [] -> activeGridId st = None -> reachable st
| reach_step (st st' : AppState) :
    reachable st -> handler_step st st' -> reachable st'.

(** Every stored grid counts its cells, and the active id, when set,
    names a stored grid. *)
Definition store_ok (st : AppState) : Prop :=
  Forall consistent (grids st) /\
  forall a, activeGridId st = Some a -> find_grid (grids st) a <> None.


(** The bounds of an empty point set: each [Math.min()] is [Infinity]
    and each [Math.max()] is [-Infinity]. *)
Definition empty_bounds : Bounds :=
  {| xMin := PInf; xMax := NInf; yMin := PInf; yMax := NInf;
     zMin := PInf; zMax := NInf |}.

(** Two horizons were uploaded, both without any sample. *)
Definition empty_horizons_state : AppState :=
  build_state [] [] 3.


(* ------------------------------------------------------------------ *)
(** ** Geological utilities: bounds and validation *)

(** [calculateBounds(points)] in an engine that takes [limit] arguments
    in a call: [null] on an empty array, else the bounds object built by
    six spread calls. *)
Definition calculateBounds (limit : N) (points : list Point)
  : Completion (option Bounds) :=
  match points with
  | [] => Returned None
  | _ => bind (spread_envelope limit px py pz points)
              (fun b => Returned (Some b))
  end.

(** What a property of an uploaded point can hold: a number, or anything
    else ([undefined], a string, ...). *)
Inductive Value : Type :=
| Number (v : num)
| NotNumber.

Record RawPoint : Type := mkRawPoint {
  raw_x : Value;
  raw_y : Value;
  raw_z : Value;
  raw_segId : option Value       (* [None]: [undefined] *)
}.

Inductive Axis : Type := AxisX | AxisY | AxisZ.

(** The messages of the validator; the source renders them as
    sentences with the one-based point number. *)
Inductive ValidationError : Type :=
| NoDataProvided
| InvalidCoordinate (pointNo : nat) (axis : Axis).

Inductive ValidationWarning : Type :=
| MissingSegmentId (pointNo : nat)
| SmallDataset.

Record Validation : Type := mkValidation {
  isValid : bool;
  errors : list ValidationError;
  warnings : list ValidationWarning
}.

(** [typeof v !== 'number' || isNaN(v)] *)
Definition not_a_number (v : Value) : bool :=
  match v with
  | Number NaN => true
  | Number _ => false
  | NotNumber => true
  end.

(** Body of [data.forEach((point, index) => ...)]. *)
Definition validate_point (type : string)
    (acc : list ValidationError * list ValidationWarning)
    (ip : nat * RawPoint)
  : list ValidationError * list ValidationWarning :=
  let '(index, point) := ip in
  let '(errors, warnings) := acc in
  let errors :=
    if not_a_number (raw_x point)
    then errors ++ [InvalidCoordinate (index + 1) AxisX] else errors in
  let errors :=
    if not_a_number (raw_y point)
    then errors ++ [InvalidCoordinate (index + 1) AxisY] else errors in
  let errors :=
    if not_a_number (raw_z point)
    then errors ++ [InvalidCoordinate (index + 1) AxisZ] else errors in
  let warnings :=
    if String.eqb type "fault"
       && match raw_segId point with None => true | Some _ => false end
    then warnings ++ [MissingSegmentId (index + 1)] else warnings in
  (errors, warnings).

(** [validateGeologicalData(data, type)] on an array [data]. *)
Definition validateGeologicalData (data : list RawPoint) (type : string)
  : Validation :=
  match data with
  | [] => {| isValid := false; errors := [NoDataProvided]; warnings := [] |}
  | _ =>
      let '(errors, warnings) :=
        fold_left (validate_point type) (indexed data) ([], []) in
      let warnings :=
        if (List.length data <? 10)%nat then warnings ++ [SmallDataset]
        else warnings in
      {| isValid := Nat.eqb (List.length errors) 0;
         errors := errors; warnings := warnings |}
  end.

(** A coordinate the validator lets through: a number other than [NaN]. *)
Definition proper_number (v : Value) : Prop :=
  exists n : num, v = Number n /\ n <> NaN.

Definition proper_point (p : RawPoint) : Prop :=
  proper_number (raw_x p) /\ proper_number (raw_y p) /\ proper_number (raw_z p).

(** How many coordinates of a point the validator objects to. *)
Definition bad_coordinates (p : RawPoint) : nat :=
  (if not_a_number (raw_x p) then 1 else 0)
  + (if not_a_number (raw_y p) then 1 else 0)
  + (if not_a_number (raw_z p) then 1 else 0).

(** Ten points with an infinite elevation. *)
Definition unbounded_points : list RawPoint :=
  repeat (mkRawPoint (Number (Fin 0)) (Number (Fin 0)) (Number PInf) None) 10.


(* ------------------------------------------------------------------ *)
(** ** DataUploader: what happens to the parsed points *)

Inductive Toast : Type :=
| ToastInvalidData (dataType : string) (errs : list ValidationError)
| ToastWarning (w : ValidationWarning)
| ToastNoValidPoints
| ToastUploaded (dataType name : string) (count : nat)
| ToastParseError.

Inductive StoreAction : Type :=
| AddHorizon (name : string) (points : list RawPoint)
| AddFault (name : string) (points : list RawPoint).

(** The rest of [reader.onload] once [parseCSVData] has returned
    [points] and the dataset name has been taken from the file name:
    the toasts shown, in order, and the store action, if any.  The colour
    and upload time of the stored record are left out.
    [warningThrows] says whether the toast object lacks a [warning]
    entry; calling it then throws inside the [try], and [catch] reports a
    parse error. *)
Definition onPointsParsed (warningThrows : bool) (name : string)
    (points : list RawPoint) (dataType : string)
  : list Toast * option StoreAction :=
  let validation := validateGeologicalData points dataType in
  if negb (isValid validation) then
    ([ToastInvalidData dataType (errors validation)], None)
  else
    match warnings validation with
    | _ :: _ =>
        if warningThrows then ([ToastParseError], None)
        else
          let shown := map ToastWarning (warnings validation) in
          if (List.length points =? 0)%nat then
            (shown ++ [ToastNoValidPoints], None)
          else if String.eqb dataType "horizon" then
            (shown ++ [ToastUploaded "horizon" name (List.length points)],
             Some (AddHorizon name points))
          else if String.eqb dataType "fault" then
            (shown ++ [ToastUploaded "fault" name (List.length points)],
             Some (AddFault name points))
          else (shown, None)
    | [] =>
        if (List.length points =? 0)%nat then ([ToastNoValidPoints], None)
        else if String.eqb dataType "horizon" then
          ([ToastUploaded "horizon" name (List.length points)],
           Some (AddHorizon name points))
        else if String.eqb dataType "fault" then
          ([ToastUploaded "fault" name (List.length points)],
           Some (AddFault name points))
        else ([], None)
    end.


(* ------------------------------------------------------------------ *)
(** ** Sample data of the component *)

Definition with_horizons (hs : list DataSet) (n : nat) (st : AppState)
  : AppState :=
  {| grids := grids st; activeGridId := activeGridId st;
     horizonData := hs; faultData := faultData st;
     numLayers := numLayers st; isGenerating := isGenerating st;
     selectedGrids := selectedGrids st; mergeDirection := mergeDirection st;
     seed := n; alerts := alerts st;
     argumentHeadroom := argumentHeadroom st |}.

(** Body of the inner loop of [generateRealisticHorizons]: one sample of
    each horizon, two draws of [Math.random]. *)
Definition horizon_sample (rnd : nat -> R)
    (acc : list Point * list Point * nat) (x y : nat)
  : list Point * list Point * nat :=
  let '(topHorizon, bottomHorizon, s) := acc in
  let realX := (of_nat x * Fin 40)%js in
  let realY := (of_nat y * Fin 40)%js in
  let topZ :=
    (Fin 2000
     + Js.sin (of_nat x * Fin (15 / 100)) * Fin 180
     + Js.cos (of_nat y * Fin (12 / 100)) * Fin 120
     + Js.sin (of_nat x * Fin (8 / 100)) * Js.cos (of_nat y * Fin (6 / 100))
       * Fin 100
     + (Fin (rnd s) - Fin (1 / 2)) * Fin 25)%js in
  let bottomZ :=
    (topZ - Fin 500
     - Js.sin (of_nat x * Fin (2 / 10)) * Fin 150
     - Js.cos (of_nat y * Fin (16 / 100)) * Fin 90
     + (Fin (rnd (s + 1)%nat) - Fin (1 / 2)) * Fin 35)%js in
  (topHorizon ++ [mkPoint realX realY topZ None],
   bottomHorizon ++ [mkPoint realX realY bottomZ None],
   (s + 2)%nat).

(** [generateRealisticHorizons]: both counters run over 0 .. 25. *)
Definition generateRealisticHorizons (rnd : nat -> R) (st : AppState)
  : AppState :=
  let '(topHorizon, bottomHorizon, s) :=
    fold_left
      (fun acc x =>
         fold_left (fun acc y => horizon_sample rnd acc x y) (seq 0 26) acc)
      (seq 0 26) ([], [], seed st) in
  with_horizons
    [ {| ds_name := "Top Formation"; ds_points := topHorizon |};
      {| ds_name := "Base Formation"; ds_points := bottomHorizon |} ]
    s st.

(** The 26 x 26 lattice of spacing 40, in the order of the two loops. *)
Definition sample_lattice : list (num * num) :=
  map (fun xy => (Fin (INR (fst xy) * 40), Fin (INR (snd xy) * 40)))
    (list_prod (seq 0 26) (seq 0 26)).

Definition planar (p : Point) : num * num := (px p, py p).

(** A top sample and the base sample below it: the same position, the
    top between 1587.5 and 2412.5, the base 242.5 to 757.5 lower. *)
Definition stacked (p q : Point) : Prop :=
  planar q = planar p /\
  exists tz bz : R,
    pz p = Fin tz /\ pz q = Fin bz /\
    15875 / 10 <= tz <= 24125 / 10 /\
    2425 / 10 <= tz - bz <= 7575 / 10.


(* ================================================================== *)
(** * Facts about numbers *)
(* ================================================================== *)

Lemma Rltb_true (a b : R) : a < b -> Rltb a b = true.
Proof. intros H. unfold Rltb. destruct (Rlt_dec a b); [reflexivity | contradiction]. Qed.

Lemma Rltb_false (a b : R) : b <= a -> Rltb a b = false.
Proof. intros H. unfold Rltb. destruct (Rlt_dec a b); [lra | reflexivity]. Qed.

Lemma Rleb_true (a b : R) : a <= b -> Rleb a b = true.
Proof. intros H. unfold Rleb. destruct (Rle_dec a b); [reflexivity | contradiction]. Qed.

Lemma Rleb_false (a b : R) : b < a -> Rleb a b = false.
Proof. intros H. unfold Rleb. destruct (Rle_dec a b); [lra | reflexivity]. Qed.

Lemma Reqb_true (a b : R) : a = b -> Reqb a b = true.
Proof. intros H. unfold Reqb. destruct (Req_dec_T a b); [reflexivity | contradiction]. Qed.

Lemma Reqb_false (a b : R) : a <> b -> Reqb a b = false.
Proof. intros H. unfold Reqb. destruct (Req_dec_T a b); [contradiction | reflexivity]. Qed.

Lemma Rltb_spec (a b : R) : Rltb a b = true <-> a < b.
Proof. unfold Rltb. destruct (Rlt_dec a b); split; intros; try easy. Qed.

Lemma Rleb_spec (a b : R) : Rleb a b = true <-> a <= b.
Proof. unfold Rleb. destruct (Rle_dec a b); split; intros; try easy. Qed.

(** [Math.round] on an integer, and its monotonicity. *)
Lemma Rround_IZR (k : Z) : Rround (IZR k) = IZR k.
Proof.
  unfold Rround. f_equal. apply Zfloor_eq. lra.
Qed.

Lemma Rround_le (a b : R) : a <= b -> Rround a <= Rround b.
Proof.
  intros H. unfold Rround. apply IZR_le.
  apply Zfloor_lub.
  pose proof (Zfloor_bound (a + / 2)) as [H1 _]. lra.
Qed.

(* ================================================================== *)
(** * Fault influence: no trace point in range *)
(* ================================================================== *)

Lemma fault_points_out_of_range c x y z radius (ps : list Point) (s : FaultScan) :
  (forall p, In p ps -> (spatial_distance x y z p <? radius)%js = false) ->
  fold_left (fault_point_step c x y z radius) ps s = s.
Proof.
  revert s. induction ps as [| p ps IH]; intros s H; simpl.
  - reflexivity.
  - unfold fault_point_step at 2. rewrite (H p (or_introl eq_refl)).
    apply IH. intros q Hq. apply H. now right.
Qed.

Lemma fault_scan_out_of_range c x y z radius fs :
  out_of_range x y z radius fs ->
  fault_scan c x y z radius fs =
  {| totalInfluence := Fin 0; dominantFault := Fin 0; maxInfluence := Fin 0 |}.
Proof.
  unfold fault_scan. generalize (mkFaultScan (Fin 0) (Fin 0) (Fin 0)) as s.
  induction fs as [| f fs IH]; intros s H; simpl.
  - reflexivity.
  - rewrite fault_points_out_of_range.
    + apply IH. intros g Hg. apply H. now right.
    + apply H. now left.
Qed.

(** C10.  When no trace point of any fault system lies strictly within
    the influence radius (the empty list of fault systems included), the
    estimator returns influence 0, fault flag 0 and displacement 0,
    whatever [Math.random()] returned.  The statement covers both copies
    of the estimator: it holds for every choice of their constants. *)
Theorem fault_influence_out_of_range :
  forall (c : FaultConsts) (x y z radius : num) (fs : list DataSet) (u : R),
    out_of_range x y z radius fs ->
    calculateAdvancedFaultInfluence c x y z fs radius u =
    {| influence := Fin 0; fi_faultFlag := Fin 0; displacement := Fin 0 |}.
Proof.
  intros c x y z radius fs u H.
  unfold calculateAdvancedFaultInfluence.
  rewrite (fault_scan_out_of_range c _ _ _ _ _ H). simpl.
  rewrite Rmin_left by lra.
  f_equal.
  - unfold gtb, ltb. destruct (Rltb (threshold c) 0); reflexivity.
  - f_equal. ring.
Qed.

Lemma sqrt_lower_bound (a x : R) : 0 <= a -> a * a <= x -> a <= R_sqrt.sqrt x.
Proof.
  intros Ha H. rewrite <- (sqrt_square a Ha). apply sqrt_le_1_alt. exact H.
Qed.

(** Evaluation of comparisons and selections on closed real expressions. *)
Ltac js_step :=
  match goal with
  | |- context [Rltb ?a ?b] =>
      first [rewrite (Rltb_true a b) by lra | rewrite (Rltb_false a b) by lra]
  | |- context [Rleb ?a ?b] =>
      first [rewrite (Rleb_true a b) by lra | rewrite (Rleb_false a b) by lra]
  | |- context [Reqb ?a ?b] =>
      first [rewrite (Reqb_true a b) by lra | rewrite (Reqb_false a b) by lra]
  | |- context [Rmin ?a ?b] =>
      first [rewrite (Rmin_left a b) by lra | rewrite (Rmin_right a b) by lra]
  | |- context [Rmax ?a ?b] =>
      first [rewrite (Rmax_left a b) by lra | rewrite (Rmax_right a b) by lra]
  | |- context [Rabs ?a] =>
      first [rewrite (Rabs_pos_eq a) by lra | rewrite (Rabs_left1 a) by lra]
  | _ => progress unfold scaled_inf
  end.

Ltac js_eval := cbn; repeat (js_step; cbn).

Lemma fault_influence_out_of_range_witness :
  calculateAdvancedFaultInfluence tool_fault_consts (Fin 0) (Fin 0) (Fin 0)
    [ {| ds_name := "Main Fault";
         ds_points := [ mkPoint (Fin 1000) (Fin 0) (Fin 0) (Some (Fin 1)) ] |} ]
    (Fin 120) (3 / 4) =
  {| influence := Fin 0; fi_faultFlag := Fin 0; displacement := Fin 0 |}.
Proof.
  apply fault_influence_out_of_range.
  intros f [<- | []] p [<- | []].
  unfold spatial_distance. cbn.
  rewrite Rltb_false by nra. cbn.
  apply Rltb_false. apply sqrt_lower_bound; lra.
Defined.

(* ================================================================== *)
(** * Compatibility score *)
(* ================================================================== *)

Lemma all_defined_length {A : Type} (l : list (option A)) (r : list A) :
  all_defined l = Some r -> List.length r = List.length l.
Proof.
  revert r. induction l as [| [a |] l IH]; intros r H; simpl in H.
  - now inversion H.
  - destruct (all_defined l) as [r' |]; [| discriminate].
    inversion H; subst. simpl. f_equal. now apply IH.
  - discriminate.
Qed.

Lemma resolved_ids_nonempty (gs : list Grid) (gridIds : list nat) (data : list Grid) :
  (2 <= List.length gridIds)%nat ->
  all_defined (map (find_grid gs) gridIds) = Some data ->
  exists first rest, data = first :: rest /\ rest <> [].
Proof.
  intros Hlen H. apply all_defined_length in H. rewrite length_map in H.
  destruct data as [| first [| second rest]]; simpl in H; try lia.
  exists first, (second :: rest). split; [reflexivity | discriminate].
Qed.

Lemma canCombineGrids_resolved (gs : list Grid) (gridIds : list nat)
    (first : Grid) (rest : list Grid) :
  (2 <= List.length gridIds)%nat ->
  all_defined (map (find_grid gs) gridIds) = Some (first :: rest) ->
  canCombineGrids gs gridIds = Returned (check_grids first rest).
Proof.
  intros Hlen H. unfold canCombineGrids.
  destruct (Nat.ltb_spec (List.length gridIds) 2) as [Hlt | _]; [lia |].
  now rewrite H.
Qed.

Lemma check_grids_score (first : Grid) (rest : list Grid) :
  compatibilityScore (check_grids first rest) =
  Some (Fin (100 - 20 * INR (List.length (details (check_grids first rest))))).
Proof.
  unfold check_grids.
  destruct (fold_left (bounds_step (bounds first)) rest (true, [])) as [ok ds].
  cbn [compatibilityScore details].
  match goal with |- context [List.length ?l] => generalize (List.length l) end.
  intros n. unfold of_nat. cbn [Js.mul Js.sub Js.round].
  do 2 f_equal.
  replace (100 - INR n * 20) with (IZR (100 - Z.of_nat n * 20)).
  - rewrite Rround_IZR. rewrite minus_IZR, mult_IZR, <- INR_IZR_INZ. ring.
  - rewrite minus_IZR, mult_IZR, <- INR_IZR_INZ. ring.
Qed.

(** C7.  For two or more grids the checker returns a numeric score equal
    to 100 minus 20 for each mismatch reason it produced; the value is
    not clamped, so six or more reasons give a negative score. *)
Theorem score_is_100_minus_20_per_reason :
  forall (gs : list Grid) (gridIds : list nat) (data : list Grid),
    (2 <= List.length gridIds)%nat ->
    all_defined (map (find_grid gs) gridIds) = Some data ->
    exists r : CheckResult,
      canCombineGrids gs gridIds = Returned r /\
      compatibilityScore r =
        Some (Fin (100 - 20 * INR (List.length (details r)))) /\
      ((6 <= List.length (details r))%nat ->
       100 - 20 * INR (List.length (details r)) < 0).
Proof.
  intros gs gridIds data Hlen H.
  destruct (resolved_ids_nonempty _ _ _ Hlen H) as (first & rest & -> & _).
  exists (check_grids first rest). split; [| split].
  - now apply canCombineGrids_resolved.
  - apply check_grids_score.
  - intros H6. apply le_INR in H6. simpl INR in H6. lra.
Qed.

(* ================================================================== *)
(** * The stable sort *)
(* ================================================================== *)

Section SortFacts.
Context {A : Type} (key : A -> num).

Lemma insert_by_perm (a : A) (l : list A) :
  Permutation (insert_by key a l) (a :: l).
Proof.
  induction l as [| b l IH]; cbn [insert_by].
  - apply Permutation_refl.
  - destruct (gtb (key a - key b)%js (Fin 0)).
    + eapply Permutation_trans; [apply perm_skip, IH | apply perm_swap].
    + apply Permutation_refl.
Qed.

Lemma sort_by_perm (l : list A) : Permutation (sort_by key l) l.
Proof.
  induction l as [| a l IH]; cbn [sort_by].
  - apply perm_nil.
  - eapply Permutation_trans; [apply insert_by_perm | now apply perm_skip].
Qed.

Lemma sort_by_length (l : list A) : List.length (sort_by key l) = List.length l.
Proof. apply Permutation_length, sort_by_perm. Qed.

(** [a] stays in front of a strictly larger key. *)
Lemma not_behind (a b : A) (ka : R) :
  key a = Fin ka -> (key a <? key b)%js = true ->
  gtb (key a - key b)%js (Fin 0) = false.
Proof.
  intros Ha H. rewrite Ha in *. destruct (key b) as [| | kb |]; simpl in *;
    try discriminate; try reflexivity.
  apply Rltb_spec in H. unfold gtb. simpl. apply Rltb_false. lra.
Qed.

(** A strictly larger key moves behind [a]. *)
Lemma behind (a b : A) (ka : R) :
  key a = Fin ka -> (key a <? key b)%js = true ->
  gtb (key b - key a)%js (Fin 0) = true.
Proof.
  intros Ha H. rewrite Ha in *. destruct (key b) as [| | kb |]; simpl in *;
    try discriminate; try reflexivity.
  apply Rltb_spec in H. unfold gtb. simpl. apply Rltb_true. lra.
Qed.

(** The element whose key is strictly the least comes first. *)
Lemma sort_by_strict_min (l1 l2 : list A) (a : A) (ka : R) :
  key a = Fin ka ->
  (forall b, In b (l1 ++ l2) -> (key a <? key b)%js = true) ->
  exists t, sort_by key (l1 ++ a :: l2) = a :: t.
Proof.
  intros Ha. induction l1 as [| x l1 IH]; intros H; cbn [app sort_by].
  - destruct (sort_by key l2) as [| h t] eqn:E; cbn [insert_by].
    + now exists [].
    + rewrite (not_behind a h ka Ha).
      * now exists (h :: t).
      * apply H. cbn [app].
        apply (Permutation_in h (sort_by_perm l2)). rewrite E. now left.
  - destruct IH as [t Ht].
    + intros b Hb. apply H. now right.
    + rewrite Ht. cbn [insert_by].
      rewrite (behind a x ka Ha) by (apply H; now left).
      now exists (insert_by key x t).
Qed.
End SortFacts.

(* ================================================================== *)
(** * Spread calls and the engine's limit *)
(* ================================================================== *)

Lemma spread_envelope_within {A : Type} (limit : N) (x y z : A -> num)
    (l : list A) :
  (N.of_nat (List.length l) <= limit)%N ->
  spread_envelope limit x y z l = Returned (envelope x y z l).
Proof.
  intros H. unfold spread_envelope, spread. rewrite !length_map.
  apply N.ltb_ge in H. now rewrite H.
Qed.

Lemma spread_envelope_beyond {A : Type} (limit : N) (x y z : A -> num)
    (l : list A) :
  (limit < N.of_nat (List.length l))%N ->
  spread_envelope limit x y z l = Thrown RangeError.
Proof.
  intros H. unfold spread_envelope, spread. rewrite !length_map.
  apply N.ltb_lt in H. now rewrite H.
Qed.

Lemma small_fits (n : N) (st : AppState) :
  (n <= 2000)%N -> (n <= argument_limit st)%N.
Proof. unfold argument_limit, min_argument_limit. lia. Qed.

Lemma generate_within_limit (rnd : nat -> R) (now fuel : nat) (st : AppState)
    (top bottom : DataSet) (others : list DataSet) :
  horizonData st = top :: bottom :: others ->
  (horizon_samples st <= argument_limit st)%N ->
  generateGeologicalGrid rnd now fuel st =
  sample_and_register rnd now fuel st (ds_points top) (ds_points bottom)
    (horizon_bounds (ds_points top) (ds_points bottom)).
Proof.
  intros Hh Hlim. unfold generateGeologicalGrid, horizon_samples in *.
  rewrite Hh in *. now rewrite spread_envelope_within by exact Hlim.
Qed.

Lemma generate_beyond_limit (rnd : nat -> R) (now fuel : nat) (st : AppState) :
  (argument_limit st < horizon_samples st)%N ->
  generateGeologicalGrid rnd now fuel st =
  Some (Returned tt, with_generating false (with_alert GenerationFailed st)).
Proof.
  intros Hlim. unfold generateGeologicalGrid, horizon_samples in *.
  destruct (horizonData st) as [| top [| bottom others]]; try lia.
  now rewrite spread_envelope_beyond by exact Hlim.
Qed.

Lemma blended_length (dir : Direction) (bs : list Bounds) (data : list Grid)
    (k : nat) :
  List.length (flat_map (blended_cells dir bs)
                 (combine (seq k (List.length data)) data))
  = list_sum (map (fun g => List.length (points g)) data).
Proof.
  revert k. induction data as [| g data IH]; intros k;
    cbn [List.length seq combine flat_map map list_sum fold_right].
  - reflexivity.
  - rewrite length_app, (IH (S k)). unfold blended_cells at 1.
    now rewrite length_map.
Qed.

Lemma merged_cells_length (now : nat) (dir : Direction) (data : list Grid) :
  List.length (points (merged_grid now dir data))
  = list_sum (map (fun g => List.length (points g)) data).
Proof.
  unfold merged_grid. cbn [points].
  destruct dir; rewrite sort_by_length; apply blended_length.
Qed.

Lemma merged_cells_selected (now : nat) (st : AppState) (data : list Grid) :
  all_defined (map (find_grid (grids st)) (selectedGrids st)) = Some data ->
  N.of_nat (List.length (points (merged_grid now (mergeDirection st) data)))
  = selected_cells st.
Proof.
  intros H. rewrite merged_cells_length. unfold selected_cells. f_equal.
  revert data H. induction (selectedGrids st) as [| i ids IH]; intros data H;
    cbn [map all_defined] in *.
  - now inversion H.
  - destruct (find_grid (grids st) i) as [g |]; [| discriminate].
    destruct (all_defined (map (find_grid (grids st)) ids)) as [r |];
      [| discriminate].
    inversion H; subst data.
    change (list_sum (?a :: ?t)) with (a + list_sum t)%nat.
    cbn [map]. change (list_sum (?a :: ?t)) with (a + list_sum t)%nat.
    now rewrite (IH r eq_refl).
Qed.

(* ================================================================== *)
(** * Sums on a merge *)
(* ================================================================== *)

Lemma add_comm (a b : num) : (a + b)%js = (b + a)%js.
Proof. destruct a, b; simpl; try reflexivity. f_equal. ring. Qed.

Lemma add_assoc (a b c : num) : (a + (b + c))%js = (a + b + c)%js.
Proof. destruct a, b, c; simpl; try reflexivity. f_equal. ring. Qed.

Lemma add_0_r (a : num) : (a + Fin 0)%js = a.
Proof. destruct a; simpl; try reflexivity. f_equal. ring. Qed.

Lemma fold_add_total {A : Type} (f : A -> num) (l : list A) (t : num) :
  fold_left (fun t g => t + f g)%js l t = (t + total (map f l))%js.
Proof.
  revert t. induction l as [| a l IH]; intros t; simpl.
  - now rewrite add_0_r.
  - rewrite IH. now rewrite add_assoc.
Qed.

Lemma fold_plus_list_sum {A : Type} (f : A -> nat) (l : list A) (n : nat) :
  fold_left (fun n g => n + f g)%nat l n = (n + list_sum (map f l))%nat.
Proof.
  revert n. induction l as [| a l IH]; intros n; simpl.
  - lia.
  - rewrite IH. lia.
Qed.

Lemma fold_add_map {A : Type} (f : A -> num) (l : list A) (t : num) :
  fold_left (fun t g => t + f g)%js l t = fold_left Js.add (map f l) t.
Proof.
  revert t. induction l as [| a l IH]; intros t; cbn [fold_left map].
  - reflexivity.
  - apply IH.
Qed.

(** The merged volume is the running sum the source keeps: from 0, one
    grid after the other in selection order. *)
Lemma merged_totalVolume now dir data :
  totalVolume (merged_grid now dir data) = sum_list (map totalVolume data).
Proof.
  unfold merged_grid, sum_list. cbn [totalVolume]. apply fold_add_map.
Qed.

Lemma merged_pointCount now dir data :
  pointCount (merged_grid now dir data) = list_sum (map pointCount data).
Proof.
  unfold merged_grid. cbn [pointCount]. now rewrite fold_plus_list_sum.
Qed.

(** What [combineGrids] does once the checker has accepted: it resolves
    the ids, builds the merged cells and evaluates the spread calls. *)
Lemma combineGrids_resolved now st r :
  canCombineGrids (grids st) (selectedGrids st) = Returned r ->
  canCombine r = true ->
  exists data,
    all_defined (map (find_grid (grids st)) (selectedGrids st)) = Some data /\
    (2 <= List.length data)%nat /\
    combineGrids now st =
    match
      spread_envelope (argument_limit st) cx cy cz
        (points (merged_grid now (mergeDirection st) data))
    with
    | Thrown e => (Thrown e, st)
    | Returned _ =>
        (Returned tt,
         with_alert
           (MergedOk (List.length data) (mergeDirection st)
              (name (merged_grid now (mergeDirection st) data))
              (pointCount (merged_grid now (mergeDirection st) data)))
           (clear_selection
              (register_grid (merged_grid now (mergeDirection st) data) st)))
    end.
Proof.
  intros Hc Hok. unfold combineGrids. rewrite Hc, Hok. simpl negb. cbv iota.
  unfold canCombineGrids in Hc.
  destruct (Nat.ltb_spec (List.length (selectedGrids st)) 2) as [Hlt | Hge].
  - inversion Hc; subst. discriminate.
  - destruct (all_defined (map (find_grid (grids st)) (selectedGrids st)))
      as [data |] eqn:Hd; [| discriminate].
    exists data. split; [reflexivity |]. split; [| reflexivity].
    apply all_defined_length in Hd. rewrite length_map in Hd. lia.
Qed.

(** Within the engine's limit the merged grid is registered. *)
Lemma combineGrids_accepted now st r :
  canCombineGrids (grids st) (selectedGrids st) = Returned r ->
  canCombine r = true ->
  (selected_cells st <= argument_limit st)%N ->
  exists data,
    all_defined (map (find_grid (grids st)) (selectedGrids st)) = Some data /\
    (2 <= List.length data)%nat /\
    combineGrids now st =
    (Returned tt,
     with_alert
       (MergedOk (List.length data) (mergeDirection st)
          (name (merged_grid now (mergeDirection st) data))
          (pointCount (merged_grid now (mergeDirection st) data)))
       (clear_selection
          (register_grid (merged_grid now (mergeDirection st) data) st))).
Proof.
  intros Hc Hok Hlim.
  destruct (combineGrids_resolved now st r Hc Hok) as (data & Hd & Hlen & ->).
  exists data. split; [exact Hd |]. split; [exact Hlen |].
  rewrite spread_envelope_within; [reflexivity |].
  now rewrite (merged_cells_selected now st data Hd).
Qed.

(** Beyond it the spread call throws and nothing is stored. *)
Lemma combineGrids_beyond now st r :
  canCombineGrids (grids st) (selectedGrids st) = Returned r ->
  canCombine r = true ->
  (argument_limit st < selected_cells st)%N ->
  combineGrids now st = (Thrown RangeError, st).
Proof.
  intros Hc Hok Hlim.
  destruct (combineGrids_resolved now st r Hc Hok) as (data & Hd & _ & ->).
  rewrite spread_envelope_beyond; [reflexivity |].
  now rewrite (merged_cells_selected now st data Hd).
Qed.

(** C2.  For compatible grids and either merge direction, every merged
    grid that [combineGrids] stores has as [totalVolume] the sum of the
    source grids' [totalVolume] (added up from 0 in selection order) and
    as [pointCount] the sum of their [pointCount]; and it does return and
    store one whenever the cells of the selected grids are within what
    one call can take. *)
Theorem merge_sums_volume_and_points :
  forall (now : nat) (st : AppState) (r : CheckResult),
    canCombineGrids (grids st) (selectedGrids st) = Returned r ->
    canCombine r = true ->
    exists data : list Grid,
      all_defined (map (find_grid (grids st)) (selectedGrids st)) = Some data /\
      ((selected_cells st <= argument_limit st)%N ->
       fst (combineGrids now st) = Returned tt /\
       exists merged, grids (snd (combineGrids now st)) = grids st ++ [merged]) /\
      (forall merged : Grid,
         grids (snd (combineGrids now st)) = grids st ++ [merged] ->
         totalVolume merged = sum_list (map totalVolume data) /\
         pointCount merged = list_sum (map pointCount data)).
Proof.
  intros now st r Hc Hok.
  destruct (N.le_gt_cases (selected_cells st) (argument_limit st))
    as [Hlim | Hlim].
  - destruct (combineGrids_accepted now st r Hc Hok Hlim)
      as (data & Hd & _ & ->).
    exists data. split; [exact Hd |]. split.
    + intros _. split; [reflexivity |]. now eexists.
    + intros merged Hm. cbn in Hm. apply app_inj_tail in Hm.
      destruct Hm as [_ <-]. split.
      * apply merged_totalVolume.
      * apply merged_pointCount.
  - destruct (combineGrids_resolved now st r Hc Hok) as (data & Hd & _ & _).
    rewrite (combineGrids_beyond now st r Hc Hok Hlim).
    exists data. split; [exact Hd |]. split; [lia |].
    intros merged Hm. cbn in Hm.
    apply (f_equal (@List.length Grid)) in Hm.
    rewrite length_app in Hm. cbn in Hm. lia.
Qed.

(** ** The sample grids A and B *)

Ltac check_eval :=
  unfold check_grids, bounds_step, tolerancePercent, max_layer_diff,
    point_variance, sum_list, min_list, max_list;
  js_eval.

Lemma Rround_int (r : R) (k : Z) : r = IZR k -> Rround r = r.
Proof. intros ->. apply Rround_IZR. Qed.

Lemma gridA_gridB_compatible :
  check_grids gridA [gridB] =
  {| canCombine := true; reason := "Compatible grids"; details := [];
     compatibilityScore := Some (Fin 100) |}.
Proof.
  check_eval. rewrite (Rround_int _ 100) by lra.
  do 3 f_equal. lra.
Qed.

Lemma gridA_gridB_resolved (sel_dir : Direction) :
  canCombineGrids (grids (state_of [gridA; gridB] [1; 2]%nat sel_dir))
    (selectedGrids (state_of [gridA; gridB] [1; 2]%nat sel_dir)) =
  Returned (check_grids gridA [gridB]).
Proof. reflexivity. Qed.

Lemma score_is_100_minus_20_per_reason_witness :
  exists r : CheckResult,
    canCombineGrids [gridA; gridB] [1; 2]%nat = Returned r /\
    compatibilityScore r =
      Some (Fin (100 - 20 * INR (List.length (details r)))) /\
    ((6 <= List.length (details r))%nat ->
     100 - 20 * INR (List.length (details r)) < 0).
Proof.
  apply (score_is_100_minus_20_per_reason [gridA; gridB] [1; 2]%nat
           [gridA; gridB]).
  - simpl. lia.
  - reflexivity.
Defined.

Lemma merge_sums_volume_and_points_witness :
  exists (data : list Grid) (merged : Grid),
    all_defined
      (map (find_grid (grids (state_of [gridA; gridB] [1; 2]%nat Vertical)))
         (selectedGrids (state_of [gridA; gridB] [1; 2]%nat Vertical)))
    = Some data /\
    fst (combineGrids 3 (state_of [gridA; gridB] [1; 2]%nat Vertical))
    = Returned tt /\
    grids (snd (combineGrids 3 (state_of [gridA; gridB] [1; 2]%nat Vertical)))
    = [gridA; gridB] ++ [merged] /\
    totalVolume merged = sum_list (map totalVolume data) /\
    pointCount merged = list_sum (map pointCount data).
Proof.
  destruct (merge_sums_volume_and_points 3
              (state_of [gridA; gridB] [1; 2]%nat Vertical)
              (check_grids gridA [gridB]))
    as (data & Hd & Hstored & Hsums).
  - reflexivity.
  - rewrite gridA_gridB_compatible. reflexivity.
  - destruct Hstored as (Hret & merged & Hm); [apply small_fits; cbn; lia |].
    exists data, merged. split; [exact Hd |]. split; [exact Hret |].
    split; [exact Hm | exact (Hsums merged Hm)].
Defined.

Lemma far_mismatch (acc : bool * list Detail) (i l c : nat) :
  bounds_step (bounds gridA) acc (far_grid i l c) =
  (false,
   snd acc ++
   [BoundsMismatch "Far" (Fin 5000) (Fin 100) (Fin 0) (Fin 10) (Fin 0) (Fin 10)]).
Proof.
  unfold bounds_step, tolerancePercent. js_eval.
  repeat f_equal; lra.
Qed.

Lemma far_layers :
  max_layer_diff
    [gridA; far_grid 5 2 2; far_grid 6 2 2; far_grid 7 2 2; far_grid 8 9 40]
  = Fin 7.
Proof.
  unfold max_layer_diff, max_list, min_list. js_eval. f_equal. lra.
Qed.

Lemma far_variance :
  (point_variance
     [gridA; far_grid 5 2 2; far_grid 6 2 2; far_grid 7 2 2; far_grid 8 9 40]
   >? Fin (3 / 10))%js = true.
Proof.
  unfold point_variance, sum_list. js_eval. reflexivity.
Qed.

(** Six reasons are reachable with five grids: four bounds mismatches,
    the layer spread and the point-count spread; the score is then -20. *)
Example negative_score :
  let r := check_grids gridA
             [far_grid 5 2 2; far_grid 6 2 2; far_grid 7 2 2; far_grid 8 9 40] in
  List.length (details r) = 6%nat /\
  canCombine r = false /\
  compatibilityScore r = Some (Fin (-20)).
Proof.
  unfold check_grids. cbn [fold_left]. rewrite !far_mismatch.
  rewrite far_layers, far_variance. js_eval. repeat split.
  rewrite (Rround_int _ (-20)) by lra. do 2 f_equal. lra.
Qed.

(* ================================================================== *)
(** * Build with fewer than two horizons *)
(* ================================================================== *)

(** C8, as the code has it.  With fewer than two horizons
    [generateGeologicalGrid] returns normally after a single [alert];
    no grid is registered, and the grid collection and every other
    state variable are as before. *)
Theorem build_needs_two_horizons :
  forall (rnd : nat -> R) (now fuel : nat) (st : AppState),
    (List.length (horizonData st) < 2)%nat ->
    exists st' : AppState,
      generateGeologicalGrid rnd now fuel st = Some (Returned tt, st') /\
      alerts st' = alerts st ++ [NeedTwoHorizons] /\
      grids st' = grids st /\
      activeGridId st' = activeGridId st /\
      isGenerating st' = isGenerating st /\
      seed st' = seed st.
Proof.
  intros rnd now fuel st H. exists (with_alert NeedTwoHorizons st).
  unfold generateGeologicalGrid.
  destruct (horizonData st) as [| top [| bottom rest]]; simpl in H;
    try lia; repeat split; reflexivity.
Qed.

Lemma build_needs_two_horizons_witness :
  exists st' : AppState,
    generateGeologicalGrid half_stream 7 100 one_horizon_state =
      Some (Returned tt, st') /\
    alerts st' = alerts one_horizon_state ++ [NeedTwoHorizons] /\
    grids st' = grids one_horizon_state /\
    activeGridId st' = activeGridId one_horizon_state /\
    isGenerating st' = isGenerating one_horizon_state /\
    seed st' = seed one_horizon_state.
Proof.
  apply (build_needs_two_horizons half_stream 7 100 one_horizon_state).
  simpl. lia.
Defined.

(** C8 as stated fails: with one horizon the call does not end in a
    thrown error of any kind; it returns. *)
Lemma build_with_one_horizon_does_not_throw :
  ~ exists (e : JsError) (st' : AppState),
      generateGeologicalGrid half_stream 7 100 one_horizon_state =
      Some (Thrown e, st').
Proof.
  intros (e & st' & H). cbn in H. discriminate.
Qed.

(* ================================================================== *)
(** * Symmetry and reflexivity of the checker *)
(* ================================================================== *)

Lemma canCombine_check_grids (first : Grid) (rest : list Grid) :
  canCombine (check_grids first rest) =
  fst (fold_left (bounds_step (bounds first)) rest (true, []))
  && (max_layer_diff (first :: rest) <=? Fin 5)%js
  && (point_variance (first :: rest) <=? Fin (3 / 10))%js.
Proof.
  unfold check_grids.
  destruct (fold_left (bounds_step (bounds first)) rest (true, [])) as [ok ds].
  reflexivity.
Qed.

Lemma abs_sub_sym (a b : num) : Js.abs (a - b)%js = Js.abs (b - a)%js.
Proof.
  destruct a, b; simpl; try reflexivity. f_equal. apply Rabs_minus_sym.
Qed.

Lemma max_comm (a b : num) : Js.max a b = Js.max b a.
Proof. destruct a, b; simpl; try reflexivity. f_equal. apply Rmax_comm. Qed.

Lemma min_comm (a b : num) : Js.min a b = Js.min b a.
Proof. destruct a, b; simpl; try reflexivity. f_equal. apply Rmin_comm. Qed.

Lemma bounds_step_sym (a b : Grid) :
  same_extents (bounds a) (bounds b) ->
  fst (bounds_step (bounds a) (true, []) b) =
  fst (bounds_step (bounds b) (true, []) a).
Proof.
  intros (Hx & Hy & Hz). unfold bounds_step.
  rewrite Hx, Hy, Hz.
  set (ba := bounds a) in *. set (bb := bounds b) in *.
  rewrite (abs_sub_sym (xMin bb)), (abs_sub_sym (xMax bb)),
    (abs_sub_sym (yMin bb)), (abs_sub_sym (yMax bb)),
    (abs_sub_sym (zMin bb)), (abs_sub_sym (zMax bb)).
  match goal with |- fst (if ?c then _ else _) = _ => destruct c end;
    reflexivity.
Qed.

Lemma max_layer_diff_sym (a b : Grid) :
  max_layer_diff [a; b] = max_layer_diff [b; a].
Proof.
  unfold max_layer_diff, max_list, min_list, of_nat. simpl.
  now rewrite Rmax_comm, Rmin_comm.
Qed.

Lemma point_variance_sym (a b : Grid) :
  point_variance [a; b] = point_variance [b; a].
Proof.
  unfold point_variance, sum_list. cbn [map List.length fold_left].
  set (p := of_nat (pointCount a)). set (q := of_nat (pointCount b)).
  replace (Fin 0 + q + p)%js with (Fin 0 + p + q)%js.
  - set (avg := ((Fin 0 + p + q) / of_nat 2)%js).
    f_equal.
    rewrite <- !add_assoc. f_equal. apply add_comm.
  - rewrite <- !add_assoc. f_equal. apply add_comm.
Qed.

Lemma self_bounds_step (g g' : Grid) (acc : bool * list Detail) :
  well_formed_bounds (bounds g) ->
  bounds g' = bounds g ->
  bounds_step (bounds g) acc g' = acc.
Proof.
  intros (Hx & Hy & Hz) Hb. unfold bounds_step, tolerancePercent.
  rewrite Hb.
  destruct (bounds g) as [x0 x1 y0 y1 z0 z1]; cbn in *.
  destruct x0 as [| | x0 |], x1 as [| | x1 |]; try contradiction.
  destruct y0 as [| | y0 |], y1 as [| | y1 |]; try contradiction.
  destruct z0 as [| | z0 |], z1 as [| | z1 |]; try contradiction.
  cbn in *.
  replace (x0 - x0) with 0 by ring. replace (x1 - x1) with 0 by ring.
  replace (y0 - y0) with 0 by ring. replace (y1 - y1) with 0 by ring.
  replace (z0 - z0) with 0 by ring. replace (z1 - z1) with 0 by ring.
  rewrite Rabs_R0, (Rmax_left 0 0) by lra.
  unfold gtb. cbn.
  rewrite !Rltb_false by lra. reflexivity.
Qed.

Lemma self_max_layer_diff (g g' : Grid) :
  layerCount g' = layerCount g ->
  max_layer_diff [g; g'] = Fin 0.
Proof.
  intros H. unfold max_layer_diff, max_list, min_list, of_nat. simpl.
  rewrite H, Rmax_left, Rmin_left by lra. f_equal. ring.
Qed.

Lemma self_point_variance (g g' : Grid) :
  (0 < pointCount g)%nat ->
  pointCount g' = pointCount g ->
  point_variance [g; g'] = Fin 0.
Proof.
  intros Hpos H. unfold point_variance, sum_list, of_nat.
  cbn [map List.length fold_left]. rewrite H.
  apply lt_INR in Hpos. simpl INR in Hpos.
  set (p := INR (pointCount g)) in *.
  cbn. rewrite (Reqb_false (1 + 1)) by lra. cbn.
  replace ((0 + p + p) / (1 + 1)) with p by field.
  rewrite (Reqb_false p 0) by lra. cbn.
  rewrite (Reqb_false (1 + 1)) by lra.
  replace (p - p) with 0 by ring. rewrite Rabs_R0.
  f_equal. field. lra.
Qed.

(** C3, as the code has it.  The verdict is the same in both orders when
    the two grids have the same extent on each axis, the tolerance being
    a tenth of the first grid's extent; and a grid that has at least one
    cell and well-formed bounds is compatible with its clone, with no
    reason and score 100. *)
Theorem check_symmetric_on_equal_extents_and_accepts_clone :
  (forall a b : Grid,
      same_extents (bounds a) (bounds b) ->
      canCombine (check_grids a [b]) = canCombine (check_grids b [a])) /\
  (forall (now : nat) (a : Grid),
      (0 < pointCount a)%nat ->
      well_formed_bounds (bounds a) ->
      check_grids a [clone_grid now a] =
      {| canCombine := true; reason := "Compatible grids"; details := [];
         compatibilityScore := Some (Fin 100) |}).
Proof.
  split.
  - intros a b H. rewrite !canCombine_check_grids. cbn [fold_left].
    rewrite (bounds_step_sym a b H), (max_layer_diff_sym a b),
      (point_variance_sym a b).
    reflexivity.
  - intros now a Hpos Hwf. unfold check_grids. cbn [fold_left].
    rewrite (self_bounds_step a (clone_grid now a)) by easy.
    rewrite (self_max_layer_diff a (clone_grid now a)) by reflexivity.
    rewrite (self_point_variance a (clone_grid now a)) by easy.
    js_eval. rewrite (Rround_int _ 100) by lra.
    do 3 f_equal. lra.
Qed.
Lemma check_symmetric_on_equal_extents_and_accepts_clone_witness :
  canCombine (check_grids gridA [gridB]) = canCombine (check_grids gridB [gridA]) /\
  check_grids gridA [clone_grid 9 gridA] =
  {| canCombine := true; reason := "Compatible grids"; details := [];
     compatibilityScore := Some (Fin 100) |}.
Proof.
  split.
  - apply (proj1 check_symmetric_on_equal_extents_and_accepts_clone gridA gridB).
    unfold same_extents. cbn. repeat split; f_equal; lra.
  - apply (proj2 check_symmetric_on_equal_extents_and_accepts_clone 9%nat gridA).
    + simpl. lia.
    + unfold well_formed_bounds, finite_ordered. cbn. lra.
Defined.

(** C3 as stated fails twice.  A (x from 0 to 1000) accepts C (x from 0
    to 905) because the difference 95 is within a tenth of A's extent,
    while C rejects A because 95 exceeds a tenth of its own extent; and
    the grid without cells is rejected next to its clone, the mean point
    count being 0 and the variance [0/0]. *)
Lemma check_order_and_empty_clone_counterexample :
  canCombine (check_grids gridA [gridC]) = true /\
  canCombine (check_grids gridC [gridA]) = false /\
  canCombine (check_grids gridE [clone_grid 9 gridE]) = false /\
  details (check_grids gridE [clone_grid 9 gridE]) = [].
Proof.
  repeat split; check_eval; reflexivity.
Qed.

(* ================================================================== *)
(** * Interpolation at a sample *)
(* ================================================================== *)

Lemma nearest_strict_min (k : nat) (x y : num) (l1 l2 : list Point)
    (p : Point) (d : R) :
  planar_distance x y p = Fin d ->
  (forall q, In q (l1 ++ l2) ->
     (planar_distance x y p <? planar_distance x y q)%js = true) ->
  exists t,
    nearest (S k) x y (l1 ++ p :: l2) =
    {| rk_point := p; distance := Fin d |} :: t.
Proof.
  intros Hd H. unfold nearest.
  rewrite map_app. cbn [map].
  destruct (sort_by_strict_min distance
              (map (fun q => mkRanked q (planar_distance x y q)) l1)
              (map (fun q => mkRanked q (planar_distance x y q)) l2)
              (mkRanked p (planar_distance x y p)) d) as [t Ht].
  - exact Hd.
  - intros b Hb. rewrite <- map_app in Hb. apply in_map_iff in Hb.
    destruct Hb as (q & <- & Hq). cbn [distance]. now apply H.
  - rewrite Ht, length_app. cbn [List.length].
    replace (Nat.min (S k) (List.length l1 + S (List.length l2)))
      with (S (Nat.min k (List.length l1 + List.length l2))) by lia.
    cbn [firstn]. rewrite Hd. eauto.
Qed.

Lemma planar_distance_self (p : Point) :
  finite (px p) -> finite (py p) ->
  planar_distance (px p) (py p) p = Fin 0.
Proof.
  unfold planar_distance.
  destruct (px p) as [| | a |], (py p) as [| | b |]; try contradiction.
  intros _ _. cbn.
  replace ((a - a) * (a - a) + (b - b) * (b - b)) with 0 by ring.
  rewrite Rltb_false by lra. now rewrite sqrt_0.
Qed.

(** The short-circuit of the component: a strictly nearest sample closer
    than one unit decides the result. *)
Lemma tool_interpolation_short_circuit (x y : num) (l1 l2 : list Point)
    (p : Point) (d : R) :
  planar_distance x y p = Fin d -> d < 1 ->
  (forall q, In q (l1 ++ l2) ->
     (planar_distance x y p <? planar_distance x y q)%js = true) ->
  Tool.geologicalInterpolation x y (l1 ++ p :: l2) = pz p.
Proof.
  intros Hd Hlt H. unfold Tool.geologicalInterpolation.
  destruct (l1 ++ p :: l2) as [| p0 l] eqn:E.
  - now destruct l1.
  - rewrite <- E.
    destruct (nearest_strict_min 5 x y l1 l2 p d Hd H) as [t ->].
    cbn [distance rk_point Js.ltb]. now rewrite Rltb_true.
Qed.

(** C6, for the component (six neighbours, short-circuit).  Queried at
    the planar position of a sample [p] that is strictly nearer to that
    position than every other sample, the interpolator returns [p.z]. *)
Theorem tool_interpolation_exact_at_sample :
  forall (l1 l2 : list Point) (p : Point),
    finite (px p) -> finite (py p) ->
    (forall q, In q (l1 ++ l2) ->
       (planar_distance (px p) (py p) p <? planar_distance (px p) (py p) q)%js
       = true) ->
    Tool.geologicalInterpolation (px p) (py p) (l1 ++ p :: l2) = pz p.
Proof.
  intros l1 l2 p Hx Hy H.
  apply (tool_interpolation_short_circuit _ _ _ _ _ 0).
  - now apply planar_distance_self.
  - lra.
  - exact H.
Qed.

Lemma east_point_is_farther :
  (planar_distance (Fin 0) (Fin 0) near_point
   <? planar_distance (Fin 0) (Fin 0) east_point)%js = true.
Proof.
  unfold planar_distance. cbn.
  replace ((0 - 0) * (0 - 0) + (0 - 0) * (0 - 0)) with 0 by ring.
  replace ((0 - 2) * (0 - 2) + (0 - 0) * (0 - 0)) with (2 * 2) by ring.
  rewrite !Rltb_false by lra. cbn.
  rewrite sqrt_0, sqrt_square by lra. apply Rltb_true. lra.
Qed.

Lemma tool_interpolation_exact_at_sample_witness :
  Tool.geologicalInterpolation (Fin 0) (Fin 0) ([] ++ near_point :: [east_point])
  = Fin 10.
Proof.
  apply (tool_interpolation_exact_at_sample [] [east_point] near_point).
  - exact I.
  - exact I.
  - intros q [<- | []]. exact east_point_is_farther.
Defined.

(** C6 as stated fails for the utilities' copy of the interpolator: it
    has no short-circuit and floors every distance at 1, so at the
    strictly nearest sample (z = 10) it returns the weighted mean
    (10 * 1 + 20 * 1/4) / (1 + 1/4) = 12. *)
Lemma utils_interpolation_not_exact :
  (planar_distance (px near_point) (py near_point) near_point
   <? planar_distance (px near_point) (py near_point) east_point)%js = true /\
  Utils.geologicalInterpolation (px near_point) (py near_point)
    [near_point; east_point] = Fin 12 /\
  Utils.geologicalInterpolation (px near_point) (py near_point)
    [near_point; east_point] <> pz near_point.
Proof.
  assert (E : Utils.geologicalInterpolation (px near_point) (py near_point)
                [near_point; east_point] = Fin 12).
  { unfold Utils.geologicalInterpolation, nearest, planar_distance, idw, idw_step.
    cbn.
    replace ((0 - 0) * (0 - 0) + (0 - 0) * (0 - 0)) with 0 by ring.
    replace ((0 - 2) * (0 - 2) + (0 - 0) * (0 - 0)) with (2 * 2) by ring.
    rewrite !Rltb_false by lra. cbn.
    rewrite sqrt_0, sqrt_square by lra.
    unfold gtb. js_eval. f_equal. field. }
  split; [exact east_point_is_farther |]. split; [exact E |].
  rewrite E. cbn. intros H. inversion H. lra.
Qed.

(* ================================================================== *)
(** * Horizontal merge *)
(* ================================================================== *)

Lemma add_0_l (a : num) : (Fin 0 + a)%js = a.
Proof. rewrite add_comm. apply add_0_r. Qed.

Lemma min_swap (a x y : num) :
  Js.min (Js.min a x) y = Js.min (Js.min a y) x.
Proof.
  destruct a, x, y; simpl; try reflexivity; f_equal;
    unfold Rmin; repeat destruct (Rle_dec _ _); lra.
Qed.

Lemma fold_min_perm (l l' : list num) :
  Permutation l l' ->
  forall a, fold_left Js.min l a = fold_left Js.min l' a.
Proof.
  induction 1 as [| x l l' _ IH | x y l | l l' l'' _ IH1 _ IH2]; intros a;
    cbn [fold_left].
  - reflexivity.
  - apply IH.
  - now rewrite min_swap.
  - now rewrite IH1.
Qed.

Lemma min_list_perm (l l' : list num) :
  Permutation l l' -> min_list l = min_list l'.
Proof. intros H. unfold min_list. now apply fold_min_perm. Qed.

Lemma min_add_distr (a x : num) (c : R) :
  Js.min (a + Fin c) (x + Fin c)%js = (Js.min a x + Fin c)%js.
Proof.
  destruct a, x; simpl; try reflexivity. f_equal.
  unfold Rmin; repeat destruct (Rle_dec _ _); lra.
Qed.

Lemma min_list_shift (l : list num) (c : R) :
  min_list (map (fun v => v + Fin c)%js l) = (min_list l + Fin c)%js.
Proof.
  unfold min_list. change PInf with (PInf + Fin c)%js at 1.
  generalize PInf as a. induction l as [| x l IH]; intros a; cbn [map fold_left].
  - reflexivity.
  - rewrite min_add_distr. apply IH.
Qed.

Lemma filter_perm {A : Type} (f : A -> bool) (l l' : list A) :
  Permutation l l' -> Permutation (filter f l) (filter f l').
Proof.
  induction 1 as [| x l l' _ IH | x y l | l l' l'' _ IH1 _ IH2]; cbn [filter].
  - apply perm_nil.
  - destruct (f x); [now apply perm_skip | exact IH].
  - destruct (f x), (f y); try apply Permutation_refl. apply perm_swap.
  - eapply Permutation_trans; eassumption.
Qed.

(** The loop in [calculateOffset] adds up the preceding widths. *)
Lemma horizontal_offset (index : nat) (allBounds : list Bounds) :
  calculateOffset Horizontal index allBounds =
  {| off_x := total (map width (firstn index allBounds));
     off_y := Fin 0; off_z := Fin 0 |}.
Proof.
  unfold calculateOffset. f_equal.
  rewrite (fold_add_total width). apply add_0_l.
Qed.

Lemma merged_points_perm now dir data :
  Permutation (points (merged_grid now dir data))
    (flat_map (blended_cells dir (map bounds data)) (indexed data)).
Proof.
  unfold merged_grid. cbn [points]. destruct dir; apply sort_by_perm.
Qed.

Lemma blend_from_grid g i o (l : list Cell) (j : nat) :
  filter (from_grid j) (map (blend g i o) l) =
  if Nat.eqb i j then map (blend g i o) l else [].
Proof.
  induction l as [| c l IH]; cbn [map filter].
  - now destruct (Nat.eqb i j).
  - unfold from_grid at 1. cbn [blend merge_info gridIndex].
    rewrite IH. now destruct (Nat.eqb i j).
Qed.

(** With two grids, the cells of the second one sit one width of the
    first one further along x. *)
Lemma horizontal_pair_min_x (now : nat) (A B : Grid) (w : R) :
  width (bounds A) = Fin w ->
  min_list
    (map cx (filter (from_grid 1) (points (merged_grid now Horizontal [A; B]))))
  = (min_list (map cx (points B)) + Fin w)%js.
Proof.
  intros Hw.
  rewrite (min_list_perm _ _
             (Permutation_map cx
                (filter_perm (from_grid 1) _ _
                   (merged_points_perm now Horizontal [A; B])))).
  cbn [indexed List.length seq combine flat_map blended_cells map].
  rewrite app_nil_r, filter_app, !blend_from_grid. cbn [Nat.eqb app].
  rewrite horizontal_offset. cbn [firstn map total fold_right].
  rewrite Hw. cbn [Js.add].
  rewrite map_map. cbn [blend cx off_x].
  replace (w + 0) with w by ring.
  rewrite <- (min_list_shift (map cx (points B)) w). now rewrite map_map.
Qed.

(** C5.  The offset of a horizontal merge is the summed width of the
    grids before, which its comments call a seamless join at the end of
    the previous grid; the grid's own least x is never subtracted.  A
    spans x from 0 to 1000 and is compatible with B, whose cells start at
    x = 50: after the horizontal merge the least x among B's cells is
    1050, not 1000, and a gap of 50 separates the two. *)
Lemma horizontal_merge_second_grid_not_at_1000 :
  xMin (bounds gridA) = Fin 0 /\ xMax (bounds gridA) = Fin 1000 /\
  canCombineGrids [gridA; gridB] [1; 2]%nat
  = Returned (check_grids gridA [gridB]) /\
  canCombine (check_grids gridA [gridB]) = true /\
  exists merged : Grid,
    grids (snd (combineGrids 3 (state_of [gridA; gridB] [1; 2]%nat Horizontal)))
    = [gridA; gridB; merged] /\
    min_list (map cx (filter (from_grid 1) (points merged))) = Fin 1050 /\
    min_list (map cx (filter (from_grid 1) (points merged))) <> Fin 1000.
Proof.
  split; [reflexivity |]. split; [reflexivity |]. split; [reflexivity |].
  split; [now rewrite gridA_gridB_compatible |].
  destruct (combineGrids_accepted 3
              (state_of [gridA; gridB] [1; 2]%nat Horizontal)
              (check_grids gridA [gridB]) eq_refl)
    as (data & Hd & _ & ->).
  { now rewrite gridA_gridB_compatible. }
  { apply small_fits. cbn. lia. }
  cbn in Hd. inversion Hd; subst data. clear Hd.
  exists (merged_grid 3 Horizontal [gridA; gridB]).
  split; [reflexivity |].
  rewrite (horizontal_pair_min_x 3 gridA gridB 1000)
    by (cbn; f_equal; ring).
  unfold min_list. js_eval.
  replace (50 + 1000) with 1050 by ring.
  split; [reflexivity |]. intros H. inversion H. lra.
Qed.

(* ================================================================== *)
(** * The sampling loops *)
(* ================================================================== *)

Section Loops.
Variable rnd : nat -> R.
Variables (top bottom : list Point) (fs : list DataSet) (layers : nat).
Variables (box : Bounds) (spacing : num).

Local Abbreviation sample := (sample_position rnd top bottom fs layers spacing).
Local Abbreviation run := (run_positions rnd top bottom fs layers spacing).

Lemma loop_y_run (fuel : nat) (x y : num) (acc : Acc) (ys : list num) :
  counter_values fuel y spacing (yMax box) = Some ys ->
  loop_y rnd top bottom fs layers box spacing fuel x y acc =
  Some (run (map (pair x) ys) acc).
Proof.
  revert y acc ys. induction fuel as [| fuel IH]; intros y acc ys H;
    cbn [counter_values loop_y] in *.
  - discriminate.
  - destruct (y <=? yMax box)%js.
    + destruct (counter_values fuel (y + spacing)%js spacing (yMax box))
        as [ys' |] eqn:E; [| discriminate].
      inversion H; subst ys. rewrite (IH _ _ ys' E). reflexivity.
    + inversion H; subst ys. reflexivity.
Qed.

Lemma run_app (ps qs : list (num * num)) (acc : Acc) :
  run (ps ++ qs) acc = run qs (run ps acc).
Proof. apply fold_left_app. Qed.

Lemma loop_x_run (inner fuel : nat) (x : num) (acc : Acc)
    (xs ys : list num) :
  counter_values fuel x spacing (xMax box) = Some xs ->
  counter_values inner (yMin box) spacing (yMax box) = Some ys ->
  loop_x rnd top bottom fs layers box spacing inner fuel x acc =
  Some (run (list_prod xs ys) acc).
Proof.
  intros Hx Hy. revert x acc xs Hx.
  induction fuel as [| fuel IH]; intros x acc xs Hx;
    cbn [counter_values loop_x] in *.
  - discriminate.
  - destruct (x <=? xMax box)%js.
    + destruct (counter_values fuel (x + spacing)%js spacing (xMax box))
        as [xs' |] eqn:E; [| discriminate].
      inversion Hx; subst xs.
      rewrite (loop_y_run inner x (yMin box) acc ys Hy).
      rewrite (IH _ _ xs' E). cbn [list_prod]. now rewrite run_app.
    + inversion Hx; subst xs. reflexivity.
Qed.

(** A position where the top is not above the base changes nothing. *)
Lemma sample_position_skip (x y : num) (acc : Acc) :
  (Tool.geologicalInterpolation x y top
   <=? Tool.geologicalInterpolation x y bottom)%js = true ->
  sample x y acc = acc.
Proof.
  intros H. unfold sample, sample_position. now rewrite H.
Qed.

(** The layer loop appends one cell per layer at the rounded position. *)
Lemma layers_append (x y bottomZ thickness layerThickness : num)
    (idxs : list nat) (acc : Acc) :
  exists new,
    acc_grid (fold_left
                (layer_step rnd fs layers spacing x y bottomZ thickness
                   layerThickness) idxs acc)
    = acc_grid acc ++ new /\
    map layer new = idxs /\
    Forall (fun c => cx c = round_to 100 x /\ cy c = round_to 100 y) new.
Proof.
  revert acc. induction idxs as [| i idxs IH]; intros acc; cbn [fold_left].
  - exists []. rewrite app_nil_r. repeat split. constructor.
  - destruct (IH (layer_step rnd fs layers spacing x y bottomZ thickness
                    layerThickness acc i)) as (new & E & Hl & Hf).
    rewrite E. cbn [layer_step acc_grid]. rewrite <- app_assoc.
    eexists. split; [reflexivity |]. split.
    + cbn. now rewrite Hl.
    + constructor; [split; reflexivity | exact Hf].
Qed.

Lemma sample_position_appends (x y : num) (acc : Acc) :
  exists new,
    acc_grid (sample x y acc) = acc_grid acc ++ new /\
    Forall (fun c => cx c = round_to 100 x /\ cy c = round_to 100 y) new.
Proof.
  unfold sample, sample_position.
  destruct (_ <=? _)%js.
  - exists []. rewrite app_nil_r. split; [reflexivity | constructor].
  - destruct (layers_append x y
                (Tool.geologicalInterpolation x y bottom)
                (Tool.geologicalInterpolation x y top
                 - Tool.geologicalInterpolation x y bottom)%js
                ((Tool.geologicalInterpolation x y top
                  - Tool.geologicalInterpolation x y bottom)
                 / of_nat (layers + 1))%js
                (seq 0 (layers + 2)) acc) as (new & E & _ & Hf).
    exists new. split; assumption.
Qed.

(** Every cell a run adds is stored at the rounded coordinates of one
    of the positions it visited. *)
Lemma run_appends (ps : list (num * num)) (acc : Acc) :
  exists new,
    acc_grid (run ps acc) = acc_grid acc ++ new /\
    Forall (fun c => exists p, In p ps /\
              cx c = round_to 100 (fst p) /\ cy c = round_to 100 (snd p))
           new.
Proof.
  revert acc. induction ps as [| p ps IH]; intros acc.
  - exists []. rewrite app_nil_r. split; [reflexivity | constructor].
  - unfold run, run_positions. cbn [fold_left].
    destruct (sample_position_appends (fst p) (snd p) acc) as (n1 & E1 & F1).
    destruct (IH (sample (fst p) (snd p) acc)) as (n2 & E2 & F2).
    exists (n1 ++ n2). split.
    + unfold run, run_positions, sample in *. rewrite E2, E1.
      now rewrite app_assoc.
    + apply Forall_app. split.
      * eapply Forall_impl; [| exact F1]. intros c [Hx Hy].
        exists p. split; [now left | now split].
      * eapply Forall_impl; [| exact F2]. intros c (q & Hq & Hc).
        exists q. split; [now right | exact Hc].
Qed.
Lemma layers_count (x y bottomZ thickness layerThickness : num)
    (idxs : list nat) (acc : Acc) :
  acc_pointCount
    (fold_left
       (layer_step rnd fs layers spacing x y bottomZ thickness layerThickness)
       idxs acc)
  = (acc_pointCount acc + List.length idxs)%nat.
Proof.
  revert acc. induction idxs as [| i idxs IH]; intros acc; cbn [fold_left].
  - cbn. lia.
  - rewrite IH. cbn. lia.
Qed.

(** A kept position adds one cell per layer to the count, a skipped
    one nothing. *)
Lemma run_count (ps : list (num * num)) (acc : Acc) :
  acc_pointCount (run ps acc)
  = (acc_pointCount acc
     + (layers + 2) * List.length (filter (retained top bottom) ps))%nat.
Proof.
  revert acc. induction ps as [| p ps IH]; intros acc.
  - cbn. lia.
  - unfold run_positions in *. cbn [fold_left filter]. rewrite IH.
    unfold sample_position, retained.
    destruct (_ <=? _)%js; cbn [negb].
    + lia.
    + rewrite layers_count, length_seq. cbn [List.length]. lia.
Qed.
End Loops.

(* ================================================================== *)
(** * Degenerate positions *)
(* ================================================================== *)

(** C9.  At a sampling position where the interpolated top is not above
    the interpolated base, the loop body returns its accumulator as it
    received it: no cell is emitted, nothing is thrown, the cell count
    and the random stream are untouched; hence a run over a lattice with
    such a position ends exactly as the run over the lattice without it,
    and the final count is the number of layers times the number of kept
    positions among the others. *)
Theorem degenerate_position_is_skipped :
  forall (rnd : nat -> R) (top bottom : list Point) (fs : list DataSet)
         (layers : nat) (spacing x y : num),
    (Tool.geologicalInterpolation x y top
     <=? Tool.geologicalInterpolation x y bottom)%js = true ->
    (forall acc : Acc,
        sample_position rnd top bottom fs layers spacing x y acc = acc) /\
    (forall (before after : list (num * num)) (acc : Acc),
        run_positions rnd top bottom fs layers spacing
          (before ++ (x, y) :: after) acc =
        run_positions rnd top bottom fs layers spacing (before ++ after) acc) /\
    (forall (before after : list (num * num)) (acc : Acc),
        acc_pointCount
          (run_positions rnd top bottom fs layers spacing
             (before ++ (x, y) :: after) acc)
        = (acc_pointCount acc
           + (layers + 2)
             * List.length (filter (retained top bottom) (before ++ after)))%nat).
Proof.
  intros rnd top bottom fs layers spacing x y H.
  assert (Hskip : forall acc,
             sample_position rnd top bottom fs layers spacing x y acc = acc).
  { intros acc. now apply sample_position_skip. }
  assert (Hrun : forall before after acc,
             run_positions rnd top bottom fs layers spacing
               (before ++ (x, y) :: after) acc =
             run_positions rnd top bottom fs layers spacing
               (before ++ after) acc).
  { intros before after acc. rewrite !run_app.
    unfold run_positions at 1. cbn [fold_left fst snd]. now rewrite Hskip. }
  split; [exact Hskip |]. split; [exact Hrun |].
  intros before after acc. rewrite Hrun. apply run_count.
Qed.

Lemma single_sample_interpolation (z : R) :
  Tool.geologicalInterpolation (Fin 0) (Fin 0)
    [ mkPoint (Fin 0) (Fin 0) (Fin z) None ] = Fin z.
Proof.
  apply (tool_interpolation_short_circuit (Fin 0) (Fin 0) [] []
           (mkPoint (Fin 0) (Fin 0) (Fin z) None) 0).
  - exact (planar_distance_self (mkPoint (Fin 0) (Fin 0) (Fin z) None) I I).
  - lra.
  - intros q [].
Qed.

Lemma degenerate_position_is_skipped_witness :
  (forall acc : Acc,
      sample_position half_stream inverted_top inverted_base [] 3 (Fin 20)
        (Fin 0) (Fin 0) acc = acc) /\
  (forall (before after : list (num * num)) (acc : Acc),
      run_positions half_stream inverted_top inverted_base [] 3 (Fin 20)
        (before ++ (Fin 0, Fin 0) :: after) acc =
      run_positions half_stream inverted_top inverted_base [] 3 (Fin 20)
        (before ++ after) acc) /\
  (forall (before after : list (num * num)) (acc : Acc),
      acc_pointCount
        (run_positions half_stream inverted_top inverted_base [] 3 (Fin 20)
           (before ++ (Fin 0, Fin 0) :: after) acc)
      = (acc_pointCount acc
         + (3 + 2)
           * List.length
               (filter (retained inverted_top inverted_base)
                  (before ++ after)))%nat).
Proof.
  apply (degenerate_position_is_skipped half_stream inverted_top inverted_base
           [] 3 (Fin 20) (Fin 0) (Fin 0)).
  unfold inverted_top, inverted_base.
  rewrite !single_sample_interpolation. cbn. apply Rleb_true. lra.
Defined.

(* ================================================================== *)
(** * Loop counters *)
(* ================================================================== *)

Lemma counter_values_S (fuel : nat) (v step stop : num) :
  counter_values (S fuel) v step stop =
  if (v <=? stop)%js
  then option_map (cons v) (counter_values fuel (v + step)%js step stop)
  else Some [].
Proof. reflexivity. Qed.

Lemma counter_values_terminates (fuel : nat) (v s stop : R) :
  0 < s -> stop < v + INR fuel * s ->
  exists l, counter_values (S fuel) (Fin v) (Fin s) (Fin stop) = Some l.
Proof.
  intros Hs. revert v. induction fuel as [| fuel IH]; intros v H.
  - cbn. simpl INR in H. rewrite Rleb_false by lra. now exists [].
  - rewrite counter_values_S. cbn [Js.leb Js.add]. destruct (Rleb v stop).
    + destruct (IH (v + s)) as [l Hl].
      * rewrite S_INR in H. lra.
      * rewrite Hl. cbn. now eexists.
    + now exists [].
Qed.

(** Each value is the start plus a whole number of steps, and passed
    the loop test. *)
Lemma counter_values_spec (fuel : nat) (v s stop : R) (l : list num) :
  counter_values fuel (Fin v) (Fin s) (Fin stop) = Some l ->
  Forall (fun e => exists k : nat,
            e = Fin (v + INR k * s) /\ v + INR k * s <= stop) l.
Proof.
  revert v l. induction fuel as [| fuel IH]; intros v l H;
    cbn [counter_values Js.leb Js.add] in H.
  - discriminate.
  - destruct (Rleb v stop) eqn:E.
    + destruct (counter_values fuel (Fin (v + s)) (Fin s) (Fin stop))
        as [l' |] eqn:E'; [| discriminate].
      inversion H; subst l. constructor.
      * exists 0%nat. simpl INR. apply Rleb_spec in E.
        split; [f_equal; ring | lra].
      * eapply Forall_impl; [| apply (IH _ _ E')].
        intros e (k & -> & Hk). exists (S k). rewrite S_INR.
        split; [f_equal; ring | lra].
    + inversion H. constructor.
Qed.

(** After the first value, every value is at least one step further. *)
Lemma counter_values_head (fuel : nat) (v s stop : R) (l : list num) :
  0 <= s -> v <= stop ->
  counter_values fuel (Fin v) (Fin s) (Fin stop) = Some l ->
  exists rest,
    l = Fin v :: rest /\
    Forall (fun e => exists w, e = Fin w /\ v + s <= w) rest.
Proof.
  intros Hs Hv H. destruct fuel as [| fuel]; cbn [counter_values Js.leb Js.add] in H.
  - discriminate.
  - rewrite Rleb_true in H by exact Hv.
    destruct (counter_values fuel (Fin (v + s)) (Fin s) (Fin stop))
      as [l' |] eqn:E'; [| discriminate].
    inversion H; subst l. exists l'. split; [reflexivity |].
    eapply Forall_impl; [| apply (counter_values_spec _ _ _ _ _ E')].
    intros e (k & -> & _). eexists. split; [reflexivity |].
    pose proof (pos_INR k). nra.
Qed.

(* ================================================================== *)
(** * A build as a run over the lattice *)
(* ================================================================== *)

Lemma generate_as_run (rnd : nat -> R) (now fuel : nat) (st : AppState)
    (top bottom : DataSet) (others : list DataSet) (xs ys : list num) :
  horizonData st = top :: bottom :: others ->
  (horizon_samples st <= argument_limit st)%N ->
  let b := horizon_bounds (ds_points top) (ds_points bottom) in
  counter_values fuel (xMin b) (grid_spacing b) (xMax b) = Some xs ->
  counter_values fuel (yMin b) (grid_spacing b) (yMax b) = Some ys ->
  exists (st' : AppState) (g : Grid),
    generateGeologicalGrid rnd now fuel st = Some (Returned tt, st') /\
    grids st' = grids st ++ [g] /\
    bounds g = b /\
    points g =
      acc_grid
        (run_positions rnd (ds_points top) (ds_points bottom) (faultData st)
           (numLayers st) (grid_spacing b) (list_prod xs ys)
           {| acc_grid := []; acc_totalVolume := Fin 0;
              acc_pointCount := 0; acc_seed := seed st |}).
Proof.
  intros Hh Hlim b Hx Hy.
  rewrite (generate_within_limit rnd now fuel st top bottom others Hh Hlim).
  unfold sample_and_register.
  fold b. rewrite (loop_x_run rnd _ _ _ _ b _ fuel fuel _ _ xs ys Hx Hy).
  eexists. eexists. split; [reflexivity |]. repeat split.
Qed.

(* ================================================================== *)
(** * Flat horizons *)
(* ================================================================== *)

Lemma leb_trans_fin (a b c : num) :
  finite a -> finite b -> finite c ->
  (a <=? b)%js = true -> (b <=? c)%js = true -> (a <=? c)%js = true.
Proof.
  destruct a, b, c; try contradiction. intros _ _ _. cbn.
  rewrite !Rleb_spec. lra.
Qed.

(** On finite keys the first element of the sorted array has a least key. *)
Lemma sort_by_head_min {A : Type} (key : A -> num) (l : list A) (h : A)
    (t : list A) :
  (forall b, In b l -> finite (key b)) ->
  sort_by key l = h :: t ->
  forall b, In b l -> (key h <=? key b)%js = true.
Proof.
  revert h t. induction l as [| a l IH]; intros h t Hfin Hs b Hb.
  - destruct Hb.
  - cbn [sort_by] in Hs.
    assert (Ha : finite (key a)) by (apply Hfin; now left).
    destruct (sort_by key l) as [| h' t'] eqn:E.
    + cbn in Hs. inversion Hs; subst h t.
      assert (l = []) as ->.
      { apply length_zero_iff_nil. rewrite <- (sort_by_length key), E.
        reflexivity. }
      destruct Hb as [<- | []].
      destruct (key a); try contradiction. cbn. apply Rleb_true. lra.
    + assert (Hh' : In h' l).
      { apply (Permutation_in h' (sort_by_perm key l)). rewrite E. now left. }
      assert (Hfh : finite (key h')) by (apply Hfin; now right).
      assert (IHl : forall c, In c l -> (key h' <=? key c)%js = true).
      { intros c Hc. apply (IH h' t'); auto. intros d Hd. apply Hfin. now right. }
      cbn [insert_by] in Hs.
      destruct (key a) as [| | ka |] eqn:Eka; try contradiction.
      destruct (key h') as [| | kh |] eqn:Ekh; try contradiction.
      unfold gtb in Hs. cbn [Js.sub Js.ltb] in Hs.
      destruct (Rltb 0 (ka - kh)) eqn:Ecmp.
      * inversion Hs; subst h t. rewrite Ekh.
        destruct Hb as [<- | Hb].
        -- rewrite Eka. cbn. apply Rltb_spec in Ecmp. apply Rleb_true. lra.
        -- now apply IHl.
      * inversion Hs; subst h t. rewrite Eka.
        destruct Hb as [<- | Hb].
        -- rewrite Eka. cbn. apply Rleb_true. lra.
        -- assert (Hkb : finite (key b)) by (apply Hfin; now right).
           apply (leb_trans_fin (Fin ka) (Fin kh) (key b)); try easy.
           ++ cbn. apply Rleb_true.
              unfold Rltb in Ecmp. destruct (Rlt_dec 0 (ka - kh)); [discriminate | lra].
           ++ now apply IHl.
Qed.

Lemma sum_squares_nonneg (u v : R) : 0 <= u * u + v * v.
Proof.
  apply Rplus_le_le_0_compat; apply Rle_0_sqr.
Qed.

Lemma planar_distance_finite (x y : R) (p : Point) :
  finite (px p) -> finite (py p) ->
  finite (planar_distance (Fin x) (Fin y) p).
Proof.
  unfold planar_distance.
  destruct (px p) as [| | a |], (py p) as [| | b |]; try contradiction.
  intros _ _. cbn. rewrite Rltb_false by apply sum_squares_nonneg. exact I.
Qed.

(** Where some sample is closer than one unit, a horizon whose samples
    all have elevation [z] is interpolated to [z]. *)
Lemma tool_interpolation_flat (x y z d0 : R) (pts : list Point) (p0 : Point) :
  (forall p, In p pts -> finite (px p) /\ finite (py p) /\ pz p = Fin z) ->
  In p0 pts ->
  planar_distance (Fin x) (Fin y) p0 = Fin d0 -> d0 < 1 ->
  Tool.geologicalInterpolation (Fin x) (Fin y) pts = Fin z.
Proof.
  intros Hpts Hin Hd Hlt. unfold Tool.geologicalInterpolation.
  destruct pts as [| p1 pts']; [destruct Hin |].
  set (pts := p1 :: pts') in *.
  set (ranked := map (fun p => mkRanked p (planar_distance (Fin x) (Fin y) p)) pts).
  unfold nearest. fold ranked.
  destruct (sort_by distance ranked) as [| h t] eqn:E.
  - apply (f_equal (@List.length _)) in E.
    rewrite sort_by_length in E. unfold ranked in E. rewrite length_map in E.
    discriminate.
  - assert (Hh : In h ranked).
    { apply (Permutation_in h (sort_by_perm distance ranked)). rewrite E. now left. }
    apply in_map_iff in Hh. destruct Hh as (ph & Hph & Hphin).
    assert (Hmin : (distance h <=? Fin d0)%js = true).
    { rewrite <- Hd.
      apply (sort_by_head_min distance ranked h t) with
        (b := mkRanked p0 (planar_distance (Fin x) (Fin y) p0)); auto.
      - intros b Hb. apply in_map_iff in Hb. destruct Hb as (q & <- & Hq).
        cbn. destruct (Hpts q Hq) as (Hx & Hy & _).
        now apply planar_distance_finite.
      - apply in_map_iff. now exists p0. }
    replace (Nat.min 6 (List.length pts))
      with (S (Nat.min 5 (List.length pts'))) by reflexivity.
    cbn [firstn].
    assert (Hf : finite (distance h)).
    { rewrite <- Hph. cbn. destruct (Hpts ph Hphin) as (Hx & Hy & _).
      now apply planar_distance_finite. }
    destruct (distance h) as [| | dh |] eqn:Edh; try contradiction.
    cbn in Hmin. apply Rleb_spec in Hmin.
    cbn [Js.ltb]. rewrite Rltb_true by lra.
    rewrite <- Hph. cbn. now destruct (Hpts ph Hphin) as (_ & _ & ->).
Qed.

(* ================================================================== *)
(** * Least and greatest of a list *)
(* ================================================================== *)

Lemma fold_min_fin (l : list R) (a : R) :
  exists m, fold_left Js.min (map Fin l) (Fin a) = Fin m /\
            (m = a \/ In m l) /\ m <= a /\ (forall v, In v l -> m <= v).
Proof.
  revert a. induction l as [| x l IH]; intros a; cbn [map fold_left].
  - exists a. repeat split; auto; try lra. intros v [].
  - cbn [Js.min]. destruct (IH (Rmin a x)) as (m & E & Hm & Hle & Hall).
    exists m. split; [exact E |].
    pose proof (Rmin_l a x). pose proof (Rmin_r a x).
    repeat split.
    + destruct Hm as [-> | Hm]; [| right; now right].
      unfold Rmin. destruct (Rle_dec a x); [now left | right; now left].
    + lra.
    + intros v [<- | Hv]; [lra | now apply Hall].
Qed.

Lemma fold_max_fin (l : list R) (a : R) :
  exists m, fold_left Js.max (map Fin l) (Fin a) = Fin m /\
            (m = a \/ In m l) /\ a <= m /\ (forall v, In v l -> v <= m).
Proof.
  revert a. induction l as [| x l IH]; intros a; cbn [map fold_left].
  - exists a. repeat split; auto; try lra. intros v [].
  - cbn [Js.max]. destruct (IH (Rmax a x)) as (m & E & Hm & Hle & Hall).
    exists m. split; [exact E |].
    pose proof (Rmax_l a x). pose proof (Rmax_r a x).
    repeat split.
    + destruct Hm as [-> | Hm]; [| right; now right].
      unfold Rmax. destruct (Rle_dec a x); [right; now left | now left].
    + lra.
    + intros v [<- | Hv]; [lra | now apply Hall].
Qed.

Lemma min_list_fin (x : R) (l : list R) :
  exists m, min_list (map Fin (x :: l)) = Fin m /\
            In m (x :: l) /\ (forall v, In v (x :: l) -> m <= v).
Proof.
  unfold min_list. cbn [map fold_left Js.min].
  destruct (fold_min_fin l x) as (m & E & Hm & Hle & Hall).
  exists m. split; [exact E |]. split.
  - destruct Hm as [-> | Hm]; [now left | now right].
  - intros v [<- | Hv]; [exact Hle | now apply Hall].
Qed.

Lemma max_list_fin (x : R) (l : list R) :
  exists m, max_list (map Fin (x :: l)) = Fin m /\
            In m (x :: l) /\ (forall v, In v (x :: l) -> v <= m).
Proof.
  unfold max_list. cbn [map fold_left Js.max].
  destruct (fold_max_fin l x) as (m & E & Hm & Hle & Hall).
  exists m. split; [exact E |]. split.
  - destruct Hm as [-> | Hm]; [now left | now right].
  - intros v [<- | Hv]; [exact Hle | now apply Hall].
Qed.

(** A list of finite numbers is the image of a list of reals. *)
Lemma finite_list_reals (l : list num) :
  Forall finite l -> exists rs, l = map Fin rs.
Proof.
  induction 1 as [| a l Ha _ (rs & ->)].
  - now exists [].
  - destruct a as [| | r |]; try contradiction. now exists (r :: rs).
Qed.

Lemma min_list_is_min (l : list num) :
  l <> [] -> Forall finite l -> is_min (min_list l) l.
Proof.
  intros Hne Hfin. destruct (finite_list_reals l Hfin) as (rs & ->).
  destruct rs as [| x rs]; [now destruct Hne |].
  destruct (min_list_fin x rs) as (m & -> & Hin & Hall).
  split.
  - now apply in_map.
  - intros v Hv. apply in_map_iff in Hv. destruct Hv as (r & <- & Hr).
    cbn. apply Rleb_true. now apply Hall.
Qed.

Lemma max_list_is_max (l : list num) :
  l <> [] -> Forall finite l -> is_max (max_list l) l.
Proof.
  intros Hne Hfin. destruct (finite_list_reals l Hfin) as (rs & ->).
  destruct rs as [| x rs]; [now destruct Hne |].
  destruct (max_list_fin x rs) as (m & -> & Hin & Hall).
  split.
  - now apply in_map.
  - intros v Hv. apply in_map_iff in Hv. destruct Hv as (r & <- & Hr).
    cbn. apply Rleb_true. now apply Hall.
Qed.

Lemma is_min_unique (m : num) (a : R) (l : list num) :
  is_min m l -> In (Fin a) l ->
  (forall v, In v l -> (Fin a <=? v)%js = true) -> m = Fin a.
Proof.
  intros [Hin Hle] Ha Hall.
  specialize (Hle _ Ha). specialize (Hall _ Hin).
  destruct m as [| | r |]; cbn in *; try discriminate.
  apply Rleb_spec in Hle, Hall. f_equal. lra.
Qed.

Lemma is_max_unique (m : num) (a : R) (l : list num) :
  is_max m l -> In (Fin a) l ->
  (forall v, In v l -> (v <=? Fin a)%js = true) -> m = Fin a.
Proof.
  intros [Hin Hle] Ha Hall.
  specialize (Hle _ Ha). specialize (Hall _ Hin).
  destruct m as [| | r |]; cbn in *; try discriminate.
  apply Rleb_spec in Hle, Hall. f_equal. lra.
Qed.

Lemma envelope_is_envelope {A : Type} (x y z : A -> num) (l : list A) :
  l <> [] ->
  (forall a, In a l -> finite (x a) /\ finite (y a) /\ finite (z a)) ->
  is_envelope x y z (envelope x y z l) l.
Proof.
  intros Hne Hfin.
  assert (Hmap : forall f : A -> num, map f l <> []).
  { intros f H. apply map_eq_nil in H. contradiction. }
  assert (Hf : forall f : A -> num,
             (forall a, In a l -> finite (f a)) -> Forall finite (map f l)).
  { intros f H. apply Forall_forall. intros v Hv. apply in_map_iff in Hv.
    destruct Hv as (a & <- & Ha). now apply H. }
  unfold is_envelope, envelope. cbn.
  repeat split;
    first [ apply min_list_is_min | apply max_list_is_max ];
    try apply Hmap; apply Hf; intros a Ha; apply (Hfin a Ha).
Qed.

(* ================================================================== *)
(** * The flat unfaulted slab *)
(* ================================================================== *)

Lemma in_flat_horizon (z : R) (p : Point) :
  In p (flat_horizon z) <->
  exists i j : nat,
    (i < 10)%nat /\ (j < 10)%nat /\
    p = mkPoint (Fin (100 * INR i)) (Fin (100 * INR j)) (Fin z) None.
Proof.
  unfold flat_horizon. rewrite in_flat_map. split.
  - intros (i & Hi & Hp). apply in_map_iff in Hp. destruct Hp as (j & <- & Hj).
    apply in_seq in Hi, Hj. exists i, j. repeat split; lia.
  - intros (i & j & Hi & Hj & ->). exists i. split.
    + apply in_seq. lia.
    + apply in_map_iff. exists j. split; [reflexivity | apply in_seq; lia].
Qed.

Lemma small_index (i : nat) : (i < 10)%nat -> 0 <= INR i <= 9.
Proof.
  intros H. split; [apply pos_INR |].
  replace 9 with (INR 9) by (simpl; lra). apply le_INR. lia.
Qed.

Lemma in_slab (z1 z2 : R) (p : Point) :
  In p (flat_horizon z2 ++ flat_horizon z1) ->
  exists (a b c : R),
    p = mkPoint (Fin a) (Fin b) (Fin c) None /\
    0 <= a <= 900 /\ 0 <= b <= 900 /\ (c = z1 \/ c = z2).
Proof.
  intros H. apply in_app_or in H.
  destruct H as [H | H]; apply in_flat_horizon in H;
    destruct H as (i & j & Hi & Hj & ->);
    apply small_index in Hi, Hj;
    exists (100 * INR i), (100 * INR j); eexists;
    (split; [reflexivity |]); repeat split; try lra; auto.
Qed.

Lemma corner_in_flat_horizon (z : R) (i j : nat) (a b : R) :
  (i < 10)%nat -> (j < 10)%nat -> a = 100 * INR i -> b = 100 * INR j ->
  In (mkPoint (Fin a) (Fin b) (Fin z) None) (flat_horizon z).
Proof.
  intros Hi Hj -> ->. apply in_flat_horizon. now exists i, j.
Qed.

Lemma slab_bounds (z1 z2 : R) :
  z1 <= z2 ->
  horizon_bounds (flat_horizon z2) (flat_horizon z1) =
  {| xMin := Fin 0; xMax := Fin 900; yMin := Fin 0; yMax := Fin 900;
     zMin := Fin z1; zMax := Fin z2 |}.
Proof.
  intros Hz. unfold horizon_bounds.
  set (l := flat_horizon z2 ++ flat_horizon z1).
  assert (Hlow : In (mkPoint (Fin 0) (Fin 0) (Fin z1) None) l).
  { apply in_or_app. right.
    apply (corner_in_flat_horizon z1 0 0); simpl; try lia; lra. }
  assert (Hhigh : In (mkPoint (Fin 900) (Fin 900) (Fin z2) None) l).
  { apply in_or_app. left.
    apply (corner_in_flat_horizon z2 9 9); simpl; try lia; lra. }
  assert (Henv : is_envelope px py pz (envelope px py pz l) l).
  { apply envelope_is_envelope.
    - intros E. rewrite E in Hlow. destruct Hlow.
    - intros p Hp. destruct (in_slab z1 z2 p Hp) as (a & b & c & -> & _).
      cbn. auto. }
  destruct Henv as (Hx0 & Hx1 & Hy0 & Hy1 & Hz0 & Hz1).
  assert (Hall : forall (f : Point -> num) (v : num), In v (map f l) ->
                 exists p, In p l /\ v = f p).
  { intros f v Hv. apply in_map_iff in Hv. destruct Hv as (p & <- & Hp). eauto. }
  destruct (envelope px py pz l) as [x0 x1 y0 y1 z0 z1'] eqn:E.
  cbn [xMin xMax yMin yMax zMin zMax] in *.
  f_equal.
  - apply (is_min_unique _ _ _ Hx0); [apply (in_map px _ _ Hlow) |].
    intros v Hv. destruct (Hall _ _ Hv) as (p & Hp & ->).
    destruct (in_slab z1 z2 p Hp) as (a & b & c & -> & Ha & Hb & Hc).
    cbn. apply Rleb_true. lra.
  - apply (is_max_unique _ _ _ Hx1); [apply (in_map px _ _ Hhigh) |].
    intros v Hv. destruct (Hall _ _ Hv) as (p & Hp & ->).
    destruct (in_slab z1 z2 p Hp) as (a & b & c & -> & Ha & Hb & Hc).
    cbn. apply Rleb_true. lra.
  - apply (is_min_unique _ _ _ Hy0); [apply (in_map py _ _ Hlow) |].
    intros v Hv. destruct (Hall _ _ Hv) as (p & Hp & ->).
    destruct (in_slab z1 z2 p Hp) as (a & b & c & -> & Ha & Hb & Hc).
    cbn. apply Rleb_true. lra.
  - apply (is_max_unique _ _ _ Hy1); [apply (in_map py _ _ Hhigh) |].
    intros v Hv. destruct (Hall _ _ Hv) as (p & Hp & ->).
    destruct (in_slab z1 z2 p Hp) as (a & b & c & -> & Ha & Hb & Hc).
    cbn. apply Rleb_true. lra.
  - apply (is_min_unique _ _ _ Hz0); [apply (in_map pz _ _ Hlow) |].
    intros v Hv. destruct (Hall _ _ Hv) as (p & Hp & ->).
    destruct (in_slab z1 z2 p Hp) as (a & b & c & -> & Ha & Hb & Hc).
    cbn. apply Rleb_true. lra.
  - apply (is_max_unique _ _ _ Hz1); [apply (in_map pz _ _ Hhigh) |].
    intros v Hv. destruct (Hall _ _ Hv) as (p & Hp & ->).
    destruct (in_slab z1 z2 p Hp) as (a & b & c & -> & Ha & Hb & Hc).
    cbn. apply Rleb_true. lra.
Qed.

Lemma slab_interpolation_at_origin (z : R) :
  Tool.geologicalInterpolation (Fin 0) (Fin 0) (flat_horizon z) = Fin z.
Proof.
  apply (tool_interpolation_flat 0 0 z 0 (flat_horizon z)
           (mkPoint (Fin 0) (Fin 0) (Fin z) None)).
  - intros p Hp. apply in_flat_horizon in Hp.
    destruct Hp as (i & j & _ & _ & ->). cbn. auto.
  - apply (corner_in_flat_horizon z 0 0); simpl; try lia; lra.
  - exact (planar_distance_self (mkPoint (Fin 0) (Fin 0) (Fin z) None) I I).
  - lra.
Qed.

Lemma round_to_fin (s w : R) :
  0 < s -> round_to s (Fin w) = Fin (Rround (w * s) / s).
Proof.
  intros Hs. unfold round_to. cbn. now rewrite Reqb_false by lra.
Qed.

Lemma round_to_ge (s w lo : R) (k : Z) :
  0 < s -> lo * s = IZR k -> lo <= w ->
  exists v, round_to s (Fin w) = Fin v /\ lo <= v.
Proof.
  intros Hs Hk Hw. rewrite round_to_fin by exact Hs.
  eexists. split; [reflexivity |].
  assert (H : Rround (lo * s) <= Rround (w * s)) by (apply Rround_le; nra).
  rewrite Hk, Rround_IZR, <- Hk in H.
  apply Rmult_le_reg_r with s; [exact Hs |].
  unfold Rdiv. rewrite Rmult_assoc, Rinv_l by lra. lra.
Qed.

(** One layer of the column at the origin of the slab. *)
Lemma slab_origin_layer (rnd : nat -> R) (lt : num) (acc : Acc) (idx : nat) :
  exists c,
    acc_grid (layer_step rnd [] 3 (Fin 20) (Fin 0) (Fin 0) (Fin 900)
                (Fin (1000 - 900)) lt acc idx)
    = acc_grid acc ++ [c] /\
    cx c = Fin 0 /\ cy c = Fin 0 /\
    cz c = Fin (900 + 25 * INR idx) /\ layer c = idx.
Proof.
  eexists. split; [reflexivity |].
  cbn [cx cy cz layer].
  assert (H0 : round_to 100 (Fin 0) = Fin 0).
  { rewrite round_to_fin by lra.
    rewrite (Rround_int _ 0) by lra. f_equal. lra. }
  split; [exact H0 |]. split; [exact H0 |]. split; [| reflexivity].
  unfold calculateAdvancedFaultInfluence, fault_scan, of_nat.
  cbn [fold_left totalInfluence displacement Js.mul Js.sub Js.add Js.sin Js.cos
         Js.div throw tool_fault_consts].
  rewrite (Reqb_false (INR (3 + 1))) by (simpl; lra).
  cbn [Js.mul Js.add]. rewrite round_to_fin by lra.
  f_equal.
  replace (0 * (8 / 10000)) with 0 by ring.
  replace (0 * (6 / 10000)) with 0 by ring.
  rewrite sin_0, cos_0.
  match goal with
  | |- context [Rround ?e] =>
      replace e with (IZR (90000 + 2500 * Z.of_nat idx)%Z)
  end.
  - rewrite Rround_IZR, plus_IZR, mult_IZR, <- INR_IZR_INZ. field.
  - rewrite plus_IZR, mult_IZR, <- INR_IZR_INZ. simpl INR. field.
Qed.

Lemma slab_origin_layers (rnd : nat -> R) (lt : num) (idxs : list nat)
    (acc : Acc) :
  exists new,
    acc_grid (fold_left
                (layer_step rnd [] 3 (Fin 20) (Fin 0) (Fin 0) (Fin 900)
                   (Fin (1000 - 900)) lt) idxs acc)
    = acc_grid acc ++ new /\
    Forall (fun c => at_origin c = true) new /\
    map (fun c => (cz c, layer c)) new =
    map (fun i => (Fin (900 + 25 * INR i), i)) idxs.
Proof.
  revert acc. induction idxs as [| i idxs IH]; intros acc; cbn [fold_left map].
  - exists []. rewrite app_nil_r. repeat split. constructor.
  - destruct (slab_origin_layer rnd lt acc i) as (c & E & Hx & Hy & Hz & Hl).
    destruct (IH (layer_step rnd [] 3 (Fin 20) (Fin 0) (Fin 0) (Fin 900)
                    (Fin (1000 - 900)) lt acc i)) as (new & E' & Hf & Hm).
    exists (c :: new). split; [| split].
    + rewrite E', E, <- app_assoc. reflexivity.
    + constructor; [| exact Hf].
      unfold at_origin. rewrite Hx, Hy. cbn. now rewrite Reqb_true.
    + cbn [map]. now rewrite Hz, Hl, Hm.
Qed.

Lemma slab_origin_column (rnd : nat -> R) (acc : Acc) :
  exists new,
    acc_grid (sample_position rnd (flat_horizon 1000) (flat_horizon 900) [] 3
                (Fin 20) (Fin 0) (Fin 0) acc)
    = acc_grid acc ++ new /\
    Forall (fun c => at_origin c = true) new /\
    map (fun c => (cz c, layer c)) new =
    map (fun i => (Fin (900 + 25 * INR i), i)) (seq 0 5).
Proof.
  unfold sample_position. rewrite !slab_interpolation_at_origin.
  cbn [Js.leb Js.sub]. rewrite Rleb_false by lra.
  apply slab_origin_layers.
Qed.

(** Cells stored at a position at least 20 away from an axis are not at
    the origin. *)
Lemma away_from_origin (c : Cell) (p : num * num) (w : R) :
  cx c = round_to 100 (fst p) -> cy c = round_to 100 (snd p) ->
  (fst p = Fin w \/ snd p = Fin w) -> 20 <= w ->
  at_origin c = false.
Proof.
  intros Hx Hy Hp Hw. unfold at_origin.
  destruct Hp as [Hp | Hp]; rewrite Hp in *;
    destruct (round_to_ge 100 w 20 2000) as (v & Hv & Hle); try lra.
  - rewrite Hx, Hv. cbn. rewrite Reqb_false by lra. reflexivity.
  - rewrite Hy, Hv. cbn. rewrite Reqb_false by lra. apply andb_false_r.
Qed.

Lemma filter_none {A : Type} (f : A -> bool) (l : list A) :
  Forall (fun a => f a = false) l -> filter f l = [].
Proof.
  induction 1 as [| a l Ha _ IH]; cbn; [reflexivity | now rewrite Ha].
Qed.

Lemma filter_all {A : Type} (f : A -> bool) (l : list A) :
  Forall (fun a => f a = true) l -> filter f l = l.
Proof.
  induction 1 as [| a l Ha _ IH]; cbn; [reflexivity | now rewrite Ha, IH].
Qed.

(** C4.  For the flat unfaulted slab (top at 1000 and base at 900 on a
    10 x 10 lattice of spacing 100, no fault systems, three layers) the
    build finishes, and the grid it registers holds at position (0, 0)
    exactly five cells, of layers 0 to 4 and elevations 900, 925, 950,
    975 and 1000, whatever the random stream. *)
Theorem slab_column_at_origin :
  forall (rnd : nat -> R) (now : nat),
  exists (st' : AppState) (g : Grid),
    generateGeologicalGrid rnd now 47 slab_state = Some (Returned tt, st') /\
    grids st' = [g] /\
    map (fun c => (cz c, layer c)) (filter at_origin (points g)) =
    [ (Fin 900, 0%nat); (Fin 925, 1%nat); (Fin 950, 2%nat);
      (Fin 975, 3%nat); (Fin 1000, 4%nat) ].
Proof.
  intros rnd now.
  assert (Hb : horizon_bounds (flat_horizon 1000) (flat_horizon 900) =
               {| xMin := Fin 0; xMax := Fin 900; yMin := Fin 0; yMax := Fin 900;
                  zMin := Fin 900; zMax := Fin 1000 |})
    by (apply slab_bounds; lra).
  assert (Hs : grid_spacing
                 (horizon_bounds (flat_horizon 1000) (flat_horizon 900)) = Fin 20).
  { rewrite Hb. unfold grid_spacing. js_eval. f_equal. lra. }
  destruct (counter_values_terminates 46 0 20 900) as [xs Hxs];
    [lra | simpl INR; lra |].
  destruct (counter_values_head 47 0 20 900 xs) as (rx & -> & Hrx);
    [lra | lra | exact Hxs |].
  destruct (generate_as_run rnd now 47 slab_state
              {| ds_name := "Top"; ds_points := flat_horizon 1000 |}
              {| ds_name := "Base"; ds_points := flat_horizon 900 |}
              [] (Fin 0 :: rx) (Fin 0 :: rx) eq_refl)
    as (st' & g & Hgen & Hgrids & _ & Hpts).
  { apply small_fits. unfold horizon_samples. cbn [slab_state build_state
      horizonData ds_points]. rewrite length_app. unfold flat_horizon.
    rewrite !(flat_map_constant_length (c := 10)), !length_seq; [lia | |];
      intros; now rewrite length_map, length_seq. }
  { cbn [ds_points]. rewrite Hs, Hb. exact Hxs. }
  { cbn [ds_points]. rewrite Hs, Hb. exact Hxs. }
  exists st', g. split; [exact Hgen |]. split; [exact Hgrids |].
  rewrite Hpts. cbn [ds_points faultData numLayers slab_state build_state seed].
  rewrite Hs.
  cbn [list_prod map app]. unfold run_positions at 1. cbn [fold_left fst snd].
  set (acc0 := {| acc_grid := []; acc_totalVolume := Fin 0;
                  acc_pointCount := 0; acc_seed := 0 |}).
  destruct (slab_origin_column rnd acc0) as (col & Ecol & Hcol & Hmap).
  destruct (run_appends rnd (flat_horizon 1000) (flat_horizon 900) [] 3
              (Fin 20)
              (map (fun y : num => (Fin 0, y)) rx ++ list_prod rx (Fin 0 :: rx))
              (sample_position rnd (flat_horizon 1000) (flat_horizon 900) []
                 3 (Fin 20) (Fin 0) (Fin 0) acc0))
    as (new & Enew & Hnew).
  unfold run_positions in Enew.
  rewrite Enew, Ecol. cbn [acc_grid acc0 app].
  rewrite filter_app, (filter_all _ _ Hcol), filter_none.
  - rewrite app_nil_r, Hmap. cbn [seq map].
    repeat (f_equal; try (simpl INR; lra)).
  - eapply Forall_impl; [| exact Hnew].
    intros c (p & Hp & Hx & Hy).
    rewrite Forall_forall in Hrx.
    apply in_app_or in Hp. destruct Hp as [Hp | Hp].
    + apply in_map_iff in Hp. destruct Hp as (y & <- & Hy').
      destruct (Hrx y Hy') as (w & Hw & Hle).
      apply (away_from_origin c _ w Hx Hy); [now right | lra].
    + destruct p as [px' py']. apply in_prod_iff in Hp. destruct Hp as [Hp _].
      destruct (Hrx px' Hp) as (w & Hw & Hle).
      apply (away_from_origin c _ w Hx Hy); [now left | lra].
Qed.

(* ================================================================== *)
(** * Bounds of built and merged grids *)
(* ================================================================== *)

Lemma generate_registers (rnd : nat -> R) (now fuel : nat) (st st' : AppState)
    (top bottom : DataSet) (others : list DataSet) :
  horizonData st = top :: bottom :: others ->
  (horizon_samples st <= argument_limit st)%N ->
  generateGeologicalGrid rnd now fuel st = Some (Returned tt, st') ->
  exists g,
    grids st' = grids st ++ [g] /\
    bounds g = horizon_bounds (ds_points top) (ds_points bottom) /\
    layerCount g = (numLayers st + 2)%nat.
Proof.
  intros Hh Hlim H.
  rewrite (generate_within_limit rnd now fuel st top bottom others Hh Hlim) in H.
  unfold sample_and_register in H.
  destruct (loop_x _ _ _ _ _ _ _ _ _ _ _) as [acc |]; [| discriminate].
  inversion H; subst st'. cbn. eexists. split; [reflexivity |]. split; reflexivity.
Qed.

Lemma not_own_extension {A : Type} (l : list A) (a : A) : l <> l ++ [a].
Proof.
  intros E. apply (f_equal (@List.length A)) in E.
  rewrite length_app in E. cbn in E. lia.
Qed.

(** C1, as the code has it.  A build whose spread calls fit the engine
    stores a grid, and the bounds of every grid a build stores are the
    envelope of the points of the two horizons it was built from,
    computed before any cell exists; an accepted merge whose spread calls
    fit the engine stores a grid, and the bounds of every grid a merge
    stores are the envelope of its own (translated) cells. *)
Theorem bounds_envelope_of_horizons_or_merged_cells :
  (forall (rnd : nat -> R) (now fuel : nat) (st st' : AppState)
          (top bottom : DataSet) (others : list DataSet),
      horizonData st = top :: bottom :: others ->
      ds_points top ++ ds_points bottom <> [] ->
      (forall p, In p (ds_points top ++ ds_points bottom) -> finite_point p) ->
      generateGeologicalGrid rnd now fuel st = Some (Returned tt, st') ->
      ((horizon_samples st <= argument_limit st)%N ->
       exists g, grids st' = grids st ++ [g]) /\
      (forall g, grids st' = grids st ++ [g] ->
         is_envelope px py pz (bounds g)
           (ds_points top ++ ds_points bottom))) /\
  (forall (now : nat) (st : AppState) (r : CheckResult),
      canCombineGrids (grids st) (selectedGrids st) = Returned r ->
      canCombine r = true ->
      ((selected_cells st <= argument_limit st)%N ->
       exists merged, grids (snd (combineGrids now st)) = grids st ++ [merged]) /\
      (forall merged,
         grids (snd (combineGrids now st)) = grids st ++ [merged] ->
         points merged <> [] ->
         (forall c, In c (points merged) -> finite_cell c) ->
         is_envelope cx cy cz (bounds merged) (points merged))).
Proof.
  split.
  - intros rnd now fuel st st' top bottom others Hh Hne Hfin H.
    destruct (N.le_gt_cases (horizon_samples st) (argument_limit st))
      as [Hlim | Hlim].
    + destruct (generate_registers rnd now fuel st st' top bottom others
                  Hh Hlim H) as (g & Hg & Hb & _).
      split; [intros _; now exists g |].
      intros g' Hg'. rewrite Hg in Hg'. apply app_inj_tail in Hg'.
      destruct Hg' as [_ <-]. rewrite Hb.
      apply envelope_is_envelope; assumption.
    + rewrite (generate_beyond_limit rnd now fuel st Hlim) in H.
      inversion H; subst st'. split; [lia |].
      intros g Hg. cbn in Hg. now apply not_own_extension in Hg.
  - intros now st r Hc Hok.
    destruct (N.le_gt_cases (selected_cells st) (argument_limit st))
      as [Hlim | Hlim].
    + destruct (combineGrids_accepted now st r Hc Hok Hlim)
        as (data & _ & _ & ->).
      split; [intros _; now eexists |].
      intros merged Hm Hne Hfin. cbn in Hm. apply app_inj_tail in Hm.
      destruct Hm as [_ <-]. apply envelope_is_envelope; assumption.
    + rewrite (combineGrids_beyond now st r Hc Hok Hlim).
      split; [lia |].
      intros merged Hm. cbn in Hm. now apply not_own_extension in Hm.
Qed.

(** ** The horizon pair off the lattice *)

Lemma offgrid_bounds :
  horizon_bounds (offgrid_horizon 1000) (offgrid_horizon 900) =
  {| xMin := Fin 0; xMax := Fin (455 / 10); yMin := Fin 0; yMax := Fin 45;
     zMin := Fin 900; zMax := Fin 1000 |}.
Proof.
  unfold horizon_bounds, envelope, min_list, max_list. js_eval. reflexivity.
Qed.

Lemma offgrid_interpolation_at_origin (z : R) :
  Tool.geologicalInterpolation (Fin 0) (Fin 0) (offgrid_horizon z) = Fin z.
Proof.
  apply (tool_interpolation_flat 0 0 z 0 (offgrid_horizon z)
           (mkPoint (Fin 0) (Fin 0) (Fin z) None)).
  - intros p [<- | [<- | []]]; cbn; auto.
  - now left.
  - exact (planar_distance_self (mkPoint (Fin 0) (Fin 0) (Fin z) None) I I).
  - lra.
Qed.

Lemma fold_max_bounded (B : R) (l : list num) (a : num) :
  Forall (fun e => exists v, e = Fin v /\ v <= B) l ->
  (a = NInf \/ exists v, a = Fin v /\ v <= B) ->
  fold_left Js.max l a = NInf \/
  exists m, fold_left Js.max l a = Fin m /\ m <= B.
Proof.
  intros H. revert a. induction H as [| e l (v & -> & Hv) _ IH]; intros a Ha;
    cbn [fold_left].
  - exact Ha.
  - apply IH. right. destruct Ha as [-> | (w & -> & Hw)]; cbn.
    + now exists v.
    + exists (Rmax w v). split; [reflexivity |]. now apply Rmax_lub.
Qed.

Lemma whole_steps_below (k : nat) : INR k <= 455 / 10 -> INR k <= 45.
Proof.
  intros H. destruct (Nat.le_gt_cases k 45) as [Hk | Hk].
  - apply le_INR in Hk. simpl INR in Hk. lra.
  - apply le_INR in Hk. simpl INR in Hk. lra.
Qed.

Lemma offgrid_fits :
  (horizon_samples offgrid_state <= argument_limit offgrid_state)%N.
Proof. apply small_fits. cbn. lia. Qed.

(** What the build does on the pair: it finishes, emits cells, and none
    of them lies beyond x = 45. *)
Lemma offgrid_build (rnd : nat -> R) (now : nat) :
  exists (st' : AppState) (g : Grid),
    generateGeologicalGrid rnd now 47 offgrid_state = Some (Returned tt, st') /\
    grids st' = [g] /\
    points g <> [] /\
    bounds g = horizon_bounds (offgrid_horizon 1000) (offgrid_horizon 900) /\
    Forall (fun c => exists v, cx c = Fin v /\ v <= 45) (points g).
Proof.
  pose proof offgrid_bounds as Hb.
  assert (Hs : grid_spacing
                 (horizon_bounds (offgrid_horizon 1000) (offgrid_horizon 900))
               = Fin 1).
  { rewrite Hb. unfold grid_spacing. js_eval. f_equal. lra. }
  destruct (counter_values_terminates 46 0 1 (455 / 10)) as [xs Hxs];
    [lra | simpl INR; lra |].
  destruct (counter_values_terminates 46 0 1 45) as [ys Hys];
    [lra | simpl INR; lra |].
  pose proof (counter_values_spec _ _ _ _ _ Hxs) as Hxspec.
  destruct (counter_values_head 47 0 1 (455 / 10) xs) as (rx & Ex & _);
    [lra | lra | exact Hxs |].
  destruct (counter_values_head 47 0 1 45 ys) as (ry & Ey & _);
    [lra | lra | exact Hys |].
  destruct (generate_as_run rnd now 47 offgrid_state
              {| ds_name := "Top"; ds_points := offgrid_horizon 1000 |}
              {| ds_name := "Base"; ds_points := offgrid_horizon 900 |}
              [] xs ys eq_refl offgrid_fits)
    as (st' & g & Hgen & Hgrids & Hbg & Hpts).
  { cbn [ds_points]. rewrite Hs, Hb. exact Hxs. }
  { cbn [ds_points]. rewrite Hs, Hb. exact Hys. }
  exists st', g. split; [exact Hgen |]. split; [exact Hgrids |].
  cbn [ds_points faultData numLayers offgrid_state build_state seed] in Hpts.
  rewrite Hs in Hpts.
  set (acc0 := {| acc_grid := []; acc_totalVolume := Fin 0;
                  acc_pointCount := 0; acc_seed := 0 |}) in *.
  split; [| split; [exact Hbg |]].
  - (* the position (0, 0) is retained *)
    rewrite Hpts, Ex, Ey. cbn [list_prod map app].
    unfold run_positions. cbn [fold_left fst snd].
    match goal with
    | |- acc_grid (fold_left ?f ?ps ?a) <> [] =>
        destruct (run_appends rnd (offgrid_horizon 1000) (offgrid_horizon 900)
                    [] 3 (Fin 1) ps a) as (new & Enew & _);
        unfold run_positions in Enew; rewrite Enew
    end.
    unfold sample_position. rewrite !offgrid_interpolation_at_origin.
    cbn [Js.leb Js.sub]. rewrite Rleb_false by lra.
    match goal with
    | |- acc_grid (fold_left (layer_step _ _ _ _ ?x ?y ?bz ?th ?lt) ?idxs ?a)
         ++ _ <> [] =>
        destruct (layers_append rnd [] 3 (Fin 1) x y bz th lt idxs a)
          as (col & Ecol & Hlayers & _);
        rewrite Ecol
    end.
    destruct col as [| c col]; [discriminate |].
    cbn. discriminate.
  - rewrite Hpts.
    destruct (run_appends rnd (offgrid_horizon 1000) (offgrid_horizon 900)
                [] 3 (Fin 1) (list_prod xs ys) acc0) as (new & Enew & Hnew).
    rewrite Enew. cbn [acc_grid acc0 app].
    eapply Forall_impl; [| exact Hnew].
    intros c ([x y] & Hp & Hx & _). apply in_prod_iff in Hp. destruct Hp as [Hp _].
    rewrite Forall_forall in Hxspec. destruct (Hxspec x Hp) as (k & Hk & Hle).
    cbn [fst] in Hx. rewrite Hx, Hk, round_to_fin by lra.
    replace (0 + INR k * 1) with (INR k) in * by ring.
    apply whole_steps_below in Hle.
    exists (INR k). split; [| exact Hle].
    f_equal. rewrite (Rround_int _ (Z.of_nat k * 100)).
    + field.
    + rewrite mult_IZR, <- INR_IZR_INZ. reflexivity.
Qed.

(** C1 as stated fails for a built grid.  The two horizons reach
    x = 45.5 while the sampling lattice has spacing 1 and stops at 45:
    the stored [xMax] is 45.5, and no cell is beyond 45. *)
Lemma build_bounds_are_not_cell_envelope :
  exists (st' : AppState) (g : Grid),
    generateGeologicalGrid half_stream 7 47 offgrid_state
    = Some (Returned tt, st') /\
    grids st' = [g] /\
    points g <> [] /\
    xMax (bounds g) = Fin (455 / 10) /\
    xMax (bounds g) <> max_list (map cx (points g)) /\
    bounds g <> envelope cx cy cz (points g).
Proof.
  destruct (offgrid_build half_stream 7) as (st' & g & Hgen & Hg & Hne & Hb & Hx).
  exists st', g. split; [exact Hgen |]. split; [exact Hg |]. split; [exact Hne |].
  rewrite Hb, offgrid_bounds. cbn [xMax].
  assert (Hmax : Fin (455 / 10) <> max_list (map cx (points g))).
  { unfold max_list.
    destruct (fold_max_bounded 45 (map cx (points g)) NInf) as [E | (m & E & Hm)].
    - apply Forall_forall. intros e He. apply in_map_iff in He.
      destruct He as (c & <- & Hc). rewrite Forall_forall in Hx. now apply Hx.
    - now left.
    - rewrite E. discriminate.
    - rewrite E. intros H. inversion H. lra. }
  split; [reflexivity |]. split; [exact Hmax |].
  intros H. apply Hmax. apply (f_equal xMax) in H. exact H.
Qed.

Lemma sample_merge_cells (now : nat) (dir : Direction) :
  points (merged_grid now dir [gridA; gridB]) <> [] /\
  forall c, In c (points (merged_grid now dir [gridA; gridB])) -> finite_cell c.
Proof.
  pose proof (merged_points_perm now dir [gridA; gridB]) as P.
  split.
  - intros E. rewrite E in P. apply Permutation_nil in P.
    destruct dir; cbn in P; discriminate.
  - intros c Hc. apply (Permutation_in c P) in Hc.
    destruct dir; cbn in Hc;
      repeat (destruct Hc as [<- | Hc]; [cbn; repeat split |]);
      destruct Hc.
Qed.

Lemma bounds_envelope_of_horizons_or_merged_cells_witness :
  (exists (st' : AppState) (g : Grid),
      generateGeologicalGrid half_stream 7 47 offgrid_state
      = Some (Returned tt, st') /\
      grids st' = grids offgrid_state ++ [g] /\
      is_envelope px py pz (bounds g)
        (offgrid_horizon 1000 ++ offgrid_horizon 900)) /\
  (exists merged : Grid,
      grids (snd (combineGrids 3 (state_of [gridA; gridB] [1; 2]%nat Vertical)))
      = [gridA; gridB] ++ [merged] /\
      is_envelope cx cy cz (bounds merged) (points merged)).
Proof.
  split.
  - destruct (offgrid_build half_stream 7) as (st' & g0 & Hgen & _).
    destruct (proj1 bounds_envelope_of_horizons_or_merged_cells
                half_stream 7%nat 47%nat offgrid_state st'
                {| ds_name := "Top"; ds_points := offgrid_horizon 1000 |}
                {| ds_name := "Base"; ds_points := offgrid_horizon 900 |}
                [] eq_refl) as (Hstored & Henv).
    + discriminate.
    + intros p Hp. cbn in Hp.
      repeat (destruct Hp as [<- | Hp]; [cbn; repeat split |]); destruct Hp.
    + exact Hgen.
    + destruct (Hstored offgrid_fits) as (g & Hg).
      exists st', g. split; [exact Hgen |]. split; [exact Hg |].
      exact (Henv g Hg).
  - destruct (proj2 bounds_envelope_of_horizons_or_merged_cells 3%nat
                (state_of [gridA; gridB] [1; 2]%nat Vertical)
                (check_grids gridA [gridB]) eq_refl)
      as (Hstored & Henv).
    + rewrite gridA_gridB_compatible. reflexivity.
    + assert (Hfit : (selected_cells (state_of [gridA; gridB] [1; 2]%nat Vertical)
                      <= argument_limit
                           (state_of [gridA; gridB] [1; 2]%nat Vertical))%N)
        by (apply small_fits; cbn; lia).
      destruct (Hstored Hfit) as (merged & Hg).
      exists merged. split; [exact Hg |].
      assert (E : merged = merged_grid 3 Vertical [gridA; gridB]).
      { destruct (combineGrids_accepted 3
                    (state_of [gridA; gridB] [1; 2]%nat Vertical)
                    (check_grids gridA [gridB]) eq_refl) as (data & Hd & _ & Hc).
        { rewrite gridA_gridB_compatible. reflexivity. }
        { exact Hfit. }
        cbn in Hd. inversion Hd; subst data. rewrite Hc in Hg.
        cbn [snd with_alert clear_selection register_grid grids state_of
               mergeDirection] in Hg.
        apply app_inj_tail in Hg. symmetry. apply Hg. }
      destruct (sample_merge_cells 3 Vertical) as [Hne Hfin].
      apply (Henv merged Hg); rewrite E; assumption.
Defined.

(* ================================================================== *)
(** * The checker: acceptance, reasons, unresolved ids *)
(* ================================================================== *)

Lemma bounds_step_cases (b : Bounds) (acc : bool * list Detail) (g : Grid) :
  bounds_step b acc g = acc \/
  exists d, bounds_step b acc g = (false, snd acc ++ [d]).
Proof.
  unfold bounds_step.
  match goal with |- (if ?c then _ else _) = _ \/ _ => destruct c end.
  - right. eauto.
  - now left.
Qed.

Lemma bounds_fold_false (b : Bounds) (rest : list Grid) (ds : list Detail) :
  fst (fold_left (bounds_step b) rest (false, ds)) = false.
Proof.
  revert ds. induction rest as [| g rest IH]; intros ds; cbn [fold_left].
  - reflexivity.
  - destruct (bounds_step_cases b (false, ds) g) as [-> | (d & ->)]; apply IH.
Qed.

Lemma bounds_fold_true (b : Bounds) (rest : list Grid) (acc : bool * list Detail) :
  fst (fold_left (bounds_step b) rest acc) = true ->
  fold_left (bounds_step b) rest acc = acc.
Proof.
  revert acc. induction rest as [| g rest IH]; intros acc H; cbn [fold_left] in *.
  - reflexivity.
  - destruct (bounds_step_cases b acc g) as [E | (d & E)]; rewrite E in *.
    + now apply IH.
    + rewrite bounds_fold_false in H. discriminate.
Qed.

Lemma bounds_fold_length (b : Bounds) (rest : list Grid) (acc : bool * list Detail) :
  (List.length (snd (fold_left (bounds_step b) rest acc))
   <= List.length (snd acc) + List.length rest)%nat.
Proof.
  revert acc. induction rest as [| g rest IH]; intros acc; cbn [fold_left List.length].
  - lia.
  - specialize (IH (bounds_step b acc g)).
    destruct (bounds_step_cases b acc g) as [E | (d & E)]; rewrite E in *.
    + lia.
    + cbn [snd] in IH. rewrite length_app in IH. cbn [List.length] in IH. lia.
Qed.

Lemma leb_not_gtb (a b : num) : (a <=? b)%js = true -> (a >? b)%js = false.
Proof.
  unfold gtb. destruct a, b; cbn; try discriminate; try reflexivity.
  rewrite Rleb_spec. intros H. apply Rltb_false. exact H.
Qed.

(** X1.  An accepted check carries no reason and the score 100: the
    checker never accepts a selection while listing a mismatch. *)
Theorem accepted_check_has_no_reason :
  forall (gs : list Grid) (gridIds : list nat) (r : CheckResult),
    canCombineGrids gs gridIds = Returned r ->
    canCombine r = true ->
    (2 <= List.length gridIds)%nat /\
    details r = [] /\
    reason r = "Compatible grids"%string /\
    compatibilityScore r = Some (Fin 100).
Proof.
  intros gs gridIds r Hc Hok. unfold canCombineGrids in Hc.
  destruct (Nat.ltb_spec (List.length gridIds) 2) as [Hlt | Hge].
  { inversion Hc; subst r. discriminate. }
  split; [exact Hge |].
  destruct (all_defined (map (find_grid gs) gridIds)) as [[| first rest] |];
    try discriminate.
  inversion Hc; subst r. clear Hc.
  rewrite canCombine_check_grids in Hok.
  apply andb_prop in Hok. destruct Hok as [Hok Hv].
  apply andb_prop in Hok. destruct Hok as [Hb Hl].
  apply bounds_fold_true in Hb.
  pose proof (leb_not_gtb _ _ Hl) as Hl'.
  pose proof (leb_not_gtb _ _ Hv) as Hv'.
  unfold check_grids. rewrite Hb, Hl', Hv', Hl, Hv. cbn.
  rewrite (Rround_int (100 - 0 * 20) 100) by lra.
  repeat split. do 2 f_equal. lra.
Qed.

Lemma accepted_check_has_no_reason_witness :
  (2 <= List.length [1; 2]%nat)%nat /\
  details (check_grids gridA [gridB]) = [] /\
  reason (check_grids gridA [gridB]) = "Compatible grids"%string /\
  compatibilityScore (check_grids gridA [gridB]) = Some (Fin 100).
Proof.
  apply (accepted_check_has_no_reason [gridA; gridB] [1; 2]%nat
           (check_grids gridA [gridB])).
  - reflexivity.
  - rewrite gridA_gridB_compatible. reflexivity.
Defined.

Lemma check_grids_details_length (first : Grid) (rest : list Grid) :
  (List.length (details (check_grids first rest)) <= List.length rest + 2)%nat.
Proof.
  unfold check_grids.
  pose proof (bounds_fold_length (bounds first) rest (true, [])) as H.
  destruct (fold_left (bounds_step (bounds first)) rest (true, [])) as [ok ds].
  cbn [snd List.length] in H. cbn [details].
  repeat match goal with
         | |- context [if ?c then _ else _] => destruct c
         end; rewrite ?length_app; cbn [List.length]; lia.
Qed.

(** X2.  For n grids the checker lists at most n + 1 reasons (one per
    grid after the first, one for the layers, one for the point counts),
    so the score is never below 100 - 20 (n + 1). *)
Theorem reasons_bounded_by_grid_count :
  forall (gs : list Grid) (gridIds : list nat) (r : CheckResult),
    canCombineGrids gs gridIds = Returned r ->
    (List.length (details r) <= List.length gridIds + 1)%nat /\
    forall s, compatibilityScore r = Some (Fin s) ->
              100 - 20 * (INR (List.length gridIds) + 1) <= s.
Proof.
  intros gs gridIds r Hc. unfold canCombineGrids in Hc.
  destruct (Nat.ltb_spec (List.length gridIds) 2) as [Hlt | Hge].
  { inversion Hc; subst r. cbn. split; [lia | discriminate]. }
  destruct (all_defined (map (find_grid gs) gridIds)) as [[| first rest] |] eqn:E;
    try discriminate.
  inversion Hc; subst r. clear Hc.
  apply all_defined_length in E. rewrite length_map in E. cbn [List.length] in E.
  pose proof (check_grids_details_length first rest) as Hd.
  assert (Hlen : (List.length (details (check_grids first rest))
                  <= List.length gridIds + 1)%nat) by lia.
  split; [exact Hlen |].
  intros s Hs. rewrite check_grids_score in Hs. inversion Hs; subst s.
  apply le_INR in Hlen. rewrite plus_INR in Hlen. simpl INR in Hlen. lra.
Qed.

Lemma reasons_bounded_by_grid_count_witness :
  (List.length (details (check_grids gridA [gridC])) <= List.length [1; 3]%nat + 1)%nat /\
  forall s, compatibilityScore (check_grids gridA [gridC]) = Some (Fin s) ->
            100 - 20 * (INR (List.length [1; 3]%nat) + 1) <= s.
Proof.
  apply (reasons_bounded_by_grid_count [gridA; gridC] [1; 3]%nat
           (check_grids gridA [gridC])).
  reflexivity.
Defined.

Lemma all_defined_none {A : Type} (l : list (option A)) :
  In None l -> all_defined l = None.
Proof.
  induction l as [| [a |] l IH]; intros H; cbn.
  - destruct H.
  - destruct H as [H | H]; [discriminate |]. now rewrite IH.
  - reflexivity.
Qed.

Lemma unresolved_throws (gs : list Grid) (gridIds : list nat) (i : nat) :
  (2 <= List.length gridIds)%nat ->
  In i gridIds -> find_grid gs i = None ->
  canCombineGrids gs gridIds = Thrown TypeError.
Proof.
  intros Hlen Hin Hnone. unfold canCombineGrids.
  destruct (Nat.ltb_spec (List.length gridIds) 2) as [Hlt | _]; [lia |].
  rewrite all_defined_none; [reflexivity |].
  rewrite <- Hnone. now apply in_map.
Qed.

Lemma find_deleted (gs : list Grid) (i : nat) :
  find_grid (filter (fun g => negb (Nat.eqb (id g) i)) gs) i = None.
Proof.
  unfold find_grid. induction gs as [| g gs IH]; cbn.
  - reflexivity.
  - destruct (Nat.eqb (id g) i) eqn:E; cbn; [exact IH |].
    now rewrite E.
Qed.

Lemma find_other_after_delete (gs : list Grid) (i j : nat) :
  j <> i ->
  find_grid (filter (fun g => negb (Nat.eqb (id g) i)) gs) j = find_grid gs j.
Proof.
  intros Hne. unfold find_grid. induction gs as [| g gs IH]; cbn.
  - reflexivity.
  - destruct (Nat.eqb (id g) i) eqn:E; cbn.
    + apply Nat.eqb_eq in E.
      destruct (Nat.eqb_spec (id g) j) as [Ej | _]; [congruence | exact IH].
    + destruct (Nat.eqb (id g) j); [reflexivity | exact IH].
Qed.

(** X3.  With two or more ids selected, an id that resolves to no grid
    makes the checker, and with it the merge, throw a TypeError; the
    merge leaves the state as it was. *)
Theorem unresolved_id_throws :
  forall (now : nat) (st : AppState) (i : nat),
    (2 <= List.length (selectedGrids st))%nat ->
    In i (selectedGrids st) ->
    find_grid (grids st) i = None ->
    canCombineGrids (grids st) (selectedGrids st) = Thrown TypeError /\
    combineGrids now st = (Thrown TypeError, st).
Proof.
  intros now st i Hlen Hin Hnone.
  assert (H : canCombineGrids (grids st) (selectedGrids st) = Thrown TypeError)
    by (eapply unresolved_throws; eassumption).
  split; [exact H |]. unfold combineGrids. now rewrite H.
Qed.

Lemma unresolved_id_throws_witness :
  canCombineGrids (grids (state_of [gridA] [1; 2]%nat Vertical))
    (selectedGrids (state_of [gridA] [1; 2]%nat Vertical)) = Thrown TypeError /\
  combineGrids 5 (state_of [gridA] [1; 2]%nat Vertical)
  = (Thrown TypeError, state_of [gridA] [1; 2]%nat Vertical).
Proof.
  apply (unresolved_id_throws 5 (state_of [gridA] [1; 2]%nat Vertical) 2);
    [simpl; lia | simpl; auto | reflexivity].
Defined.

(** X4.  Deleting a grid removes it from the collection but not from
    the selection: the other ids resolve as before, the deleted id
    resolves to nothing, and if it was one of two or more selected ids
    the next check (the merge panel evaluates it while rendering) and
    the next merge throw. *)
Theorem delete_keeps_selection :
  forall (now : nat) (st : AppState) (i : nat),
    (2 <= List.length (selectedGrids st))%nat ->
    In i (selectedGrids st) ->
    selectedGrids (deleteGrid i st) = selectedGrids st /\
    find_grid (grids (deleteGrid i st)) i = None /\
    (forall j, j <> i ->
       find_grid (grids (deleteGrid i st)) j = find_grid (grids st) j) /\
    canCombineGrids (grids (deleteGrid i st)) (selectedGrids (deleteGrid i st))
    = Thrown TypeError /\
    combineGrids now (deleteGrid i st) = (Thrown TypeError, deleteGrid i st).
Proof.
  intros now st i Hlen Hin.
  assert (Hnone : find_grid (grids (deleteGrid i st)) i = None)
    by apply find_deleted.
  split; [reflexivity |]. split; [exact Hnone |]. split.
  - intros j Hj. now apply find_other_after_delete.
  - assert (H : canCombineGrids (grids (deleteGrid i st))
                  (selectedGrids (deleteGrid i st)) = Thrown TypeError).
    { apply (unresolved_throws _ _ i); assumption. }
    split; [exact H |]. unfold combineGrids. now rewrite H.
Qed.

Lemma delete_keeps_selection_witness :
  let st := state_of [gridA; gridB] [1; 2]%nat Vertical in
  selectedGrids (deleteGrid 2 st) = selectedGrids st /\
  find_grid (grids (deleteGrid 2 st)) 2 = None /\
  (forall j, j <> 2%nat ->
     find_grid (grids (deleteGrid 2 st)) j = find_grid (grids st) j) /\
  canCombineGrids (grids (deleteGrid 2 st)) (selectedGrids (deleteGrid 2 st))
  = Thrown TypeError /\
  combineGrids 5 (deleteGrid 2 st) = (Thrown TypeError, deleteGrid 2 st).
Proof.
  apply (delete_keeps_selection 5 (state_of [gridA; gridB] [1; 2]%nat Vertical) 2);
    [simpl; lia | simpl; auto].
Defined.
(* ================================================================== *)
(** * The merge: frame, vertical stacking, order, statistics *)
(* ================================================================== *)

(** X5.  A merge either leaves the grid collection, the active grid and
    the selection as they were, or (only when two or more selected ids
    all resolve and the check accepts them) appends exactly the merged
    grid, makes it active and empties the selection. *)
Theorem merge_appends_one_grid_or_nothing :
  forall (now : nat) (st : AppState),
    (grids (snd (combineGrids now st)) = grids st /\
     activeGridId (snd (combineGrids now st)) = activeGridId st /\
     selectedGrids (snd (combineGrids now st)) = selectedGrids st) \/
    (exists (r : CheckResult) (data : list Grid),
        canCombineGrids (grids st) (selectedGrids st) = Returned r /\
        canCombine r = true /\
        all_defined (map (find_grid (grids st)) (selectedGrids st)) = Some data /\
        (2 <= List.length data)%nat /\
        grids (snd (combineGrids now st)) =
          grids st ++ [merged_grid now (mergeDirection st) data] /\
        activeGridId (snd (combineGrids now st)) = Some now /\
        selectedGrids (snd (combineGrids now st)) = []).
Proof.
  intros now st.
  destruct (canCombineGrids (grids st) (selectedGrids st)) as [r | e] eqn:Hc.
  - destruct (canCombine r) eqn:Hok.
    + destruct (N.le_gt_cases (selected_cells st) (argument_limit st))
        as [Hlim | Hlim].
      * right.
        destruct (combineGrids_accepted now st r Hc Hok Hlim)
          as (data & Hd & Hlen & ->).
        exists r, data. repeat split; assumption.
      * left. rewrite (combineGrids_beyond now st r Hc Hok Hlim). cbn. auto.
    + left. unfold combineGrids. rewrite Hc, Hok. cbn. auto.
  - left. unfold combineGrids. rewrite Hc. cbn. auto.
Qed.

Lemma vertical_offset (index : nat) (allBounds : list Bounds) :
  calculateOffset Vertical index allBounds =
  {| off_x := Fin 0; off_y := Fin 0; off_z := Fin (INR index * 50) |}.
Proof. reflexivity. Qed.

(** X6.  In an accepted vertical merge whose cells fit one call, the
    merged grid is stored and every cell of the grid at index [i] is
    lifted in z by 50 i, x and y staying as they are; the merged cells
    are these lifted cells in some order. *)
Theorem vertical_merge_lifts_by_fixed_gap :
  forall (now : nat) (st : AppState) (r : CheckResult),
    mergeDirection st = Vertical ->
    canCombineGrids (grids st) (selectedGrids st) = Returned r ->
    canCombine r = true ->
    (selected_cells st <= argument_limit st)%N ->
    exists (data : list Grid) (merged : Grid),
      all_defined (map (find_grid (grids st)) (selectedGrids st)) = Some data /\
      grids (snd (combineGrids now st)) = grids st ++ [merged] /\
      Permutation (points merged)
        (flat_map
           (fun ig =>
              map (blend (snd ig) (fst ig)
                     {| off_x := Fin 0; off_y := Fin 0;
                        off_z := Fin (INR (fst ig) * 50) |})
                (points (snd ig)))
           (indexed data)) /\
      (forall (g : Grid) (i : nat) (src : Cell),
          let c := blend g i {| off_x := Fin 0; off_y := Fin 0;
                                off_z := Fin (INR i * 50) |} src in
          cx c = cx src /\ cy c = cy src /\
          cz c = (cz src + Fin (INR i * 50))%js /\
          merge_info c <> None).
Proof.
  intros now st r Hdir Hc Hok Hlim.
  destruct (combineGrids_accepted now st r Hc Hok Hlim) as (data & Hd & _ & ->).
  rewrite Hdir.
  exists data, (merged_grid now Vertical data).
  split; [exact Hd |]. split; [reflexivity |]. split.
  - eapply Permutation_trans; [apply merged_points_perm |].
    erewrite flat_map_ext; [apply Permutation_refl |].
    intros [i g]. reflexivity.
  - intros g i src. cbn. rewrite !add_0_r. repeat split. discriminate.
Qed.

Lemma vertical_merge_lifts_by_fixed_gap_witness :
  exists (data : list Grid) (merged : Grid),
    all_defined
      (map (find_grid (grids (state_of [gridA; gridB] [1; 2]%nat Vertical)))
         (selectedGrids (state_of [gridA; gridB] [1; 2]%nat Vertical)))
    = Some data /\
    grids (snd (combineGrids 3 (state_of [gridA; gridB] [1; 2]%nat Vertical)))
    = grids (state_of [gridA; gridB] [1; 2]%nat Vertical) ++ [merged] /\
    Permutation (points merged)
      (flat_map
         (fun ig =>
            map (blend (snd ig) (fst ig)
                   {| off_x := Fin 0; off_y := Fin 0;
                      off_z := Fin (INR (fst ig) * 50) |})
              (points (snd ig)))
         (indexed data)) /\
    (forall (g : Grid) (i : nat) (src : Cell),
        let c := blend g i {| off_x := Fin 0; off_y := Fin 0;
                              off_z := Fin (INR i * 50) |} src in
        cx c = cx src /\ cy c = cy src /\
        cz c = (cz src + Fin (INR i * 50))%js /\
        merge_info c <> None).
Proof.
  apply (vertical_merge_lifts_by_fixed_gap 3
           (state_of [gridA; gridB] [1; 2]%nat Vertical)
           (check_grids gridA [gridB])).
  - reflexivity.
  - reflexivity.
  - rewrite gridA_gridB_compatible. reflexivity.
  - apply small_fits. cbn. lia.
Defined.

(** ** Order of the sorted array *)

Section SortOrder.
Context {A : Type} (key : A -> num).

Lemma insert_by_in (a b : A) (l : list A) :
  In b (insert_by key a l) -> b = a \/ In b l.
Proof.
  intros H. apply (Permutation_in b (insert_by_perm key a l)) in H.
  destruct H as [<- | H]; auto.
Qed.

Lemma insert_by_ascending (a : A) (l : list A) :
  finite (key a) -> (forall b, In b l -> finite (key b)) ->
  ascending key l -> ascending key (insert_by key a l).
Proof.
  intros Ha Hl Hs. induction Hs as [| b l Hs IH Hb]; cbn [insert_by].
  - repeat constructor.
  - assert (Hfb : finite (key b)) by (apply Hl; now left).
    destruct (key a) as [| | ka |] eqn:Eka; try contradiction.
    destruct (key b) as [| | kb |] eqn:Ekb; try contradiction.
    unfold gtb. cbn [Js.sub Js.ltb].
    destruct (Rltb 0 (ka - kb)) eqn:E.
    + apply Rltb_spec in E. constructor.
      * apply IH. intros c Hc. apply Hl. now right.
      * apply Forall_forall. intros c Hc. apply insert_by_in in Hc.
        destruct Hc as [-> | Hc].
        -- rewrite Ekb, Eka. cbn. apply Rleb_true. lra.
        -- rewrite Forall_forall in Hb. rewrite Ekb. now apply Hb.
    + assert (Hle : ka <= kb).
      { unfold Rltb in E. destruct (Rlt_dec 0 (ka - kb)); [discriminate | lra]. }
      constructor.
      * constructor; [exact Hs | rewrite Ekb; exact Hb].
      * constructor.
        -- rewrite Eka, Ekb. cbn. now apply Rleb_true.
        -- apply Forall_forall. intros c Hc. rewrite Forall_forall in Hb.
           specialize (Hb c Hc).
           assert (Hfc : finite (key c)) by (apply Hl; now right).
           rewrite Eka. apply (leb_trans_fin (Fin ka) (Fin kb) (key c)); try easy.
           cbn. now apply Rleb_true.
Qed.

Lemma sort_by_ascending (l : list A) :
  (forall b, In b l -> finite (key b)) -> ascending key (sort_by key l).
Proof.
  induction l as [| a l IH]; intros H; cbn [sort_by].
  - constructor.
  - apply insert_by_ascending.
    + apply H. now left.
    + intros b Hb. apply H. right.
      apply (Permutation_in b (sort_by_perm key l) Hb).
    + apply IH. intros b Hb. apply H. now right.
Qed.
End SortOrder.

(** X7.  The cells of a merged grid are stored in ascending order of z
    for a vertical merge and of x for a horizontal one, whenever those
    coordinates are finite. *)
Theorem merged_cells_sorted_along_axis :
  forall (now : nat) (dir : Direction) (data : list Grid),
    (forall c, In c (points (merged_grid now dir data)) ->
               finite (merge_axis dir c)) ->
    ascending (merge_axis dir) (points (merged_grid now dir data)).
Proof.
  intros now dir data H.
  assert (Hf : forall c,
             In c (flat_map (blended_cells dir (map bounds data)) (indexed data)) ->
             finite (merge_axis dir c)).
  { intros c Hc. apply H.
    apply (Permutation_in c (Permutation_sym (merged_points_perm now dir data)) Hc). }
  unfold merged_grid. cbn [points].
  destruct dir; apply sort_by_ascending; exact Hf.
Qed.

Lemma merged_cells_sorted_along_axis_witness :
  ascending (merge_axis Horizontal)
    (points (merged_grid 3 Horizontal [gridA; gridB])).
Proof.
  apply (merged_cells_sorted_along_axis 3 Horizontal [gridA; gridB]).
  intros c Hc. destruct (sample_merge_cells 3 Horizontal) as [_ Hfin].
  apply (Hfin c Hc).
Defined.

(** ** Merge statistics *)

Lemma fraction_of_range (f : Cell -> bool) (l : list Cell) :
  l <> [] -> exists v, fraction_of f l = Fin v /\ 0 <= v <= 1.
Proof.
  intros Hne. unfold fraction_of, of_nat.
  assert (Hn : 0 < INR (List.length l)).
  { apply lt_0_INR. destruct l; [contradiction | cbn; lia]. }
  cbn [Js.div]. rewrite Reqb_false by lra.
  eexists. split; [reflexivity |].
  pose proof (pos_INR (List.length (filter f l))) as H0.
  pose proof (le_INR _ _ (filter_length_le f l)) as H1.
  split.
  - apply Rmult_le_reg_r with (INR (List.length l)); [exact Hn |].
    unfold Rdiv. rewrite Rmult_assoc, Rinv_l by lra. lra.
  - apply Rmult_le_reg_r with (INR (List.length l)); [exact Hn |].
    unfold Rdiv. rewrite Rmult_assoc, Rinv_l by lra. lra.
Qed.

Lemma fraction_of_empty (f : Cell -> bool) : fraction_of f [] = NaN.
Proof.
  unfold fraction_of, of_nat. cbn. rewrite Reqb_true by reflexivity.
  unfold scaled_inf. now rewrite !Rltb_false by lra.
Qed.

(** X8.  The fault and well densities of a merged grid are fractions
    between 0 and 1 when the grid has cells; when it has none all four
    merge statistics are NaN, each being 0 / 0. *)
Theorem merge_densities_are_fractions :
  forall (now : nat) (dir : Direction) (data : list Grid),
  exists ms : MergeStats,
    mergeStats (merged_grid now dir data) = Some ms /\
    (points (merged_grid now dir data) <> [] ->
     exists fd wd : R,
       faultDensity ms = Fin fd /\ 0 <= fd <= 1 /\
       wellDensity ms = Fin wd /\ 0 <= wd <= 1) /\
    (points (merged_grid now dir data) = [] ->
     ms = {| avgPorosity := NaN; avgPermeability := NaN;
             faultDensity := NaN; wellDensity := NaN |}).
Proof.
  intros now dir data. eexists. split; [reflexivity |].
  cbn [faultDensity wellDensity].
  change (match dir with
          | Vertical => sort_by cz (flat_map (blended_cells dir (map bounds data)) (indexed data))
          | Horizontal => sort_by cx (flat_map (blended_cells dir (map bounds data)) (indexed data))
          end) with (points (merged_grid now dir data)).
  split.
  - intros Hne.
    destruct (fraction_of_range (fun p => (faultFlag p >? Fin 0)%js) _ Hne)
      as (fd & Efd & Hfd).
    destruct (fraction_of_range (fun p => (0 <? wellPath p)%nat) _ Hne)
      as (wd & Ewd & Hwd).
    exists fd, wd. repeat split; try assumption; lra.
  - intros ->. unfold mean_of. rewrite !fraction_of_empty.
    cbn. rewrite Reqb_true by reflexivity.
    unfold scaled_inf. now rewrite !Rltb_false by lra.
Qed.

(* ================================================================== *)
(** * The interpolator: the neighbours it works on *)
(* ================================================================== *)

Lemma in_firstn {A : Type} (l : list A) (n : nat) (a : A) :
  In a (firstn n l) -> In a l.
Proof.
  revert n. induction l as [| c l IH]; intros [| n] H; cbn in *; auto.
  - destruct H.
  - destruct H as [H | H]; eauto.
Qed.

Lemma in_skipn {A : Type} (l : list A) (n : nat) (a : A) :
  In a (skipn n l) -> In a l.
Proof.
  revert n. induction l as [| c l IH]; intros [| n] H; cbn in *; auto.
  right. eauto.
Qed.

Lemma ascending_firstn_skipn {A : Type} (key : A -> num) (l : list A) (n : nat) :
  ascending key l ->
  forall a b, In a (firstn n l) -> In b (skipn n l) ->
              (key a <=? key b)%js = true.
Proof.
  intros Hs. revert n. induction Hs as [| c l Hs IH Hc]; intros n a b Ha Hb.
  - destruct n; destruct Ha.
  - destruct n as [| n]; [destruct Ha |].
    cbn [firstn skipn] in *. destruct Ha as [<- | Ha].
    + rewrite Forall_forall in Hc. apply Hc.
      now apply (in_skipn l n).
    + now apply (IH n).
Qed.

Lemma ascending_firstn {A : Type} (key : A -> num) (l : list A) (n : nat) :
  ascending key l -> ascending key (firstn n l).
Proof.
  intros Hs. revert n. induction Hs as [| c l Hs IH Hc]; intros n.
  - destruct n; constructor.
  - destruct n as [| n]; cbn [firstn]; [constructor |].
    constructor; [apply IH |].
    apply Forall_forall. intros b Hb. rewrite Forall_forall in Hc.
    apply Hc. now apply (in_firstn l n).
Qed.

(** X9.  At a finite query position the interpolator works on the
    [min(k, n)] samples nearest to it: the selected samples are samples
    of the set tagged with their planar distance, in ascending order of
    distance, and no sample left out is nearer than a selected one. *)
Theorem nearest_selects_the_closest :
  forall (k : nat) (x y : R) (pts : list Point),
    (forall p, In p pts -> finite (px p) /\ finite (py p)) ->
    List.length (nearest k (Fin x) (Fin y) pts) = Nat.min k (List.length pts) /\
    (forall q, In q (nearest k (Fin x) (Fin y) pts) ->
       In (rk_point q) pts /\
       distance q = planar_distance (Fin x) (Fin y) (rk_point q)) /\
    ascending distance (nearest k (Fin x) (Fin y) pts) /\
    exists dropped : list Ranked,
      Permutation (nearest k (Fin x) (Fin y) pts ++ dropped)
        (map (fun p => mkRanked p (planar_distance (Fin x) (Fin y) p)) pts) /\
      forall q d, In q (nearest k (Fin x) (Fin y) pts) -> In d dropped ->
                  (distance q <=? distance d)%js = true.
Proof.
  intros k x y pts Hfin. unfold nearest.
  set (ranked := map (fun p => mkRanked p (planar_distance (Fin x) (Fin y) p)) pts).
  set (n := Nat.min k (List.length pts)).
  assert (Hkeys : forall b, In b ranked -> finite (distance b)).
  { intros b Hb. apply in_map_iff in Hb. destruct Hb as (p & <- & Hp).
    destruct (Hfin p Hp). now apply planar_distance_finite. }
  pose proof (sort_by_ascending distance ranked Hkeys) as Hs.
  pose proof (sort_by_perm distance ranked) as Hperm.
  split; [| split; [| split]].
  - rewrite length_firstn, sort_by_length. unfold ranked. rewrite length_map.
    unfold n. lia.
  - intros q Hq. apply in_firstn in Hq.
    apply (Permutation_in q Hperm) in Hq. apply in_map_iff in Hq.
    destruct Hq as (p & <- & Hp). now split.
  - now apply ascending_firstn.
  - exists (skipn n (sort_by distance ranked)). split.
    + rewrite firstn_skipn. exact Hperm.
    + intros q d Hq Hd. now apply (ascending_firstn_skipn distance _ n Hs).
Qed.

Lemma nearest_selects_the_closest_witness :
  List.length (nearest 6 (Fin 0) (Fin 0) [near_point; east_point])
  = Nat.min 6 (List.length [near_point; east_point]) /\
  (forall q, In q (nearest 6 (Fin 0) (Fin 0) [near_point; east_point]) ->
     In (rk_point q) [near_point; east_point] /\
     distance q = planar_distance (Fin 0) (Fin 0) (rk_point q)) /\
  ascending distance (nearest 6 (Fin 0) (Fin 0) [near_point; east_point]) /\
  exists dropped : list Ranked,
    Permutation (nearest 6 (Fin 0) (Fin 0) [near_point; east_point] ++ dropped)
      (map (fun p => mkRanked p (planar_distance (Fin 0) (Fin 0) p))
         [near_point; east_point]) /\
    forall q d, In q (nearest 6 (Fin 0) (Fin 0) [near_point; east_point]) ->
                In d dropped -> (distance q <=? distance d)%js = true.
Proof.
  apply (nearest_selects_the_closest 6 0 0 [near_point; east_point]).
  intros p [<- | [<- | []]]; cbn; auto.
Defined.

(* ================================================================== *)
(** * The fault estimator: ranges and provenance *)
(* ================================================================== *)

Lemma spatial_distance_nonneg (x y z : num) (p : Point) (d : R) :
  spatial_distance x y z p = Fin d -> 0 <= d.
Proof.
  unfold spatial_distance.
  destruct (Js.sq (x - px p) + Js.sq (y - py p) + Js.sq (z - pz p))%js
    as [| | s |]; cbn; try discriminate.
  destruct (Rltb s 0); [discriminate |].
  intros H. inversion H. apply sqrt_pos.
Qed.

Lemma spatial_distance_in_range (x y z radius : num) (p : Point) :
  (spatial_distance x y z p <? radius)%js = true ->
  exists d, spatial_distance x y z p = Fin d /\ 0 <= d.
Proof.
  intros H. destruct (spatial_distance x y z p) as [| | d |] eqn:E.
  - discriminate.
  - exfalso. unfold spatial_distance in E.
    destruct (Js.sq (x - px p) + Js.sq (y - py p) + Js.sq (z - pz p))%js
      as [| | s |]; cbn in E; try discriminate.
    destruct (Rltb s 0); discriminate.
  - exists d. split; [reflexivity |].
    now apply (spatial_distance_nonneg x y z p).
  - destruct radius; discriminate.
Qed.

(** The influence of one trace point within the radius. *)
Lemma point_influence (c : FaultConsts) (radius : num) (d : R) :
  0 < decay c -> 0 <= d -> (Fin d <? radius)%js = true ->
  exists e, Js.exp (Js.neg (Fin d) / (radius * Fin (decay c)))%js = Fin e /\
            0 < e <= 1.
Proof.
  intros Hk Hd Hr. destruct radius as [| | r |]; cbn in Hr; try discriminate.
  - apply Rltb_spec in Hr. cbn [Js.neg Js.mul Js.div].
    assert (Hrk : 0 < r * decay c) by nra.
    rewrite Reqb_false by lra. cbn [Js.exp].
    eexists. split; [reflexivity |]. split; [apply exp_pos |].
    rewrite <- exp_0.
    assert (Hle : - d / (r * decay c) <= 0).
    { apply Rmult_le_reg_r with (r * decay c); [exact Hrk |].
      unfold Rdiv. rewrite Rmult_assoc, Rinv_l by lra. lra. }
    destruct Hle as [Hlt | ->]; [left; now apply exp_increasing | right; reflexivity].
  - cbn [Js.neg Js.mul]. unfold scaled_inf. rewrite Rltb_true by exact Hk.
    cbn. exists 1. rewrite exp_0. split; [reflexivity | lra].
Qed.

Lemma segId_or_1_truthy (p : Point) : falsy (segId_or_1 p) = false.
Proof.
  unfold segId_or_1, or_else. destruct (segId p) as [s |].
  - destruct (falsy s) eqn:E; [| exact E]. cbn. apply Reqb_false. lra.
  - cbn. apply Reqb_false. lra.
Qed.

Lemma fault_point_step_ok (Q : Point -> Prop) (c : FaultConsts)
    (x y z radius : num) (n : nat) (s : FaultScan) (p : Point) :
  0 < decay c -> Q p ->
  scan_ok Q x y z radius n s ->
  scan_ok Q x y z radius (S n) (fault_point_step c x y z radius s p).
Proof.
  intros Hk Hq (t & m & Et & Em & Hm & Ht & Hdom).
  unfold fault_point_step.
  destruct (spatial_distance x y z p <? radius)%js eqn:Hr.
  - destruct (spatial_distance_in_range x y z radius p Hr) as (d & Ed & Hd).
    rewrite Ed in Hr. cbv zeta. rewrite Ed.
    destruct (point_influence c radius d Hk Hd Hr) as (e & -> & He).
    rewrite Et, Em. unfold gtb. cbn [Js.add Js.ltb].
    destruct (Rltb m e) eqn:Hlt.
    + exists (t + e), e. cbn [totalInfluence maxInfluence dominantFault].
      rewrite S_INR.
      repeat split; try lra.
      right. exists p. rewrite Ed. auto.
    + exists (t + e), m. cbn [totalInfluence maxInfluence dominantFault].
      rewrite S_INR.
      repeat split; try lra. exact Hdom.
  - exists t, m. rewrite S_INR. repeat split; try lra; assumption.
Qed.

Lemma fault_points_ok (Q : Point -> Prop) (c : FaultConsts)
    (x y z radius : num) (ps : list Point) (n : nat) (s : FaultScan) :
  0 < decay c -> (forall p, In p ps -> Q p) ->
  scan_ok Q x y z radius n s ->
  scan_ok Q x y z radius (n + List.length ps)
    (fold_left (fault_point_step c x y z radius) ps s).
Proof.
  intros Hk. revert n s. induction ps as [| p ps IH]; intros n s Hq Hs;
    cbn [fold_left List.length].
  - now rewrite Nat.add_0_r.
  - replace (n + S (List.length ps))%nat with (S n + List.length ps)%nat by lia.
    apply IH.
    + intros q Hq'. apply Hq. now right.
    + apply fault_point_step_ok; auto. apply Hq. now left.
Qed.

Lemma fault_scan_ok (c : FaultConsts) (x y z radius : num) (fs : list DataSet) :
  0 < decay c ->
  scan_ok (fun p => In p (trace_points fs)) x y z radius
    (List.length (trace_points fs)) (fault_scan c x y z radius fs).
Proof.
  intros Hk. unfold fault_scan.
  set (Q := fun p => In p (trace_points fs)).
  assert (H : forall (done todo : list DataSet) (s : FaultScan),
             (forall p, In p (trace_points todo) -> Q p) ->
             scan_ok Q x y z radius (List.length (trace_points done)) s ->
             scan_ok Q x y z radius
               (List.length (trace_points done) + List.length (trace_points todo))
               (fold_left
                  (fun s fault =>
                     fold_left (fault_point_step c x y z radius)
                       (ds_points fault) s) todo s)).
  { intros done todo. revert done.
    induction todo as [| f todo IH]; intros done s Hq Hs; cbn [fold_left].
    - cbn. now rewrite Nat.add_0_r.
    - specialize (IH (done ++ [f])
                    (fold_left (fault_point_step c x y z radius) (ds_points f) s)).
      unfold trace_points in *. rewrite flat_map_app, length_app in IH.
      cbn [flat_map] in *. rewrite app_nil_r in IH. rewrite length_app.
      rewrite Nat.add_assoc. apply IH.
      + intros p Hp. apply Hq. apply in_or_app. now right.
      + apply fault_points_ok; auto.
        intros p Hp. apply Hq. apply in_or_app. now left. }
  specialize (H [] fs (mkFaultScan (Fin 0) (Fin 0) (Fin 0))).
  cbn [trace_points flat_map List.length Nat.add] in H. apply H.
  - auto.
  - exists 0, 0. cbn. repeat split; try lra. now left.
Qed.

(** X11.  Whatever the query, the fault systems and the radius, the
    reported influence is a real number between 0 and 1 (both copies of
    the estimator; their decay constants are positive). *)
Theorem fault_influence_between_0_and_1 :
  forall (c : FaultConsts) (x y z radius : num) (fs : list DataSet) (u : R),
    0 < decay c ->
    exists v,
      influence (calculateAdvancedFaultInfluence c x y z fs radius u) = Fin v /\
      0 <= v <= 1.
Proof.
  intros c x y z radius fs u Hk.
  destruct (fault_scan_ok c x y z radius fs Hk) as (t & m & Et & _ & _ & Ht & _).
  unfold calculateAdvancedFaultInfluence. cbn [influence]. rewrite Et.
  cbn [Js.min]. eexists. split; [reflexivity |].
  unfold Rmin. destruct (Rle_dec t 1); lra.
Qed.

Lemma fault_influence_between_0_and_1_witness :
  exists v,
    influence
      (calculateAdvancedFaultInfluence tool_fault_consts (Fin 0) (Fin 0) (Fin 0)
         [ {| ds_name := "Main Fault";
              ds_points := [ mkPoint (Fin 1000) (Fin 0) (Fin 0) (Some (Fin 1)) ] |} ]
         (Fin 120) (3 / 4)) = Fin v /\
    0 <= v <= 1.
Proof.
  apply (fault_influence_between_0_and_1 tool_fault_consts).
  cbn. lra.
Defined.

(** X12.  The fault flag is either 0 or the segment id ([segId || 1])
    of a trace point of the given fault systems that lies strictly
    within the radius; in the second case it is neither 0 nor NaN. *)
Theorem fault_flag_comes_from_a_point_in_range :
  forall (c : FaultConsts) (x y z radius : num) (fs : list DataSet) (u : R),
    0 < decay c ->
    fi_faultFlag (calculateAdvancedFaultInfluence c x y z fs radius u) = Fin 0 \/
    exists p,
      In p (trace_points fs) /\
      (spatial_distance x y z p <? radius)%js = true /\
      fi_faultFlag (calculateAdvancedFaultInfluence c x y z fs radius u)
      = segId_or_1 p /\
      falsy (segId_or_1 p) = false.
Proof.
  intros c x y z radius fs u Hk.
  destruct (fault_scan_ok c x y z radius fs Hk) as (t & m & _ & _ & _ & _ & Hdom).
  unfold calculateAdvancedFaultInfluence. cbn [fi_faultFlag].
  destruct (_ >? _)%js; [| now left].
  destruct Hdom as [-> | (p & Hp & Hr & ->)]; [now left |].
  right. exists p. repeat split; auto. apply segId_or_1_truthy.
Qed.

Lemma fault_flag_comes_from_a_point_in_range_witness :
  let fs := [ {| ds_name := "Main Fault";
                 ds_points := [ mkPoint (Fin 1000) (Fin 0) (Fin 0) (Some (Fin 1)) ] |} ] in
  fi_faultFlag
    (calculateAdvancedFaultInfluence utils_fault_consts (Fin 0) (Fin 0) (Fin 0)
       fs (Fin 100) (3 / 4)) = Fin 0 \/
  exists p,
    In p (trace_points fs) /\
    (spatial_distance (Fin 0) (Fin 0) (Fin 0) p <? Fin 100)%js = true /\
    fi_faultFlag
      (calculateAdvancedFaultInfluence utils_fault_consts (Fin 0) (Fin 0) (Fin 0)
         fs (Fin 100) (3 / 4)) = segId_or_1 p /\
    falsy (segId_or_1 p) = false.
Proof.
  apply (fault_flag_comes_from_a_point_in_range utils_fault_consts).
  cbn. lra.
Defined.

(** X13.  For a draw in [0, 1) the displacement is a real number of
    magnitude at most half the throw constant (30 in the component, 25
    in the utilities) per trace point of the fault systems: it scales
    with the uncapped sum of the influences, not with the capped
    influence that is reported. *)
Theorem displacement_bounded_per_trace_point :
  forall (c : FaultConsts) (x y z radius : num) (fs : list DataSet) (u : R),
    0 < decay c -> 0 <= throw c -> 0 <= u < 1 ->
    exists d,
      displacement (calculateAdvancedFaultInfluence c x y z fs radius u) = Fin d /\
      Rabs d <= throw c / 2 * INR (List.length (trace_points fs)).
Proof.
  intros c x y z radius fs u Hk Hthrow Hu.
  destruct (fault_scan_ok c x y z radius fs Hk) as (t & m & Et & _ & _ & Ht & _).
  unfold calculateAdvancedFaultInfluence. cbn [displacement]. rewrite Et.
  cbn [Js.mul Js.sub]. eexists. split; [reflexivity |].
  set (n := INR (List.length (trace_points fs))) in *.
  rewrite !Rabs_mult.
  rewrite (Rabs_pos_eq t) by lra. rewrite (Rabs_pos_eq (throw c)) by lra.
  assert (Hh : Rabs (u - 1 / 2) <= 1 / 2).
  { apply Rabs_le. lra. }
  pose proof (Rabs_pos (u - 1 / 2)).
  assert (t * throw c <= n * throw c) by nra.
  assert (0 <= t * throw c) by nra.
  nra.
Qed.

Lemma displacement_bounded_per_trace_point_witness :
  let fs := [ {| ds_name := "Main Fault";
                 ds_points := [ mkPoint (Fin 1) (Fin 0) (Fin 0) (Some (Fin 1)) ] |} ] in
  exists d,
    displacement
      (calculateAdvancedFaultInfluence tool_fault_consts (Fin 0) (Fin 0) (Fin 0)
         fs (Fin 120) (3 / 4)) = Fin d /\
    Rabs d <= throw tool_fault_consts / 2 * INR (List.length (trace_points fs)).
Proof.
  apply (displacement_bounded_per_trace_point tool_fault_consts);
    cbn; lra.
Defined.

(* ================================================================== *)
(** * The builder: what every finished build satisfies *)
(* ================================================================== *)

Section LoopInversion.
Variable rnd : nat -> R.
Variables (top bottom : list Point) (fs : list DataSet) (layers : nat).
Variables (box : Bounds) (spacing : num).

Local Abbreviation run := (run_positions rnd top bottom fs layers spacing).

Lemma loop_y_inv (fuel : nat) (x y : num) (acc acc' : Acc) :
  loop_y rnd top bottom fs layers box spacing fuel x y acc = Some acc' ->
  exists ys,
    counter_values fuel y spacing (yMax box) = Some ys /\
    acc' = run (map (pair x) ys) acc.
Proof.
  revert y acc. induction fuel as [| fuel IH]; intros y acc H;
    cbn [loop_y counter_values] in *.
  - discriminate.
  - destruct (y <=? yMax box)%js.
    + destruct (IH _ _ H) as (ys & E & ->). rewrite E.
      exists (y :: ys). split; reflexivity.
    + inversion H; subst. exists []. split; reflexivity.
Qed.

Lemma loop_x_inv (inner fuel : nat) (x : num) (acc acc' : Acc) :
  loop_x rnd top bottom fs layers box spacing inner fuel x acc = Some acc' ->
  exists xs ys,
    counter_values fuel x spacing (xMax box) = Some xs /\
    (xs <> [] -> counter_values inner (yMin box) spacing (yMax box) = Some ys) /\
    acc' = run (list_prod xs ys) acc.
Proof.
  revert x acc. induction fuel as [| fuel IH]; intros x acc H;
    cbn [loop_x counter_values] in *.
  - discriminate.
  - destruct (x <=? xMax box)%js.
    + destruct (loop_y _ _ _ _ _ _ _ inner x (yMin box) acc) as [acc1 |] eqn:Ey;
        [| discriminate].
      destruct (loop_y_inv _ _ _ _ _ Ey) as (ys & Eys & ->).
      destruct (IH _ _ H) as (xs & ys' & Exs & Hys' & ->).
      rewrite Exs. exists (x :: xs), ys. split; [reflexivity |]. split; [auto |].
      cbn [list_prod]. unfold run_positions. rewrite fold_left_app.
      destruct xs as [| x1 xs].
      * reflexivity.
      * assert (ys' = ys) as ->.
        { specialize (Hys' ltac:(discriminate)). congruence. }
        reflexivity.
    + inversion H; subst. exists [], []. repeat split. intros C. now destruct C.
Qed.

(** The effect of a run on the accumulators. *)
Lemma layers_effect (x y bottomZ thickness layerThickness : num)
    (idxs : list nat) (acc : Acc) :
  exists new,
    acc_grid (fold_left
                (layer_step rnd fs layers spacing x y bottomZ thickness
                   layerThickness) idxs acc)
    = acc_grid acc ++ new /\
    map layer new = idxs /\
    acc_seed (fold_left
                (layer_step rnd fs layers spacing x y bottomZ thickness
                   layerThickness) idxs acc)
    = (acc_seed acc + 4 * List.length new)%nat /\
    Forall (fun c => merge_info c = None /\ (wellPath c <= 1)%nat) new.
Proof.
  revert acc. induction idxs as [| i idxs IH]; intros acc; cbn [fold_left].
  - exists []. rewrite app_nil_r. cbn. repeat split; try lia. constructor.
  - destruct (IH (layer_step rnd fs layers spacing x y bottomZ thickness
                    layerThickness acc i)) as (new & E & Hl & Hs & Hf).
    rewrite E, Hs. cbn [layer_step acc_grid acc_seed]. rewrite <- app_assoc.
    eexists. split; [reflexivity |]. split; [| split].
    + cbn. now rewrite Hl.
    + cbn [List.length app]. lia.
    + constructor; [| exact Hf]. cbn [merge_info wellPath].
      split; [reflexivity |]. destruct (_ && _); lia.
Qed.

Lemma sample_effect (p : num * num) (acc : Acc) :
  exists col,
    acc_grid (sample_position rnd top bottom fs layers spacing (fst p) (snd p) acc)
    = acc_grid acc ++ col /\
    map layer col =
      (if retained top bottom p then seq 0 (layers + 2) else []) /\
    acc_seed (sample_position rnd top bottom fs layers spacing (fst p) (snd p) acc)
    = (acc_seed acc + 4 * List.length col)%nat /\
    Forall (fun c => merge_info c = None /\ (wellPath c <= 1)%nat) col.
Proof.
  unfold sample_position, retained.
  destruct (_ <=? _)%js; cbn [negb].
  - exists []. rewrite app_nil_r. cbn. repeat split; try lia. constructor.
  - apply layers_effect.
Qed.

Lemma run_effect (ps : list (num * num)) (acc : Acc) :
  exists new,
    acc_grid (run ps acc) = acc_grid acc ++ new /\
    map layer new =
      column_layers layers (List.length (filter (retained top bottom) ps)) /\
    acc_seed (run ps acc) = (acc_seed acc + 4 * List.length new)%nat /\
    Forall (fun c => merge_info c = None /\ (wellPath c <= 1)%nat) new.
Proof.
  revert acc. induction ps as [| p ps IH]; intros acc.
  - exists []. rewrite app_nil_r. cbn. repeat split; try lia. constructor.
  - unfold run_positions. cbn [fold_left filter].
    destruct (sample_effect p acc) as (col & Ec & Hlc & Hsc & Hfc).
    destruct (IH (sample_position rnd top bottom fs layers spacing
                    (fst p) (snd p) acc)) as (new & E & Hl & Hs & Hf).
    unfold run_positions in E, Hs.
    exists (col ++ new). split; [| split; [| split]].
    + rewrite E, Ec. now rewrite app_assoc.
    + rewrite map_app, Hlc, Hl.
      destruct (retained top bottom p); reflexivity.
    + rewrite Hs, Hsc, length_app. lia.
    + apply Forall_app. now split.
Qed.
End LoopInversion.

Lemma column_layers_length (layers k : nat) :
  List.length (column_layers layers k) = (k * (layers + 2))%nat.
Proof.
  unfold column_layers. induction k as [| k IH]; cbn [repeat List.concat].
  - reflexivity.
  - rewrite length_app, length_seq, IH. lia.
Qed.

Lemma column_layers_bound (layers k i : nat) :
  In i (column_layers layers k) -> (i < layers + 2)%nat.
Proof.
  unfold column_layers. induction k as [| k IH]; cbn [repeat List.concat].
  - intros [].
  - intros H. apply in_app_or in H. destruct H as [H | H]; [| now apply IH].
    apply in_seq in H. lia.
Qed.

(** A finished build, in terms of the run over the positions visited. *)
Lemma generate_inv (rnd : nat -> R) (now fuel : nat) (st st' : AppState)
    (top bottom : DataSet) (others : list DataSet) :
  horizonData st = top :: bottom :: others ->
  (horizon_samples st <= argument_limit st)%N ->
  generateGeologicalGrid rnd now fuel st = Some (Returned tt, st') ->
  let b := horizon_bounds (ds_points top) (ds_points bottom) in
  exists (xs ys : list num) (g : Grid),
    counter_values fuel (xMin b) (grid_spacing b) (xMax b) = Some xs /\
    (xs <> [] ->
     counter_values fuel (yMin b) (grid_spacing b) (yMax b) = Some ys) /\
    let acc :=
      run_positions rnd (ds_points top) (ds_points bottom) (faultData st)
        (numLayers st) (grid_spacing b) (list_prod xs ys)
        {| acc_grid := []; acc_totalVolume := Fin 0;
           acc_pointCount := 0; acc_seed := seed st |} in
    st' = with_generating false (with_seed (acc_seed acc) (register_grid g st)) /\
    id g = now /\ bounds g = b /\ layerCount g = (numLayers st + 2)%nat /\
    points g = acc_grid acc /\ pointCount g = acc_pointCount acc /\
    totalVolume g = Js.round (acc_totalVolume acc).
Proof.
  intros Hh Hlim H b.
  rewrite (generate_within_limit rnd now fuel st top bottom others Hh Hlim) in H.
  unfold sample_and_register in H. fold b in H.
  destruct (loop_x _ _ _ _ _ _ _ _ _ _ _) as [acc |] eqn:E; [| discriminate].
  destruct (loop_x_inv _ _ _ _ _ _ _ _ _ _ _ _ E) as (xs & ys & Exs & Eys & ->).
  inversion H; subst st'. clear H.
  exists xs, ys. eexists. split; [exact Exs |]. split; [exact Eys |].
  cbv zeta. split; [reflexivity |]. cbn. repeat split.
Qed.

(** X14.  A finished build with two horizons ends in one of two ways.
    When the samples of the two horizons are more than one call can
    take, the spread call throws: the build alerts that the generation
    failed and stores nothing.  Otherwise it appends one grid, made of
    complete columns: its cells carry the layer indices
    0 .. numLayers + 1 in order, column after column, so each index is
    below [layerCount]; [pointCount] is the number of cells; no cell
    carries merge fields and the well flag is 0 or 1; exactly four random
    draws were consumed per cell; the grid is made active and no alert is
    raised.  Either way the generating flag is off. *)
Theorem built_grid_is_made_of_complete_columns :
  forall (rnd : nat -> R) (now fuel : nat) (st st' : AppState),
    (2 <= List.length (horizonData st))%nat ->
    generateGeologicalGrid rnd now fuel st = Some (Returned tt, st') ->
    isGenerating st' = false /\
    ((argument_limit st < horizon_samples st)%N ->
     grids st' = grids st /\ activeGridId st' = activeGridId st /\
     alerts st' = alerts st ++ [GenerationFailed] /\ seed st' = seed st) /\
    ((horizon_samples st <= argument_limit st)%N ->
     exists (g : Grid) (columns : nat),
       grids st' = grids st ++ [g] /\
       activeGridId st' = Some now /\ id g = now /\
       alerts st' = alerts st /\
       layerCount g = (numLayers st + 2)%nat /\
       map layer (points g) = column_layers (numLayers st) columns /\
       pointCount g = List.length (points g) /\
       pointCount g = (columns * layerCount g)%nat /\
       seed st' = (seed st + 4 * pointCount g)%nat /\
       Forall (fun c => (layer c < layerCount g)%nat /\
                        merge_info c = None /\ (wellPath c <= 1)%nat)
              (points g)).
Proof.
  intros rnd now fuel st st' Hlen H.
  assert (Hcatch : (argument_limit st < horizon_samples st)%N ->
            st' = with_generating false (with_alert GenerationFailed st)).
  { intros Hlim. rewrite (generate_beyond_limit rnd now fuel st Hlim) in H.
    now inversion H. }
  destruct (N.le_gt_cases (horizon_samples st) (argument_limit st))
    as [Hlim | Hlim].
  2:{ rewrite (Hcatch Hlim).
      cbn [grids activeGridId alerts seed isGenerating with_generating
             with_alert].
      split; [reflexivity |]. split; [intros _; repeat split | lia]. }
  destruct (horizonData st) as [| top [| bottom others]] eqn:Hh;
    cbn in Hlen; try lia.
  destruct (generate_inv rnd now fuel st st' top bottom others Hh Hlim H)
    as (xs & ys & g & _ & _ & Hst & Hid & _ & Hlc & Hpts & Hpc & _).
  split; [now rewrite Hst |]. split; [lia |]. intros _.
  set (acc0 := {| acc_grid := []; acc_totalVolume := Fin 0;
                  acc_pointCount := 0; acc_seed := seed st |}) in *.
  destruct (run_effect rnd (ds_points top) (ds_points bottom) (faultData st)
              (numLayers st)
              (grid_spacing (horizon_bounds (ds_points top) (ds_points bottom)))
              (list_prod xs ys) acc0) as (new & E & Hl & Hs & Hf).
  pose proof (run_count rnd (ds_points top) (ds_points bottom) (faultData st)
                (numLayers st)
                (grid_spacing (horizon_bounds (ds_points top) (ds_points bottom)))
                (list_prod xs ys) acc0) as Hc.
  cbn [acc_grid acc_pointCount acc_seed acc0 app Nat.add] in E, Hs, Hc.
  set (k := List.length
              (filter (retained (ds_points top) (ds_points bottom))
                 (list_prod xs ys))) in *.
  assert (Hn : List.length new = (k * (numLayers st + 2))%nat).
  { rewrite <- (length_map layer), Hl. apply column_layers_length. }
  exists g, k. subst st'.
  cbn [grids activeGridId isGenerating alerts seed with_generating with_seed
         register_grid].
  rewrite Hid, Hlc, Hpts, Hpc, E, Hs, Hc, Hn.
  repeat split; try reflexivity; try lia.
  - exact Hl.
  - apply Forall_forall. intros c Hcin. rewrite Forall_forall in Hf.
    destruct (Hf c Hcin) as [Hm Hw]. repeat split; try assumption.
    apply (column_layers_bound (numLayers st) k). rewrite <- Hl.
    now apply in_map.
Qed.

Lemma built_grid_is_made_of_complete_columns_witness :
  exists (st' : AppState) (g : Grid) (columns : nat),
    generateGeologicalGrid half_stream 7 47 offgrid_state
    = Some (Returned tt, st') /\
    isGenerating st' = false /\
    grids st' = grids offgrid_state ++ [g] /\
    activeGridId st' = Some 7%nat /\ id g = 7%nat /\
    alerts st' = alerts offgrid_state /\
    layerCount g = (numLayers offgrid_state + 2)%nat /\
    map layer (points g) = column_layers (numLayers offgrid_state) columns /\
    pointCount g = List.length (points g) /\
    pointCount g = (columns * layerCount g)%nat /\
    seed st' = (seed offgrid_state + 4 * pointCount g)%nat /\
    Forall (fun c => (layer c < layerCount g)%nat /\
                     merge_info c = None /\ (wellPath c <= 1)%nat)
           (points g).
Proof.
  destruct (offgrid_build half_stream 7) as (st' & g0 & Hgen & _).
  destruct (built_grid_is_made_of_complete_columns half_stream 7 47
              offgrid_state st') as (Hflag & _ & Hstored).
  - cbn. lia.
  - exact Hgen.
  - destruct (Hstored offgrid_fits) as (g & k & H).
    exists st', g, k. split; [exact Hgen |]. split; [exact Hflag | exact H].
Defined.

(* ================================================================== *)
(** * The builder: cell properties, lattice, termination *)
(* ================================================================== *)

Lemma round_to_le (s w hi : R) (k : Z) :
  0 < s -> hi * s = IZR k -> w <= hi ->
  exists v, round_to s (Fin w) = Fin v /\ v <= hi.
Proof.
  intros Hs Hk Hw. rewrite round_to_fin by exact Hs.
  eexists. split; [reflexivity |].
  assert (H : Rround (w * s) <= Rround (hi * s)) by (apply Rround_le; nra).
  rewrite Hk, Rround_IZR, <- Hk in H.
  apply Rmult_le_reg_r with s; [exact Hs |].
  unfold Rdiv. rewrite Rmult_assoc, Rinv_l by lra. lra.
Qed.

Lemma round_to_between (s w lo hi : R) (klo khi : Z) :
  0 < s -> lo * s = IZR klo -> hi * s = IZR khi -> lo <= w <= hi ->
  exists v, round_to s (Fin w) = Fin v /\ lo <= v <= hi.
Proof.
  intros Hs Hlo Hhi [H1 H2].
  destruct (round_to_ge s w lo klo Hs Hlo H1) as (v & E & Hv).
  destruct (round_to_le s w hi khi Hs Hhi H2) as (v' & E' & Hv').
  rewrite E in E'. inversion E'; subst v'. eauto.
Qed.

Lemma power_of_ten_range (y : R) :
  - (1 / 2) <= y <= 3 -> 31 / 100 <= Rpower 10 y <= 1000.
Proof.
  intros [Hlo Hhi]. split.
  - apply Rle_trans with (Rpower 10 (- / 2)).
    + rewrite Rpower_Ropp, Rpower_sqrt by lra.
      assert (Hs : R_sqrt.sqrt 10 <= 32 / 10).
      { rewrite <- (sqrt_square (32 / 10)) by lra.
        apply sqrt_le_1_alt. lra. }
      assert (Hp : 0 < R_sqrt.sqrt 10) by (apply sqrt_lt_R0; lra).
      apply Rle_trans with (/ (32 / 10)); [lra |].
      apply Rinv_le_contravar; assumption.
    + apply Rle_Rpower; lra.
  - apply Rle_trans with (Rpower 10 3).
    + apply Rle_Rpower; lra.
    + replace 3 with (INR 3) by (simpl; lra).
      rewrite Rpower_pow by lra. simpl. lra.
Qed.

(** The porosity and permeability a layer step stores. *)
Lemma layer_step_properties (rnd : nat -> R) (fs : list DataSet) (layers : nat)
    (spacing x y bottomZ thickness layerThickness : num) (acc : Acc) (idx : nat) :
  unit_stream rnd ->
  exists c,
    acc_grid (layer_step rnd fs layers spacing x y bottomZ thickness
                layerThickness acc idx) = acc_grid acc ++ [c] /\
    (exists v, porosity c = Fin v /\ 12 / 100 <= v <= 3 / 10) /\
    (exists v, permeability c = Fin v /\ 31 / 100 <= v <= 1000).
Proof.
  intros Hu. eexists. split; [reflexivity |].
  cbn [porosity permeability Js.add Js.mul Js.sub Js.pow10].
  pose proof (Hu (acc_seed acc + 1)%nat) as H1.
  pose proof (Hu (acc_seed acc + 2)%nat) as H2.
  split.
  - apply (round_to_between 1000 _ (12 / 100) (3 / 10) 120 300); lra.
  - apply (round_to_between 100 _ (31 / 100) 1000 31 100000); try lra.
    apply power_of_ten_range. lra.
Qed.

Section CellProperties.
Variable rnd : nat -> R.
Variables (top bottom : list Point) (fs : list DataSet) (layers : nat).
Variable spacing : num.
Variable P : Cell -> Prop.
Hypothesis step_ok :
  forall x y bottomZ thickness layerThickness acc idx,
  exists c,
    acc_grid (layer_step rnd fs layers spacing x y bottomZ thickness
                layerThickness acc idx) = acc_grid acc ++ [c] /\ P c.

Lemma layers_forall (x y bottomZ thickness layerThickness : num)
    (idxs : list nat) (acc : Acc) :
  Forall P (acc_grid acc) ->
  Forall P (acc_grid (fold_left
                        (layer_step rnd fs layers spacing x y bottomZ thickness
                           layerThickness) idxs acc)).
Proof.
  revert acc. induction idxs as [| i idxs IH]; intros acc H; cbn [fold_left].
  - exact H.
  - apply IH.
    destruct (step_ok x y bottomZ thickness layerThickness acc i) as (c & -> & Hc).
    apply Forall_app. split; [exact H | now constructor].
Qed.

Lemma run_forall (ps : list (num * num)) (acc : Acc) :
  Forall P (acc_grid acc) ->
  Forall P (acc_grid (run_positions rnd top bottom fs layers spacing ps acc)).
Proof.
  revert acc. induction ps as [| p ps IH]; intros acc H.
  - exact H.
  - unfold run_positions. cbn [fold_left]. apply IH.
    unfold sample_position. destruct (_ <=? _)%js; [exact H |].
    now apply layers_forall.
Qed.
End CellProperties.

(** X15.  With draws in [0, 1) and horizon samples that fit one call,
    a finished build stores a grid and every cell of it has a porosity
    between 0.12 and 0.30 and a permeability between 0.31 and 1000 (both
    as stored, after rounding). *)
Theorem built_cells_have_nominal_properties :
  forall (rnd : nat -> R) (now fuel : nat) (st st' : AppState),
    unit_stream rnd ->
    (2 <= List.length (horizonData st))%nat ->
    (horizon_samples st <= argument_limit st)%N ->
    generateGeologicalGrid rnd now fuel st = Some (Returned tt, st') ->
    exists g : Grid,
      grids st' = grids st ++ [g] /\
      Forall (fun c =>
                (exists v, porosity c = Fin v /\ 12 / 100 <= v <= 3 / 10) /\
                (exists v, permeability c = Fin v /\ 31 / 100 <= v <= 1000))
             (points g).
Proof.
  intros rnd now fuel st st' Hu Hlen Hlim H.
  destruct (horizonData st) as [| top [| bottom others]] eqn:Hh;
    cbn in Hlen; try lia.
  destruct (generate_inv rnd now fuel st st' top bottom others Hh Hlim H)
    as (xs & ys & g & _ & _ & Hst & _ & _ & _ & Hpts & _).
  exists g. split; [subst st'; reflexivity |].
  rewrite Hpts. apply run_forall.
  - intros. now apply layer_step_properties.
  - constructor.
Qed.

Lemma half_stream_unit : unit_stream half_stream.
Proof. intros n. unfold half_stream. lra. Qed.

Lemma built_cells_have_nominal_properties_witness :
  exists (st' : AppState) (g : Grid),
    generateGeologicalGrid half_stream 7 47 offgrid_state
    = Some (Returned tt, st') /\
    grids st' = grids offgrid_state ++ [g] /\
    Forall (fun c =>
              (exists v, porosity c = Fin v /\ 12 / 100 <= v <= 3 / 10) /\
              (exists v, permeability c = Fin v /\ 31 / 100 <= v <= 1000))
           (points g).
Proof.
  destruct (offgrid_build half_stream 7) as (st' & g0 & Hgen & _).
  destruct (built_cells_have_nominal_properties half_stream 7 47
              offgrid_state st') as (g & H).
  - exact half_stream_unit.
  - cbn. lia.
  - exact offgrid_fits.
  - exact Hgen.
  - exists st', g. split; [exact Hgen | exact H].
Defined.

(** ** The bounding box of finite horizons *)

Lemma is_min_max_ordered (lo hi : num) (l : list num) :
  Forall finite l -> is_min lo l -> is_max hi l -> finite_ordered lo hi.
Proof.
  intros Hf [Hlo Hmin] [Hhi _]. rewrite Forall_forall in Hf.
  pose proof (Hf _ Hlo) as F1. pose proof (Hf _ Hhi) as F2.
  specialize (Hmin _ Hhi).
  destruct lo, hi; try contradiction. cbn in *. now apply Rleb_spec.
Qed.

Lemma horizon_bounds_well_formed (top bottom : DataSet) :
  finite_horizons top bottom ->
  well_formed_bounds (horizon_bounds (ds_points top) (ds_points bottom)).
Proof.
  intros [Hne Hfin]. unfold horizon_bounds.
  set (l := ds_points top ++ ds_points bottom) in *.
  destruct (envelope_is_envelope px py pz l Hne)
    as (X0 & X1 & Y0 & Y1 & Z0 & Z1).
  { intros p Hp. apply (Hfin p Hp). }
  assert (Hf : forall f : Point -> num,
             (forall p, In p l -> finite (f p)) -> Forall finite (map f l)).
  { intros f H. apply Forall_forall. intros v Hv. apply in_map_iff in Hv.
    destruct Hv as (p & <- & Hp). now apply H. }
  split; [| split].
  - apply (is_min_max_ordered _ _ (map px l)); auto.
    apply Hf. intros p Hp. apply (Hfin p Hp).
  - apply (is_min_max_ordered _ _ (map py l)); auto.
    apply Hf. intros p Hp. apply (Hfin p Hp).
  - apply (is_min_max_ordered _ _ (map pz l)); auto.
    apply Hf. intros p Hp. apply (Hfin p Hp).
Qed.

(** The box of finite horizons in real coordinates, with its spacing. *)
Lemma horizon_box (top bottom : DataSet) :
  finite_horizons top bottom ->
  exists x0 x1 y0 y1 z0 z1 : R,
    horizon_bounds (ds_points top) (ds_points bottom) =
    {| xMin := Fin x0; xMax := Fin x1; yMin := Fin y0; yMax := Fin y1;
       zMin := Fin z0; zMax := Fin z1 |} /\
    x0 <= x1 /\ y0 <= y1 /\ z0 <= z1 /\
    grid_spacing (horizon_bounds (ds_points top) (ds_points bottom)) =
    Fin (Rmin ((x1 - x0) / 45) ((y1 - y0) / 45)).
Proof.
  intros H. destruct (horizon_bounds_well_formed top bottom H) as (Hx & Hy & Hz).
  destruct (horizon_bounds (ds_points top) (ds_points bottom))
    as [x0 x1 y0 y1 z0 z1]. cbn in Hx, Hy, Hz.
  destruct x0 as [| | x0 |], x1 as [| | x1 |]; try contradiction.
  destruct y0 as [| | y0 |], y1 as [| | y1 |]; try contradiction.
  destruct z0 as [| | z0 |], z1 as [| | z1 |]; try contradiction.
  exists x0, x1, y0, y1, z0, z1. repeat split; try assumption.
  unfold grid_spacing. cbn. now rewrite Reqb_false by lra.
Qed.

(** X16.  For horizons with finite samples that fit one call, a
    finished build stores a grid with finite, ordered bounds, and every
    cell of it is stored at the two-decimal rounding of a position the
    loops visited inside the stored bounds, so its x and y lie between
    the rounded ends of the bounds. *)
Theorem built_cells_lie_within_bounds :
  forall (rnd : nat -> R) (now fuel : nat) (st st' : AppState)
         (top bottom : DataSet) (others : list DataSet),
    horizonData st = top :: bottom :: others ->
    finite_horizons top bottom ->
    (horizon_samples st <= argument_limit st)%N ->
    generateGeologicalGrid rnd now fuel st = Some (Returned tt, st') ->
    exists g : Grid,
      grids st' = grids st ++ [g] /\
      well_formed_bounds (bounds g) /\
      Forall (fun c =>
                (exists vx vy : R,
                    (xMin (bounds g) <=? Fin vx)%js = true /\
                    (Fin vx <=? xMax (bounds g))%js = true /\
                    (yMin (bounds g) <=? Fin vy)%js = true /\
                    (Fin vy <=? yMax (bounds g))%js = true /\
                    cx c = round_to 100 (Fin vx) /\
                    cy c = round_to 100 (Fin vy)) /\
                (round_to 100 (xMin (bounds g)) <=? cx c)%js = true /\
                (cx c <=? round_to 100 (xMax (bounds g)))%js = true /\
                (round_to 100 (yMin (bounds g)) <=? cy c)%js = true /\
                (cy c <=? round_to 100 (yMax (bounds g)))%js = true)
             (points g).
Proof.
  intros rnd now fuel st st' top bottom others Hh Hfin Hlim H.
  destruct (generate_inv rnd now fuel st st' top bottom others Hh Hlim H)
    as (xs & ys & g & Exs & Eys & Hst & _ & Hb & _ & Hpts & _).
  exists g. split; [subst st'; reflexivity |].
  rewrite Hb. split; [now apply horizon_bounds_well_formed |].
  destruct (horizon_box top bottom Hfin)
    as (x0 & x1 & y0 & y1 & z0 & z1 & Ebox & Hx & Hy & _ & Es).
  rewrite Ebox, Es in *. cbn [xMin xMax yMin yMax] in *.
  set (s := Rmin ((x1 - x0) / 45) ((y1 - y0) / 45)) in *.
  assert (Hs : 0 <= s).
  { unfold s. apply Rmin_glb; unfold Rdiv; nra. }
  rewrite Hpts.
  destruct (run_appends rnd (ds_points top) (ds_points bottom) (faultData st)
              (numLayers st) (Fin s) (list_prod xs ys)
              {| acc_grid := []; acc_totalVolume := Fin 0;
                 acc_pointCount := 0; acc_seed := seed st |})
    as (new & -> & Hnew).
  cbn [acc_grid app].
  eapply Forall_impl; [| exact Hnew].
  intros c ([px' py'] & Hp & Hcx & Hcy). cbn [fst snd] in Hcx, Hcy.
  apply in_prod_iff in Hp. destruct Hp as [Hpx Hpy].
  assert (Hxs : xs <> []) by (intros ->; destruct Hpx).
  specialize (Eys Hxs).
  pose proof (counter_values_spec _ _ _ _ _ Exs) as Sx.
  pose proof (counter_values_spec _ _ _ _ _ Eys) as Sy.
  rewrite Forall_forall in Sx, Sy.
  destruct (Sx _ Hpx) as (kx & -> & Hkx).
  destruct (Sy _ Hpy) as (ky & -> & Hky).
  pose proof (pos_INR kx). pose proof (pos_INR ky).
  set (vx := x0 + INR kx * s) in *. set (vy := y0 + INR ky * s) in *.
  assert (Hvx : x0 <= vx) by (unfold vx; nra).
  assert (Hvy : y0 <= vy) by (unfold vy; nra).
  split.
  - exists vx, vy. cbn [Js.leb]. rewrite !Rleb_true by lra. auto 10.
  - rewrite Hcx, Hcy, !round_to_fin by lra. cbn.
    assert (M : forall a b : R, a <= b ->
                Rround (a * 100) / 100 <= Rround (b * 100) / 100).
    { intros a b Hab. unfold Rdiv. apply Rmult_le_compat_r; [lra |].
      apply Rround_le. lra. }
    rewrite !Rleb_true by (apply M; lra). auto.
Qed.

Lemma offgrid_finite_horizons :
  finite_horizons {| ds_name := "Top"; ds_points := offgrid_horizon 1000 |}
                  {| ds_name := "Base"; ds_points := offgrid_horizon 900 |}.
Proof.
  split; [discriminate |].
  intros p Hp. cbn in Hp.
  repeat (destruct Hp as [<- | Hp]; [cbn; repeat split |]); destruct Hp.
Qed.

Lemma built_cells_lie_within_bounds_witness :
  exists (st' : AppState) (g : Grid),
    generateGeologicalGrid half_stream 7 47 offgrid_state
    = Some (Returned tt, st') /\
    grids st' = grids offgrid_state ++ [g] /\
    well_formed_bounds (bounds g) /\
    Forall (fun c =>
              (exists vx vy : R,
                  (xMin (bounds g) <=? Fin vx)%js = true /\
                  (Fin vx <=? xMax (bounds g))%js = true /\
                  (yMin (bounds g) <=? Fin vy)%js = true /\
                  (Fin vy <=? yMax (bounds g))%js = true /\
                  cx c = round_to 100 (Fin vx) /\
                  cy c = round_to 100 (Fin vy)) /\
              (round_to 100 (xMin (bounds g)) <=? cx c)%js = true /\
              (cx c <=? round_to 100 (xMax (bounds g)))%js = true /\
              (round_to 100 (yMin (bounds g)) <=? cy c)%js = true /\
              (cy c <=? round_to 100 (yMax (bounds g)))%js = true)
           (points g).
Proof.
  destruct (offgrid_build half_stream 7) as (st' & g0 & Hgen & _).
  destruct (built_cells_lie_within_bounds half_stream 7 47 offgrid_state st'
              {| ds_name := "Top"; ds_points := offgrid_horizon 1000 |}
              {| ds_name := "Base"; ds_points := offgrid_horizon 900 |} [])
    as (g & H).
  - reflexivity.
  - exact offgrid_finite_horizons.
  - exact offgrid_fits.
  - exact Hgen.
  - exists st', g. split; [exact Hgen | exact H].
Defined.


(* ================================================================== *)
(** * When a build finishes *)
(* ================================================================== *)

Lemma loop_y_stuck (rnd : nat -> R) (top bottom : list Point)
    (fs : list DataSet) (layers : nat) (box : Bounds) (y1 v : R)
    (fuel : nat) (x : num) (acc : Acc) :
  yMax box = Fin y1 -> v <= y1 ->
  loop_y rnd top bottom fs layers box (Fin 0) fuel x (Fin v) acc = None.
Proof.
  intros Hb Hv. revert acc.
  induction fuel as [| fuel IH]; intros acc; cbn [loop_y]; [reflexivity |].
  rewrite Hb. cbn [Js.leb Js.add]. rewrite Rleb_true by exact Hv.
  replace (v + 0) with v by ring. apply IH.
Qed.

Lemma loop_x_stuck (rnd : nat -> R) (top bottom : list Point)
    (fs : list DataSet) (layers : nat) (box : Bounds) (x0 x1 y0 y1 : R)
    (fuel : nat) (acc : Acc) :
  xMax box = Fin x1 -> yMin box = Fin y0 -> yMax box = Fin y1 ->
  x0 <= x1 -> y0 <= y1 ->
  loop_x rnd top bottom fs layers box (Fin 0) fuel fuel (Fin x0) acc = None.
Proof.
  intros Hx1 Hy0 Hy1 Hx Hy. destruct fuel as [| fuel]; [reflexivity |].
  cbn [loop_x]. rewrite Hx1, Hy0. cbn [Js.leb]. rewrite Rleb_true by exact Hx.
  now rewrite (loop_y_stuck rnd top bottom fs layers box y1 y0).
Qed.

(** X17.  When the samples of the two horizons are finite, fit one
    call, and all share one x or all share one y, the bounds are built,
    the spacing is 0, the loop counters never advance and no loop test
    ever fails: the build never reaches the point where it stores a
    grid, however many loop tests it is given. *)
Theorem build_never_ends_on_zero_extent :
  forall (rnd : nat -> R) (now : nat) (st : AppState)
         (top bottom : DataSet) (others : list DataSet),
    horizonData st = top :: bottom :: others ->
    finite_horizons top bottom ->
    (horizon_samples st <= argument_limit st)%N ->
    let b := horizon_bounds (ds_points top) (ds_points bottom) in
    xMin b = xMax b \/ yMin b = yMax b ->
    grid_spacing b = Fin 0 /\
    forall fuel : nat, generateGeologicalGrid rnd now fuel st = None.
Proof.
  intros rnd now st top bottom others Hh Hfin Hlim b Hz.
  destruct (horizon_box top bottom Hfin)
    as (x0 & x1 & y0 & y1 & z0 & z1 & Ebox & Hx & Hy & _ & Es).
  fold b in Ebox, Es.
  assert (E0 : grid_spacing b = Fin 0).
  { rewrite Es. f_equal. rewrite Ebox in Hz. cbn in Hz.
    destruct Hz as [Hz | Hz]; inversion Hz; subst.
    - rewrite Rmin_left; unfold Rdiv; nra.
    - rewrite Rmin_right; unfold Rdiv; nra. }
  split; [exact E0 |].
  intros fuel.
  rewrite (generate_within_limit rnd now fuel st top bottom others Hh Hlim).
  unfold sample_and_register. fold b. rewrite E0.
  rewrite Ebox at 2. cbn [xMin].
  rewrite (loop_x_stuck rnd _ _ _ _ b x0 x1 y0 y1); trivial;
    rewrite Ebox; reflexivity.
Qed.

Lemma line_bounds :
  horizon_bounds (line_horizon 1000) (line_horizon 900) =
  {| xMin := Fin 0; xMax := Fin 0; yMin := Fin 0; yMax := Fin 100;
     zMin := Fin 900; zMax := Fin 1000 |}.
Proof.
  unfold horizon_bounds, envelope, min_list, max_list. js_eval. reflexivity.
Qed.

Lemma line_finite_horizons :
  finite_horizons {| ds_name := "Top"; ds_points := line_horizon 1000 |}
                  {| ds_name := "Base"; ds_points := line_horizon 900 |}.
Proof.
  split; [discriminate |].
  intros p Hp. cbn in Hp.
  repeat (destruct Hp as [<- | Hp]; [cbn; repeat split |]); destruct Hp.
Qed.

Lemma build_never_ends_on_zero_extent_witness :
  grid_spacing (horizon_bounds (line_horizon 1000) (line_horizon 900)) = Fin 0 /\
  forall fuel : nat, generateGeologicalGrid half_stream 7 fuel line_state = None.
Proof.
  apply (build_never_ends_on_zero_extent half_stream 7 line_state
           {| ds_name := "Top"; ds_points := line_horizon 1000 |}
           {| ds_name := "Base"; ds_points := line_horizon 900 |} []).
  - reflexivity.
  - exact line_finite_horizons.
  - apply small_fits. cbn. lia.
  - left. cbn [ds_points]. rewrite line_bounds. reflexivity.
Defined.

Lemma counter_values_more_fuel (fuel : nat) (v s stop : R) (l : list num) :
  counter_values fuel (Fin v) (Fin s) (Fin stop) = Some l ->
  counter_values (S fuel) (Fin v) (Fin s) (Fin stop) = Some l.
Proof.
  revert v l. induction fuel as [| fuel IH]; intros v l H.
  - discriminate.
  - rewrite counter_values_S. rewrite counter_values_S in H.
    cbn [Js.leb Js.add] in *. destruct (Rleb v stop); [| exact H].
    destruct (counter_values fuel (Fin (v + s)) (Fin s) (Fin stop))
      as [l' |] eqn:E; [| discriminate].
    rewrite (IH _ _ E). exact H.
Qed.

Lemma counter_values_enough (v s stop : R) :
  0 < s ->
  exists n : nat, forall fuel : nat, (n <= fuel)%nat ->
    exists l, counter_values fuel (Fin v) (Fin s) (Fin stop) = Some l.
Proof.
  intros Hs. destruct (INR_archimed s (stop - v) Hs) as [n Hn].
  exists (S n). intros fuel Hf.
  destruct (counter_values_terminates n v s stop Hs) as [l Hl]; [lra |].
  exists l. induction Hf as [| m _ IH]; [exact Hl |].
  now apply counter_values_more_fuel.
Qed.

Lemma generate_finishes (rnd : nat -> R) (now fuel : nat) (st : AppState)
    (top bottom : DataSet) (others : list DataSet) (xs ys : list num) :
  horizonData st = top :: bottom :: others ->
  (horizon_samples st <= argument_limit st)%N ->
  let b := horizon_bounds (ds_points top) (ds_points bottom) in
  counter_values fuel (xMin b) (grid_spacing b) (xMax b) = Some xs ->
  counter_values fuel (yMin b) (grid_spacing b) (yMax b) = Some ys ->
  exists (st' : AppState) (g : Grid),
    generateGeologicalGrid rnd now fuel st = Some (Returned tt, st') /\
    grids st' = grids st ++ [g] /\
    isGenerating st' = false.
Proof.
  intros Hh Hlim b Hx Hy.
  rewrite (generate_within_limit rnd now fuel st top bottom others Hh Hlim).
  unfold sample_and_register.
  fold b. rewrite (loop_x_run rnd _ _ _ _ b _ fuel fuel _ _ xs ys Hx Hy).
  eexists. eexists. split; [reflexivity |]. repeat split.
Qed.

(** With finite samples that differ in x and in y both loop counters
    run out: from some number of tests on, each has a list of values. *)
Lemma positive_extents_counters_stop (top bottom : DataSet) :
  finite_horizons top bottom ->
  let b := horizon_bounds (ds_points top) (ds_points bottom) in
  xMin b <> xMax b -> yMin b <> yMax b ->
  exists n : nat, forall fuel : nat, (n <= fuel)%nat ->
    exists xs ys : list num,
      counter_values fuel (xMin b) (grid_spacing b) (xMax b) = Some xs /\
      counter_values fuel (yMin b) (grid_spacing b) (yMax b) = Some ys.
Proof.
  intros Hfin b Hxne Hyne.
  destruct (horizon_box top bottom Hfin)
    as (x0 & x1 & y0 & y1 & z0 & z1 & Ebox & Hx & Hy & _ & Es).
  fold b in Ebox, Es.
  assert (Hx' : x0 < x1).
  { destruct (Rle_lt_or_eq_dec _ _ Hx) as [L | ->]; [exact L |].
    exfalso. apply Hxne. now rewrite Ebox. }
  assert (Hy' : y0 < y1).
  { destruct (Rle_lt_or_eq_dec _ _ Hy) as [L | ->]; [exact L |].
    exfalso. apply Hyne. now rewrite Ebox. }
  set (s := Rmin ((x1 - x0) / 45) ((y1 - y0) / 45)) in *.
  assert (Hs : 0 < s).
  { unfold s. apply Rmin_glb_lt; unfold Rdiv; nra. }
  destruct (counter_values_enough x0 s x1 Hs) as [nx Hnx].
  destruct (counter_values_enough y0 s y1 Hs) as [ny Hny].
  exists (Nat.max nx ny). intros fuel Hf.
  destruct (Hnx fuel) as [xs Exs]; [lia |].
  destruct (Hny fuel) as [ys Eys]; [lia |].
  exists xs, ys. rewrite Es, Ebox. split; [exact Exs | exact Eys].
Qed.


(* ================================================================== *)
(** * The grid store across user actions *)
(* ================================================================== *)

Lemma find_grid_in (gs : list Grid) (i : nat) (g : Grid) :
  find_grid gs i = Some g -> In g gs /\ id g = i.
Proof.
  intros H. apply find_some in H. destruct H as [Hin Hid].
  split; [exact Hin | now apply Nat.eqb_eq].
Qed.

Lemma find_grid_of_member (gs : list Grid) (g : Grid) :
  In g gs -> find_grid gs (id g) <> None.
Proof.
  intros Hin Hnone.
  apply (find_none _ _ Hnone g) in Hin. now rewrite Nat.eqb_refl in Hin.
Qed.

Lemma find_grid_app (gs more : list Grid) (i : nat) :
  find_grid gs i <> None -> find_grid (gs ++ more) i <> None.
Proof.
  unfold find_grid. induction gs as [| g gs IH]; cbn [find app].
  - intros H. now destruct H.
  - destruct (Nat.eqb (id g) i); [discriminate | exact IH].
Qed.

Lemma find_grid_last (gs : list Grid) (g : Grid) :
  find_grid (gs ++ [g]) (id g) <> None.
Proof. apply find_grid_of_member, in_or_app. right. now left. Qed.

Lemma all_defined_members {A : Type} (f : nat -> option A) (ids : list nat)
    (data : list A) :
  all_defined (map f ids) = Some data ->
  Forall (fun a => exists i, f i = Some a) data.
Proof.
  revert data. induction ids as [| i ids IH]; intros data H; cbn in H.
  - inversion H. constructor.
  - destruct (f i) as [a |] eqn:E; [| discriminate].
    destruct (all_defined (map f ids)) as [r |]; [| discriminate].
    inversion H; subst. constructor; [now exists i | now apply IH].
Qed.

Lemma blended_count (dir : Direction) (bs : list Bounds) (data : list Grid)
    (k n : nat) :
  Forall consistent data ->
  fold_left (fun m g => m + pointCount g)%nat data n =
  (n + List.length
         (flat_map (blended_cells dir bs)
            (combine (seq k (List.length data)) data)))%nat.
Proof.
  intros H. revert k n.
  induction H as [| g data Hg _ IH]; intros k n;
    cbn [fold_left List.length seq combine flat_map].
  - lia.
  - rewrite (IH (S k)), length_app. unfold blended_cells at 2.
    rewrite length_map, Hg. lia.
Qed.

Lemma merged_grid_consistent (now : nat) (dir : Direction) (data : list Grid) :
  Forall consistent data -> consistent (merged_grid now dir data).
Proof.
  intros H. unfold consistent, merged_grid. cbn [pointCount points].
  rewrite (blended_count dir (map bounds data) data 0 0 H).
  unfold indexed. destruct dir; now rewrite sort_by_length.
Qed.

Lemma built_grid_consistent (rnd : nat -> R) (now fuel : nat)
    (st st' : AppState) (c : Completion unit) :
  generateGeologicalGrid rnd now fuel st = Some (c, st') ->
  (grids st' = grids st /\ activeGridId st' = activeGridId st) \/
  exists g, grids st' = grids st ++ [g] /\ activeGridId st' = Some (id g) /\
            consistent g.
Proof.
  intros H.
  destruct (N.le_gt_cases (horizon_samples st) (argument_limit st))
    as [Hlim | Hlim].
  2:{ rewrite (generate_beyond_limit rnd now fuel st Hlim) in H.
      inversion H; subst. left. split; reflexivity. }
  destruct (horizonData st) as [| top [| bottom others]] eqn:Hh;
    try (unfold generateGeologicalGrid in H; rewrite Hh in H;
         inversion H; subst; left; split; reflexivity).
  right. assert (c = Returned tt) as ->.
  { rewrite (generate_within_limit rnd now fuel st top bottom others Hh Hlim)
      in H.
    unfold sample_and_register in H.
    destruct (loop_x _ _ _ _ _ _ _ _ _ _ _); [| discriminate].
    now inversion H. }
  destruct (generate_inv rnd now fuel st st' top bottom others Hh Hlim H)
    as (xs & ys & g & _ & _ & Hst & _ & _ & _ & Hpts & Hpc & _).
  exists g. subst st'. split; [reflexivity |]. split; [reflexivity |].
  unfold consistent. rewrite Hpts, Hpc.
  set (acc0 := {| acc_grid := []; acc_totalVolume := Fin 0;
                  acc_pointCount := 0; acc_seed := seed st |}).
  destruct (run_effect rnd (ds_points top) (ds_points bottom) (faultData st)
              (numLayers st)
              (grid_spacing (horizon_bounds (ds_points top) (ds_points bottom)))
              (list_prod xs ys) acc0) as (new & E & Hl & _).
  rewrite E, run_count. cbn [acc_grid acc_pointCount acc0 app Nat.add].
  rewrite <- (length_map layer new), Hl, column_layers_length. lia.
Qed.

Lemma handler_step_keeps_store (st st' : AppState) :
  store_ok st -> handler_step st st' -> store_ok st'.
Proof.
  intros [Hc Ha] Hstep.
  destruct Hstep as [rnd now fuel st st' c H | now st | now st | g st Hin
                    | g st Hin | st st' Hg Hact].
  - destruct (built_grid_consistent _ _ _ _ _ _ H)
      as [[Eg Ea] | (g & Eg & Ea & Hg)].
    + split; [now rewrite Eg |]. intros a. rewrite Eg, Ea. apply Ha.
    + split.
      * rewrite Eg. apply Forall_app. split; [exact Hc | now constructor].
      * intros a E. rewrite Ea in E. inversion E; subst a. rewrite Eg.
        apply find_grid_last.
  - destruct (canCombineGrids (grids st) (selectedGrids st)) as [r | e] eqn:Hr.
    + destruct (canCombine r) eqn:Hok;
        [destruct (N.le_gt_cases (selected_cells st) (argument_limit st))
           as [Hlim | Hlim] |].
      * destruct (combineGrids_accepted now st r Hr Hok Hlim)
          as (data & Hd & _ & ->).
        cbn [snd grids activeGridId with_alert clear_selection register_grid].
        split.
        -- apply Forall_app. split; [exact Hc |]. constructor; [| constructor].
           apply merged_grid_consistent.
           apply all_defined_members in Hd.
           eapply Forall_impl; [| exact Hd].
           intros g [i Hi]. apply find_grid_in in Hi.
           rewrite Forall_forall in Hc. now apply Hc.
        -- intros a E. inversion E; subst a.
           apply (find_grid_last (grids st)
                    (merged_grid now (mergeDirection st) data)).
      * rewrite (combineGrids_beyond now st r Hr Hok Hlim). now split.
      * unfold combineGrids. rewrite Hr, Hok. cbn. now split.
    + unfold combineGrids. rewrite Hr. cbn. now split.
  - unfold cloneActiveGrid. destruct (activeGrid st) as [g |] eqn:Eg;
      [| now split].
    unfold set_grids. cbn [grids activeGridId]. split.
    + apply Forall_app. split; [exact Hc |]. constructor; [| constructor].
      unfold activeGrid in Eg. destruct (activeGridId st); [| discriminate].
      apply find_grid_in in Eg. rewrite Forall_forall in Hc.
      apply (Hc g (proj1 Eg)).
    + intros a E. apply find_grid_app. now apply Ha.
  - unfold deleteGrid, set_grids. cbn [grids activeGridId]. split.
    + rewrite Forall_forall in *. intros h Hh. apply filter_In in Hh.
      now apply Hc.
    + intros a E. destruct (activeGridId st) as [a0 |]; [| discriminate].
      destruct (Nat.eqb a0 (id g)) eqn:Ea; [discriminate |].
      inversion E; subst a0.
      destruct (find_grid (grids st) a) as [h |] eqn:Eh;
        [| now destruct (Ha a eq_refl)].
      apply find_grid_in in Eh. destruct Eh as [Hh Hid].
      intros Hnone.
      assert (Hm : In h (filter (fun g0 => negb (Nat.eqb (id g0) (id g)))
                           (grids st))).
      { apply filter_In. split; [exact Hh |]. rewrite Hid.
        apply Nat.eqb_neq in Ea. apply negb_true_iff, Nat.eqb_neq. congruence. }
      pose proof (find_none _ _ Hnone h Hm) as Hf. cbn beta in Hf.
      rewrite Hid, Nat.eqb_refl in Hf. discriminate Hf.
  - unfold selectGrid, set_grids. cbn [grids activeGridId]. split; [exact Hc |].
    intros a E. inversion E; subst a. now apply find_grid_of_member.
  - split; [now rewrite Hg |]. intros a. rewrite Hg, Hact. apply Ha.
Qed.

(** X20.  In every state the component can reach from its empty start by
    building, merging, cloning, deleting and selecting grids, each stored
    grid's [pointCount] is the number of its cells, and the active id,
    when set, names a stored grid. *)
Theorem reachable_store_is_consistent :
  forall st : AppState, reachable st -> store_ok st.
Proof.
  intros st H. induction H as [st Hg Ha | st st' _ IH Hstep].
  - split; [rewrite Hg; constructor |]. intros a E. congruence.
  - exact (handler_step_keeps_store st st' IH Hstep).
Qed.

Lemma reachable_store_is_consistent_witness :
  exists st' : AppState,
    generateGeologicalGrid half_stream 7 47 offgrid_state
    = Some (Returned tt, st') /\
    store_ok (deleteGrid 7 (cloneActiveGrid 9 st')).
Proof.
  destruct (offgrid_build half_stream 7) as (st' & g & Hgen & Hg & _).
  exists st'. split; [exact Hgen |].
  apply reachable_store_is_consistent.
  assert (R1 : reachable st').
  { apply reach_step with offgrid_state.
    - apply reach_start; reflexivity.
    - exact (step_generate half_stream 7 47 offgrid_state st' _ Hgen). }
  destruct (generate_inv half_stream 7 47 offgrid_state st'
              {| ds_name := "Top"; ds_points := offgrid_horizon 1000 |}
              {| ds_name := "Base"; ds_points := offgrid_horizon 900 |} []
              eq_refl offgrid_fits Hgen)
    as (xs & ys & g' & _ & _ & Hst & Hid & _).
  apply reach_step with (cloneActiveGrid 9 st').
  - apply reach_step with st'; [exact R1 | apply step_clone].
  - rewrite <- Hid. apply step_delete.
    unfold cloneActiveGrid, activeGrid. rewrite Hst.
    cbn [grids activeGridId with_generating with_seed register_grid
           offgrid_state build_state app find_grid find].
    rewrite Hid, Nat.eqb_refl. cbn. now left.
Defined.


(* ================================================================== *)
(** * Building from horizons without samples *)
(* ================================================================== *)

(** X21.  When both horizons hold no sample the build does not fail: the
    bounds are the infinities of the empty minimum and maximum, the
    first loop test is false, and an empty grid with [pointCount] 0 and
    volume 0 is stored and made active. *)
Theorem build_of_empty_horizons_stores_empty_grid :
  forall (rnd : nat -> R) (now fuel : nat) (st : AppState)
         (top bottom : DataSet) (others : list DataSet),
    horizonData st = top :: bottom :: others ->
    ds_points top = [] -> ds_points bottom = [] ->
    exists (st' : AppState) (g : Grid),
      generateGeologicalGrid rnd now (S fuel) st = Some (Returned tt, st') /\
      grids st' = grids st ++ [g] /\ activeGridId st' = Some now /\
      alerts st' = alerts st /\
      points g = [] /\ pointCount g = 0%nat /\ totalVolume g = Fin 0 /\
      bounds g = empty_bounds.
Proof.
  intros rnd now fuel st top bottom others Hh Ht Hb.
  unfold generateGeologicalGrid. rewrite Hh, Ht, Hb. cbn [app].
  rewrite spread_envelope_within by apply N.le_0_l.
  unfold sample_and_register.
  cbn [loop_x horizon_bounds app envelope map min_list max_list fold_left
         xMin xMax Js.leb].
  eexists. eexists. split; [reflexivity |].
  cbn [grids activeGridId alerts with_generating with_seed register_grid
         points pointCount totalVolume bounds id acc_grid acc_pointCount
         acc_totalVolume Js.round].
  repeat split. f_equal. unfold Rround.
  replace (0 + / 2) with (/ 2) by ring.
  rewrite (Zfloor_eq 0 (/ 2)); [reflexivity | simpl; lra].
Qed.

Lemma build_of_empty_horizons_stores_empty_grid_witness :
  exists (st' : AppState) (g : Grid),
    generateGeologicalGrid half_stream 7 1 empty_horizons_state
    = Some (Returned tt, st') /\
    grids st' = grids empty_horizons_state ++ [g] /\
    activeGridId st' = Some 7%nat /\
    alerts st' = alerts empty_horizons_state /\
    points g = [] /\ pointCount g = 0%nat /\ totalVolume g = Fin 0 /\
    bounds g = empty_bounds.
Proof.
  apply (build_of_empty_horizons_stores_empty_grid half_stream 7 0
           empty_horizons_state
           {| ds_name := "Top"; ds_points := [] |}
           {| ds_name := "Base"; ds_points := [] |} []);
    reflexivity.
Defined.


(* ================================================================== *)
(** * Geological utilities: bounds and validation *)
(* ================================================================== *)

(** X22.  In an engine that takes [limit] arguments in a call,
    [calculateBounds] returns [null] exactly on the empty array, throws a
    RangeError exactly on more than [limit] points, and otherwise, on
    finite points, returns their envelope: each end is a coordinate that
    occurs and bounds all the others, and each axis is finite and in
    order. *)
Theorem calculateBounds_is_the_envelope :
  forall (limit : N) (points : list Point),
    (forall p, In p points -> finite_point p) ->
    match calculateBounds limit points with
    | Thrown e =>
        e = RangeError /\ (limit < N.of_nat (List.length points))%N
    | Returned None => points = []
    | Returned (Some b) =>
        points <> [] /\ (N.of_nat (List.length points) <= limit)%N /\
        is_envelope px py pz b points /\ well_formed_bounds b
    end.
Proof.
  intros limit points Hfin. destruct points as [| p0 rest]; [reflexivity |].
  unfold calculateBounds. set (l := p0 :: rest) in *.
  destruct (N.le_gt_cases (N.of_nat (List.length l)) limit) as [Hlim | Hlim].
  2:{ rewrite spread_envelope_beyond by exact Hlim. cbn. now split. }
  rewrite spread_envelope_within by exact Hlim. cbn [bind].
  assert (Hne : l <> []) by discriminate.
  split; [exact Hne |]. split; [exact Hlim |].
  pose proof (envelope_is_envelope px py pz l Hne Hfin) as He.
  split; [exact He |].
  destruct He as (X0 & X1 & Y0 & Y1 & Z0 & Z1).
  assert (Hf : forall f : Point -> num,
             (forall p, In p l -> finite (f p)) -> Forall finite (map f l)).
  { intros f H. apply Forall_forall. intros v Hv. apply in_map_iff in Hv.
    destruct Hv as (p & <- & Hp). now apply H. }
  split; [| split].
  - apply (is_min_max_ordered _ _ (map px l)); auto.
    apply Hf. intros p Hp. apply (Hfin p Hp).
  - apply (is_min_max_ordered _ _ (map py l)); auto.
    apply Hf. intros p Hp. apply (Hfin p Hp).
  - apply (is_min_max_ordered _ _ (map pz l)); auto.
    apply Hf. intros p Hp. apply (Hfin p Hp).
Qed.

Lemma calculateBounds_is_the_envelope_witness :
  match calculateBounds 65535 (offgrid_horizon 1000) with
  | Thrown e =>
      e = RangeError /\
      (65535 < N.of_nat (List.length (offgrid_horizon 1000)))%N
  | Returned None => offgrid_horizon 1000 = []
  | Returned (Some b) =>
      offgrid_horizon 1000 <> [] /\
      (N.of_nat (List.length (offgrid_horizon 1000)) <= 65535)%N /\
      is_envelope px py pz b (offgrid_horizon 1000) /\ well_formed_bounds b
  end.
Proof.
  apply calculateBounds_is_the_envelope.
  intros p Hp. cbn in Hp.
  repeat (destruct Hp as [<- | Hp]; [cbn; repeat split |]); destruct Hp.
Defined.

Lemma not_a_number_spec (v : Value) :
  not_a_number v = false <-> proper_number v.
Proof.
  unfold proper_number. split.
  - destruct v as [[| | r |] |]; cbn; intros H; try discriminate;
      eexists; (split; [reflexivity | discriminate]).
  - intros (n & -> & Hn). destruct n; cbn; congruence.
Qed.

Lemma bad_coordinates_zero (p : RawPoint) :
  bad_coordinates p = 0%nat <-> proper_point p.
Proof.
  unfold bad_coordinates, proper_point. rewrite <- !not_a_number_spec.
  destruct (not_a_number (raw_x p)), (not_a_number (raw_y p)),
    (not_a_number (raw_z p)); cbn; intuition (try discriminate; try lia).
Qed.

Lemma validate_point_errors (type : string) (es : list ValidationError)
    (ws : list ValidationWarning) (ip : nat * RawPoint) :
  List.length (fst (validate_point type (es, ws) ip)) =
  (List.length es + bad_coordinates (snd ip))%nat.
Proof.
  destruct ip as [index point]. unfold validate_point, bad_coordinates.
  cbn [fst snd].
  destruct (not_a_number (raw_x point)), (not_a_number (raw_y point)),
    (not_a_number (raw_z point)); cbn [fst]; rewrite ?length_app; cbn; lia.
Qed.

Lemma validate_fold_errors (type : string) (l : list (nat * RawPoint))
    (acc : list ValidationError * list ValidationWarning) :
  List.length (fst (fold_left (validate_point type) l acc)) =
  (List.length (fst acc) + list_sum (map (fun ip => bad_coordinates (snd ip)) l))%nat.
Proof.
  revert acc. induction l as [| ip l IH]; intros acc; cbn [fold_left map].
  - cbn. lia.
  - rewrite IH. destruct acc as [es ws]. rewrite validate_point_errors.
    cbn [fst]. change (list_sum (?a :: ?t)) with (a + list_sum t)%nat. lia.
Qed.

Lemma indexed_snd {A : Type} (l : list A) : map snd (indexed l) = l.
Proof.
  unfold indexed. generalize 0%nat. induction l as [| a l IH]; intros k.
  - reflexivity.
  - cbn. now rewrite IH.
Qed.

Lemma list_sum_zero (l : list nat) :
  list_sum l = 0%nat <-> Forall (fun n => n = 0%nat) l.
Proof.
  induction l as [| n l IH].
  - split; [constructor | reflexivity].
  - change (list_sum (n :: l)) with (n + list_sum l)%nat. split.
    + intros H. constructor; [lia |]. apply IH. lia.
    + intros H. inversion H; subst. rewrite (proj2 IH); auto.
Qed.

(** X23.  The validator counts one error per coordinate that is not a
    number or is [NaN], and so accepts exactly the non-empty arrays in
    which every x, y and z is a number other than [NaN]; an infinite
    coordinate passes. *)
Theorem validation_accepts_exactly_proper_points :
  forall (data : list RawPoint) (type : string),
    (data <> [] ->
     List.length (errors (validateGeologicalData data type)) =
     list_sum (map bad_coordinates data)) /\
    (isValid (validateGeologicalData data type) = true <->
     data <> [] /\ Forall proper_point data).
Proof.
  intros data type.
  assert (Hlen : data <> [] ->
            List.length (errors (validateGeologicalData data type)) =
            list_sum (map bad_coordinates data) /\
            isValid (validateGeologicalData data type) =
            Nat.eqb (list_sum (map bad_coordinates data)) 0).
  { intros Hne. destruct data as [| p0 rest]; [contradiction |].
    unfold validateGeologicalData. set (l := p0 :: rest).
    pose proof (validate_fold_errors type (indexed l) ([], [])) as Hf.
    rewrite <- (map_map snd bad_coordinates), indexed_snd in Hf.
    destruct (fold_left (validate_point type) (indexed l) ([], []))
      as [es ws]. cbn [fst List.length Nat.add] in Hf.
    cbn [errors isValid]. now rewrite Hf. }
  split; [intros Hne; apply (Hlen Hne) |].
  split.
  - intros Hv. destruct data as [| p0 rest]; [discriminate Hv |].
    split; [discriminate |].
    destruct (Hlen ltac:(discriminate)) as [_ E]. rewrite E in Hv.
    apply Nat.eqb_eq, list_sum_zero in Hv.
    rewrite Forall_map in Hv. eapply Forall_impl; [| exact Hv].
    intros p. apply bad_coordinates_zero.
  - intros [Hne Hp]. destruct (Hlen Hne) as [_ ->].
    apply Nat.eqb_eq, list_sum_zero. rewrite Forall_map.
    eapply Forall_impl; [| exact Hp]. intros p. apply bad_coordinates_zero.
Qed.

Lemma validation_accepts_exactly_proper_points_witness :
  isValid (validateGeologicalData unbounded_points "horizon") = true.
Proof.
  apply (proj2 (validation_accepts_exactly_proper_points unbounded_points
                  "horizon")).
  split; [discriminate |].
  unfold unbounded_points. cbn [repeat].
  repeat constructor; eexists; (split; [reflexivity | discriminate]).
Defined.


(* ================================================================== *)
(** * DataUploader: only validated points reach the store *)
(* ================================================================== *)

Lemma validation_accepts_proper (data : list RawPoint) (type : string) :
  isValid (validateGeologicalData data type) = true ->
  data <> [] /\ Forall proper_point data.
Proof.
  intros Hv. destruct data as [| p0 rest]; [discriminate Hv |].
  split; [discriminate |].
  unfold validateGeologicalData in Hv. set (l := p0 :: rest) in *.
  pose proof (validate_fold_errors type (indexed l) ([], [])) as Hf.
  rewrite <- (map_map snd bad_coordinates), indexed_snd in Hf.
  destruct (fold_left (validate_point type) (indexed l) ([], []))
    as [es ws]. cbn [fst List.length Nat.add] in Hf.
  cbn [isValid] in Hv. rewrite Hf in Hv.
  apply Nat.eqb_eq, list_sum_zero in Hv.
  rewrite Forall_map in Hv. eapply Forall_impl; [| exact Hv].
  intros p. apply bad_coordinates_zero.
Qed.

(** X24.  Whatever the parsed points and the data type, the uploader
    never shows the "no valid data points" toast (the validator has
    already rejected the empty array), and it stores a dataset only when
    every point has proper x, y and z, as a horizon for type "horizon"
    and as a fault for type "fault", with the points unchanged. *)
Theorem uploader_stores_only_validated_points :
  forall (warningThrows : bool) (name : string) (points : list RawPoint)
         (dataType : string),
    let r := onPointsParsed warningThrows name points dataType in
    ~ In ToastNoValidPoints (fst r) /\
    match snd r with
    | None => True
    | Some action =>
        points <> [] /\ Forall proper_point points /\
        ((dataType = "horizon"%string /\ action = AddHorizon name points) \/
         (dataType = "fault"%string /\ action = AddFault name points))
    end.
Proof.
  intros wt name points dataType r. subst r. unfold onPointsParsed.
  destruct (isValid (validateGeologicalData points dataType)) eqn:Hv;
    cbn [negb].
  - apply validation_accepts_proper in Hv. destruct Hv as [Hne Hp].
    assert (Hlen : (List.length points =? 0)%nat = false).
    { destruct points; [contradiction | reflexivity]. }
    assert (Hw : ~ In ToastNoValidPoints
                   (map ToastWarning
                      (warnings (validateGeologicalData points dataType)))).
    { intros H. apply in_map_iff in H. destruct H as (w & E & _).
      discriminate E. }
    assert (Hlast : forall (shown : list Toast) (t : Toast),
               ~ In ToastNoValidPoints shown -> t <> ToastNoValidPoints ->
               ~ In ToastNoValidPoints (shown ++ [t])).
    { intros shown t Hs Ht H. apply in_app_or in H.
      destruct H as [H | [H | []]]; [now apply Hs | now apply Ht]. }
    rewrite Hlen.
    destruct (warnings (validateGeologicalData points dataType)) as [| w ws].
    + destruct (String.eqb_spec dataType "horizon") as [-> | _];
        [| destruct (String.eqb_spec dataType "fault") as [-> | _]];
        cbn [fst snd].
      * split; [intros [H | []]; discriminate H | auto 6].
      * split; [intros [H | []]; discriminate H | auto 6].
      * split; [intros [] | exact I].
    + destruct wt.
      * cbn [fst snd]. split; [intros [H | []]; discriminate H | exact I].
      * destruct (String.eqb_spec dataType "horizon") as [-> | _];
          [| destruct (String.eqb_spec dataType "fault") as [-> | _]];
          cbn [fst snd].
        -- split; [apply Hlast; [exact Hw | discriminate] | auto 6].
        -- split; [apply Hlast; [exact Hw | discriminate] | auto 6].
        -- split; [exact Hw | exact I].
  - cbn. split; [intuition discriminate | exact I].
Qed.


(* ================================================================== *)
(** * Sample horizons *)
(* ================================================================== *)

Lemma row_fold {S : Type} (f : S -> nat -> nat -> S) (x : nat) (ys : list nat)
    (acc : S) :
  fold_left (fun a xy => f a (fst xy) (snd xy)) (map (fun y => (x, y)) ys) acc
  = fold_left (fun a y => f a x y) ys acc.
Proof.
  revert acc. induction ys as [| y ys IH]; intros acc; cbn [map fold_left fst snd].
  - reflexivity.
  - apply IH.
Qed.

Lemma nested_fold {S : Type} (f : S -> nat -> nat -> S) (xs ys : list nat)
    (acc : S) :
  fold_left (fun a x => fold_left (fun a y => f a x y) ys a) xs acc =
  fold_left (fun a xy => f a (fst xy) (snd xy)) (list_prod xs ys) acc.
Proof.
  revert acc. induction xs as [| x xs IH]; intros acc; cbn [fold_left list_prod].
  - reflexivity.
  - rewrite fold_left_app, row_fold. apply IH.
Qed.

Lemma horizon_sample_spec (rnd : nat -> R) (t b : list Point) (s x y : nat) :
  unit_stream rnd ->
  exists p q,
    horizon_sample rnd (t, b, s) x y = (t ++ [p], b ++ [q], (s + 2)%nat) /\
    planar p = (Fin (INR x * 40), Fin (INR y * 40)) /\ stacked p q.
Proof.
  intros Hu. unfold horizon_sample, of_nat.
  cbn [Js.mul Js.add Js.sub Js.sin Js.cos].
  eexists. eexists. split; [reflexivity |].
  split; [reflexivity |]. split; [reflexivity |].
  eexists. eexists. cbn [pz]. split; [reflexivity |]. split; [reflexivity |].
  pose proof (Hu s) as U1. pose proof (Hu (s + 1)%nat) as U2.
  pose proof (SIN_bound (INR x * (15 / 100))) as [A0 A1].
  pose proof (COS_bound (INR y * (12 / 100))) as [B0 B1].
  pose proof (SIN_bound (INR x * (8 / 100))) as [C0 C1].
  pose proof (COS_bound (INR y * (6 / 100))) as [D0 D1].
  pose proof (SIN_bound (INR x * (2 / 10))) as [E0 E1].
  pose proof (COS_bound (INR y * (16 / 100))) as [F0 F1].
  set (a := Rtrigo_def.sin (INR x * (15 / 100))) in *.
  set (b' := Rtrigo_def.cos (INR y * (12 / 100))) in *.
  set (c := Rtrigo_def.sin (INR x * (8 / 100))) in *.
  set (d := Rtrigo_def.cos (INR y * (6 / 100))) in *.
  set (e := Rtrigo_def.sin (INR x * (2 / 10))) in *.
  set (f := Rtrigo_def.cos (INR y * (16 / 100))) in *.
  assert (Hcd : -1 <= c * d <= 1) by (split; nra).
  split; split; lra.
Qed.

Lemma horizon_fold_spec (rnd : nat -> R) (l : list (nat * nat))
    (t b : list Point) (s : nat) :
  unit_stream rnd ->
  exists nt nb,
    fold_left (fun a xy => horizon_sample rnd a (fst xy) (snd xy)) l (t, b, s)
    = (t ++ nt, b ++ nb, (s + 2 * List.length l)%nat) /\
    map planar nt =
      map (fun xy => (Fin (INR (fst xy) * 40), Fin (INR (snd xy) * 40))) l /\
    Forall2 stacked nt nb.
Proof.
  intros Hu. revert t b s.
  induction l as [| [x y] l IH]; intros t b s; cbn [fold_left fst snd].
  - exists [], []. rewrite !app_nil_r, Nat.add_0_r. repeat split. constructor.
  - destruct (horizon_sample_spec rnd t b s x y Hu) as (p & q & -> & Hp & Hpq).
    destruct (IH (t ++ [p]) (b ++ [q]) (s + 2)%nat) as (nt & nb & -> & Hm & Hf).
    exists (p :: nt), (q :: nb). rewrite <- !app_assoc. cbn [app List.length map].
    split; [f_equal; lia |]. split.
    + now rewrite Hp, Hm.
    + now constructor.
Qed.

Lemma sample_horizons_spec (rnd : nat -> R) (st : AppState) :
  unit_stream rnd ->
  exists top bottom : list Point,
    generateRealisticHorizons rnd st =
      with_horizons
        [ {| ds_name := "Top Formation"; ds_points := top |};
          {| ds_name := "Base Formation"; ds_points := bottom |} ]
        (seed st + 1352) st /\
    map planar top = sample_lattice /\
    Forall2 stacked top bottom.
Proof.
  intros Hu. unfold generateRealisticHorizons. rewrite nested_fold.
  destruct (horizon_fold_spec rnd (list_prod (seq 0 26) (seq 0 26))
              [] [] (seed st) Hu) as (nt & nb & -> & Hm & Hf).
  exists nt, nb. cbn [app]. rewrite length_prod, !length_seq.
  split; [reflexivity |]. split; assumption.
Qed.

(** X25.  With every random draw in [0, 1), the sample-horizon button
    replaces the horizons by a top and a base of 676 samples each on the
    26 x 26 lattice of spacing 40; every base sample lies under its top
    sample, 242.5 to 757.5 lower, and all elevations are finite; nothing
    else of the state changes but the 1352 draws consumed. *)
Theorem sample_horizons_are_stacked_on_a_lattice :
  forall (rnd : nat -> R) (st : AppState),
    unit_stream rnd ->
    exists top bottom : DataSet,
      horizonData (generateRealisticHorizons rnd st) = [top; bottom] /\
      grids (generateRealisticHorizons rnd st) = grids st /\
      seed (generateRealisticHorizons rnd st) = (seed st + 1352)%nat /\
      List.length (ds_points top) = 676%nat /\
      List.length (ds_points bottom) = 676%nat /\
      map planar (ds_points top) = sample_lattice /\
      Forall2 stacked (ds_points top) (ds_points bottom).
Proof.
  intros rnd st Hu.
  destruct (sample_horizons_spec rnd st Hu) as (top & bottom & -> & Hm & Hf).
  eexists. eexists. cbn [horizonData grids seed with_horizons ds_points].
  split; [reflexivity |]. split; [reflexivity |]. split; [reflexivity |].
  assert (Ht : List.length top = 676%nat).
  { rewrite <- (length_map planar), Hm. unfold sample_lattice.
    rewrite length_map, length_prod, !length_seq. reflexivity. }
  split; [exact Ht |]. split; [| split; assumption].
  exact (eq_trans (eq_sym (Forall2_length Hf)) Ht).
Qed.

Lemma sample_horizons_are_stacked_on_a_lattice_witness :
  exists top bottom : DataSet,
    horizonData (generateRealisticHorizons half_stream slab_state)
    = [top; bottom] /\
    grids (generateRealisticHorizons half_stream slab_state) = grids slab_state /\
    seed (generateRealisticHorizons half_stream slab_state)
    = (seed slab_state + 1352)%nat /\
    List.length (ds_points top) = 676%nat /\
    List.length (ds_points bottom) = 676%nat /\
    map planar (ds_points top) = sample_lattice /\
    Forall2 stacked (ds_points top) (ds_points bottom).
Proof.
  apply sample_horizons_are_stacked_on_a_lattice. exact half_stream_unit.
Defined.


(* ================================================================== *)
(** * Building from the sample horizons *)
(* ================================================================== *)

Lemma stacked_left (top bottom : list Point) (p : Point) :
  Forall2 stacked top bottom -> In p top ->
  exists q, In q bottom /\ stacked p q.
Proof.
  intros H. induction H as [| a b t l Hab _ IH]; intros Hin.
  - destruct Hin.
  - destruct Hin as [<- | Hin].
    + exists b. split; [now left | exact Hab].
    + destruct (IH Hin) as (q & Hq & Hs). exists q. split; [now right | exact Hs].
Qed.

Lemma stacked_right (top bottom : list Point) (q : Point) :
  Forall2 stacked top bottom -> In q bottom ->
  exists p, In p top /\ stacked p q.
Proof.
  intros H. induction H as [| a b t l Hab _ IH]; intros Hin.
  - destruct Hin.
  - destruct Hin as [<- | Hin].
    + exists a. split; [now left | exact Hab].
    + destruct (IH Hin) as (p & Hp & Hs). exists p. split; [now right | exact Hs].
Qed.

Lemma lattice_member (top : list Point) (p : Point) :
  map planar top = sample_lattice -> In p top ->
  exists x y : nat, planar p = (Fin (INR x * 40), Fin (INR y * 40)).
Proof.
  intros Hm Hin. apply (in_map planar) in Hin. rewrite Hm in Hin.
  unfold sample_lattice in Hin. apply in_map_iff in Hin.
  destruct Hin as ([x y] & E & _). exists x, y. now rewrite <- E.
Qed.

Lemma lattice_corner (top : list Point) (x y : nat) :
  map planar top = sample_lattice -> (x <= 25)%nat -> (y <= 25)%nat ->
  exists p, In p top /\ planar p = (Fin (INR x * 40), Fin (INR y * 40)).
Proof.
  intros Hm Hx Hy.
  assert (Hin : In (Fin (INR x * 40), Fin (INR y * 40)) (map planar top)).
  { rewrite Hm. unfold sample_lattice.
    apply (in_map (fun xy => (Fin (INR (fst xy) * 40), Fin (INR (snd xy) * 40)))
             _ (x, y)).
    apply in_prod; apply in_seq; lia. }
  apply in_map_iff in Hin. destruct Hin as (p & E & Hp). now exists p.
Qed.

Lemma sample_horizons_finite (top bottom : list Point) :
  map planar top = sample_lattice -> Forall2 stacked top bottom ->
  finite_horizons {| ds_name := "Top Formation"; ds_points := top |}
                  {| ds_name := "Base Formation"; ds_points := bottom |}.
Proof.
  intros Hm Hf. unfold finite_horizons. cbn [ds_points]. split.
  - destruct (lattice_corner top 0 0 Hm) as (p & Hp & _); try lia.
    intros E. apply app_eq_nil in E. destruct E as [E _]. rewrite E in Hp.
    destruct Hp.
  - assert (Ht : forall p, In p top -> finite (px p) /\ finite (py p)).
    { intros p Hp. destruct (lattice_member top p Hm Hp) as (x & y & E).
      unfold planar in E. injection E as Ex Ey. rewrite Ex, Ey. cbn. auto. }
    intros p Hp. apply in_app_or in Hp. destruct Hp as [Hp | Hp].
    + destruct (Ht p Hp) as [Fx Fy].
      destruct (stacked_left top bottom p Hf Hp)
        as (q & _ & _ & tz & bz & Ez & _).
      repeat split; try assumption. now rewrite Ez.
    + destruct (stacked_right top bottom p Hf Hp)
        as (p0 & Hp0 & Epl & tz & bz & _ & Ez & _).
      destruct (Ht p0 Hp0) as [Fx Fy].
      unfold planar in Epl. injection Epl as Ex Ey.
      repeat split; [now rewrite Ex | now rewrite Ey | now rewrite Ez].
Qed.

Lemma sample_horizons_extents (top bottom : list Point) :
  map planar top = sample_lattice -> Forall2 stacked top bottom ->
  let b := horizon_bounds top bottom in
  xMin b <> xMax b /\ yMin b <> yMax b.
Proof.
  intros Hm Hf b.
  pose proof (sample_horizons_finite top bottom Hm Hf) as [Hne Hfin].
  cbn [ds_points] in Hne, Hfin.
  destruct (envelope_is_envelope px py pz (top ++ bottom) Hne)
    as ((_ & X0) & (_ & X1) & (_ & Y0) & (_ & Y1) & _).
  { intros p Hp. apply (Hfin p Hp). }
  fold (horizon_bounds top bottom) in X0, X1, Y0, Y1. fold b in X0, X1, Y0, Y1.
  destruct (lattice_corner top 0 0 Hm) as (p0 & Hp0 & E0); try lia.
  destruct (lattice_corner top 25 25 Hm) as (p1 & Hp1 & E1); try lia.
  unfold planar in E0, E1. injection E0 as E0x E0y.
  injection E1 as E1x E1y.
  assert (I0 : In p0 (top ++ bottom)) by (apply in_or_app; now left).
  assert (I1 : In p1 (top ++ bottom)) by (apply in_or_app; now left).
  split; intros E.
  - pose proof (X0 _ (in_map px _ _ I0)) as L.
    pose proof (X1 _ (in_map px _ _ I1)) as U.
    rewrite <- E in U. rewrite E0x in L. rewrite E1x in U.
    destruct (xMin b); cbn [Js.leb] in L, U; try discriminate.
    apply Rleb_spec in L, U. clear - L U. lra.
  - pose proof (Y0 _ (in_map py _ _ I0)) as L.
    pose proof (Y1 _ (in_map py _ _ I1)) as U.
    rewrite <- E in U. rewrite E0y in L. rewrite E1y in U.
    destruct (yMin b); cbn [Js.leb] in L, U; try discriminate.
    apply Rleb_spec in L, U. clear - L U. lra.
Qed.

(** X26.  With every random draw in [0, 1), a build started on the
    sample horizons always finishes: given enough loop tests it stores a
    grid and clears the generating flag, whatever random stream the build
    itself sees. *)
Theorem build_from_sample_horizons_finishes :
  forall (rnd rnd' : nat -> R) (now : nat) (st : AppState),
    unit_stream rnd ->
    exists n : nat, forall fuel : nat, (n <= fuel)%nat ->
      exists (st' : AppState) (g : Grid),
        generateGeologicalGrid rnd' now fuel (generateRealisticHorizons rnd st)
        = Some (Returned tt, st') /\
        grids st' = grids st ++ [g] /\
        isGenerating st' = false.
Proof.
  intros rnd rnd' now st Hu.
  destruct (sample_horizons_spec rnd st Hu) as (top & bottom & -> & Hm & Hf).
  destruct (sample_horizons_extents top bottom Hm Hf) as [Hx Hy].
  destruct (positive_extents_counters_stop
              {| ds_name := "Top Formation"; ds_points := top |}
              {| ds_name := "Base Formation"; ds_points := bottom |}
              (sample_horizons_finite top bottom Hm Hf) Hx Hy)
    as [n Hn].
  assert (Hfit : (horizon_samples
                    (with_horizons
                       [ {| ds_name := "Top Formation"; ds_points := top |};
                         {| ds_name := "Base Formation"; ds_points := bottom |} ]
                       (seed st + 1352) st)
                  <= argument_limit
                       (with_horizons
                          [ {| ds_name := "Top Formation"; ds_points := top |};
                            {| ds_name := "Base Formation";
                               ds_points := bottom |} ]
                          (seed st + 1352) st))%N).
  { apply small_fits. unfold horizon_samples.
    cbn [horizonData with_horizons ds_points].
    assert (Ht : List.length top = 676%nat).
    { rewrite <- (length_map planar), Hm. unfold sample_lattice.
      rewrite length_map, length_prod, !length_seq. reflexivity. }
    rewrite length_app, <- (Forall2_length Hf), Ht. cbn. lia. }
  exists n. intros fuel Hfuel.
  destruct (Hn fuel Hfuel) as (xs & ys & Exs & Eys).
  destruct (generate_finishes rnd' now fuel
              (with_horizons
                 [ {| ds_name := "Top Formation"; ds_points := top |};
                   {| ds_name := "Base Formation"; ds_points := bottom |} ]
                 (seed st + 1352) st)
              {| ds_name := "Top Formation"; ds_points := top |}
              {| ds_name := "Base Formation"; ds_points := bottom |} []
              xs ys eq_refl Hfit Exs Eys)
    as (st' & g & Hgen & Hg & Hi).
  exists st', g. split; [exact Hgen |]. split; [exact Hg | exact Hi].
Qed.

Lemma build_from_sample_horizons_finishes_witness :
  exists n : nat, forall fuel : nat, (n <= fuel)%nat ->
    exists (st' : AppState) (g : Grid),
      generateGeologicalGrid half_stream 7 fuel
        (generateRealisticHorizons half_stream slab_state)
      = Some (Returned tt, st') /\
      grids st' = grids slab_state ++ [g] /\
      isGenerating st' = false.
Proof.
  apply build_from_sample_horizons_finishes. exact half_stream_unit.
Defined.
